(** * Applicant tracking system: the synchronisation core of the Apps Script sources

    A shallow embedding of the functions of [Util.js] (utilities and
    [CandidatesSync.gs]), [Requisitions.js] and [Settings.js]
    ([DebounceQueue.gs]) that the specification's testable properties are
    about, followed by the properties themselves.

    Conventions of the embedding.
    - A JavaScript string is a [string] of bytes; [trim] removes the six ASCII
      white-space characters and [toLowerCase] folds [A-Z] only.  The capital
      of a first character outside ASCII is left open (class [UpperFirst]).
    - A value read from a cell is a text or a [Date]; numbers and booleans are
      not modelled.  The textual rendering of a [Date] is left open (class
      [DateRender]): every statement holds for every rendering.
    - A row object is a finite map from header names to values, a sheet is a
      header row number, the set of headers present and the list of its data
      rows; formats, validations and notes are not part of the state.
    - The clock ([Date.now()], [nowDetroit()]) is an explicit argument. *)

From Stdlib Require Import ZArith Lia Ascii String DecimalString.
From stdpp Require Import base option list sorting gmap strings.

Set Default Proof Using "Type".
Set Warnings "-clear-no-such-hyp".

(** ** JavaScript string primitives *)

Module Js.

Definition is_ws (c : ascii) : bool := Ascii.is_space c.

Definition lower_char (c : ascii) : ascii :=
  let n := nat_of_ascii c in
  if (65 <=? n)%nat && (n <=? 90)%nat then ascii_of_nat (n + 32) else c.

Definition upper_char (c : ascii) : ascii :=
  let n := nat_of_ascii c in
  if (97 <=? n)%nat && (n <=? 122)%nat then ascii_of_nat (n - 32) else c.

Definition is_ascii (c : ascii) : bool := (nat_of_ascii c <? 128)%nat.

Definition is_digit (c : ascii) : bool :=
  let n := nat_of_ascii c in (48 <=? n)%nat && (n <=? 57)%nat.

(** [/./] matches every character but a line terminator. *)
Definition is_line_terminator (c : ascii) : bool :=
  match c with "010"%char | "013"%char => true | _ => false end.

Fixpoint toLowerCase (s : string) : string :=
  match s with
  | "" => ""
  | String c s' => String (lower_char c) (toLowerCase s')
  end.

Fixpoint trimStart (s : string) : string :=
  match s with
  | "" => ""
  | String c s' => if is_ws c then trimStart s' else s
  end.

Fixpoint trimEnd (s : string) : string :=
  match s with
  | "" => ""
  | String c s' =>
      match trimEnd s' with
      | "" => if is_ws c then "" else String c ""
      | t => String c t
      end
  end.

Definition trim (s : string) : string := trimEnd (trimStart s).

(** [!s] is false exactly for the non-empty strings. *)
Definition nonempty (s : string) : bool :=
  match s with "" => false | _ => true end.

(** [s.includes(c)] for a one-character needle. *)
Fixpoint includes (c : ascii) (s : string) : bool :=
  match s with
  | "" => false
  | String d s' => Ascii.eqb d c || includes c s'
  end.

(** [s.split(c)] for a one-character separator. *)
Fixpoint split (sep : ascii) (s : string) : list string :=
  match s with
  | "" => [""]
  | String c s' =>
      if Ascii.eqb c sep then "" :: split sep s'
      else match split sep s' with
           | [] => [String c ""]
           | w :: ws => String c w :: ws
           end
  end.

(** [s.replace(/c/g, r)] for a one-character pattern. *)
Fixpoint replaceAll (c : ascii) (r : string) (s : string) : string :=
  match s with
  | "" => ""
  | String d s' =>
      if Ascii.eqb d c then r +:+ replaceAll c r s' else String d (replaceAll c r s')
  end.

(** [s.replace(/\D/g, '')]. *)
Fixpoint digitsOnly (s : string) : string :=
  match s with
  | "" => ""
  | String c s' => if is_digit c then String c (digitsOnly s') else digitsOnly s'
  end.

(** Case-insensitive [startsWith], as in a [/^lit/i] test ([lit] in lower case). *)
Fixpoint startsWith_ci (lit s : string) : bool :=
  match lit, s with
  | "", _ => true
  | String a lit', String c s' => Ascii.eqb (lower_char c) a && startsWith_ci lit' s'
  | String _ _, "" => false
  end.

Fixpoint drop (n : nat) (s : string) : string :=
  match n, s with
  | O, _ => s
  | S n', String _ s' => drop n' s'
  | S _, "" => ""
  end.

End Js.

(** ** Values of cells *)

Inductive jsval :=
  | VStr (s : string)
  | VDate (t : Z).

(** [String(d)] for a [Date] with time value [t]. *)
Class DateRender := dateToString : Z → string.

(** [s.charAt(0).toUpperCase() + s.slice(1)] for a text [s] that begins
    outside ASCII.  Unicode decides that capital, and it may be longer than
    the character it stands for (the ligature fi becomes FI, sharp s becomes
    SS), so it is left open.  What is used of it: no such capital begins
    with white space, nor with the letter O. *)
Class UpperFirst := {
  upperFirst : string → string;
  upperFirst_head c r c' r' :
    Js.is_ascii c = false → upperFirst (String c r) = String c' r' →
    Js.is_ws c' = false ∧ Js.lower_char c' ≠ "o"%char
}.

Section Values.
Context `{DateRender}.

Definition String_ (v : jsval) : string :=
  match v with
  | VStr s => s
  | VDate t => dateToString t
  end.

(** JavaScript truthiness: a [Date] object is always truthy. *)
Definition truthy (v : jsval) : bool :=
  match v with
  | VStr s => Js.nonempty s
  | VDate _ => true
  end.

End Values.

(** [obj[h] || ''], also [obj[h] == null ? '' : obj[h]] up to truthiness: a
    header absent from the object reads as the empty text. *)
Definition fld (obj : gmap string jsval) (h : string) : jsval :=
  default (VStr "") (obj !! h).

(** ** Time and keys ([Util.js]) *)

Section Keys.
Context `{DateRender}.

Definition normEmail_s (s : string) : string :=
  let email := Js.toLowerCase (Js.trim s) in
  if negb (Js.nonempty email) || negb (Js.includes "@" email) then email
  else
    match Js.split "@" email with
    | [loc; domain] =>
        if String.eqb domain "gmail.com" || String.eqb domain "googlemail.com" then
          let cleanLocal := hd "" (Js.split "+" (Js.replaceAll "." "" loc)) in
          cleanLocal +:+ "@gmail.com"
        else email
    | _ => email
    end.

(** [normEmail(s)]: [(s || '').toString()] first. *)
Definition normEmail (v : jsval) : string := normEmail_s (String_ v).

Definition normPhone (v : jsval) : string := Js.digitsOnly (String_ v).

Definition decimal (n : Z) : string :=
  NilZero.string_of_int (Z.to_int n).

(** [keyFor(jobId, email)]; [now] is the reading of [Date.now()]. *)
Definition keyFor (now : Z) (jobId email : jsval) : string :=
  let jid := Js.trim (String_ jobId) in
  let em := normEmail email in
  if negb (Js.nonempty jid) && negb (Js.nonempty em) then "_EMPTY_KEY_" +:+ decimal now
  else jid +:+ "|" +:+ em.

End Keys.

(** ** Constants ([Constants.js]) *)

Definition nl : string := String "010" "".

Module H_REQ.
Definition JobStatus := "Job Status".
Definition JobTitle := "Job Title".
Definition JobID := "Job ID".
Definition Created := "Created Date".
Definition Opened := "Opened Date".
Definition DaysOpen := "Days Open".
Definition OnHoldDate := "On Hold Date".
Definition ClosedDate := "Closed Date".
Definition PositionHiredDate := "Position Hired Date".
Definition HiredCandidateName := "Hired Candidate's Name".
End H_REQ.

Module H_ALL.
Definition FullName := "Full Name".
Definition Resume := "Resume Link".
Definition LinkedIn := "LinkedIn Profile".
Definition Phone := "Phone Number".
Definition Email := "Email Address".
Definition City := "City".
Definition State := "State".
Definition TargetSalary := Eval cbv in "Targeted" +:+ nl +:+ "Compensation (Salary)".
Definition TargetHourly := Eval cbv in "Targeted" +:+ nl +:+ "Compensation (Hourly)".
Definition JobID := "Job ID".
Definition JobStatus := "Job Status".
Definition JobTitle := "Job Title".
Definition Stage := Eval cbv in "Candidate" +:+ nl +:+ "Workflow Status".
Definition RejectedReason := "Rejected Reasoning".
Definition InterviewNotes := "Interview Notes".
Definition Created := "Created Date".
Definition Updated := "Last Updated".
Definition HiredDate := "Hired Date".
End H_ALL.

Module H_ACT.
Definition FullName := "Full Name".
Definition JobID := "Job ID".
Definition JobStatus := "Job Status".
Definition JobTitle := "Job Title".
Definition Stage := H_ALL.Stage.
Definition RejectedReason := "Rejected Reasoning".
Definition InterviewNotes := "Interview Notes".
Definition Resume := "Resume Link".
Definition LinkedIn := "LinkedIn Profile".
Definition Phone := "Phone Number".
Definition Email := "Email Address".
Definition City := "City".
Definition State := "State".
Definition TargetSalary := H_ALL.TargetSalary.
Definition TargetHourly := H_ALL.TargetHourly.
End H_ACT.

Definition ANCHOR_HEADER_REQ := H_REQ.JobID.
Definition ANCHOR_HEADER_ALL := H_ALL.FullName.
Definition ANCHOR_HEADER_ACT := H_ACT.FullName.

Definition MIRRORED_FIELDS : list string :=
  [ H_ALL.Stage; H_ALL.RejectedReason; H_ALL.InterviewNotes;
    H_ALL.Resume; H_ALL.LinkedIn; H_ALL.Phone; H_ALL.Email;
    H_ALL.City; H_ALL.State; H_ALL.TargetSalary; H_ALL.TargetHourly;
    H_ALL.JobTitle; H_ALL.JobStatus; H_ALL.FullName; H_ALL.JobID;
    H_ALL.Created; H_ALL.HiredDate ].

Definition PHONE_MIN_DIGITS : nat := 10.

(** ** Local helpers of [CandidatesSync.gs] *)

(** The decimal numerals of [/^-?\d+(\.\d+)?$/], as a scaled integer
    [(m, k)] standing for [m / 10^k].  [Number] rounds to a double; the
    comparison below is exact. *)
Fixpoint digitsValue (acc : Z) (s : string) : option Z :=
  match s with
  | "" => Some acc
  | String c s' =>
      if Js.is_digit c
      then digitsValue (10 * acc + Z.of_nat (nat_of_ascii c - 48)) s'
      else None
  end.

Definition digitRun (s : string) : option Z :=
  if Js.nonempty s then digitsValue 0 s else None.

Definition parseNumeral (s : string) : option (Z * nat) :=
  let '(sign, body) :=
    match s with
    | String "-" r => ((-1)%Z, r)
    | _ => (1%Z, s)
    end in
  match Js.split "." body with
  | [i] => m ← digitRun i; Some ((sign * m)%Z, 0)
  | [i; f] =>
      _ ← digitRun i; _ ← digitRun f;
      m ← digitsValue 0 (i +:+ f); Some ((sign * m)%Z, String.length f)
  | _ => None
  end.

Definition numeralEq (a b : Z * nat) : bool :=
  (a.1 * 10 ^ Z.of_nat b.2 =? b.1 * 10 ^ Z.of_nat a.2)%Z.

Section Sync_helpers.
Context `{DateRender} `{UpperFirst}.

Definition _normStr_ (v : jsval) : string := Js.trim (String_ v).

(** [Number(A)] when [String(A)] is a numeral, [NaN] ([None]) otherwise. *)
Definition numberOf (v : jsval) : option (Z * nat) :=
  q ← parseNumeral (String_ v);
  Some (match v with VDate t => (t, 0) | VStr _ => q end).

Definition _valsEqual_ (a b : jsval) : bool :=
  match a, b with
  | VDate ta, VDate tb => (ta =? tb)%Z
  | _, _ =>
      match numberOf a, numberOf b with
      | Some na, Some nb => numeralEq na nb
      | _, _ => String.eqb (Js.trim (String_ a)) (Js.trim (String_ b))
      end
  end.

Definition _diffFields_ (sourceObj targetObj : gmap string jsval)
    (fields : list string) : gmap string jsval :=
  foldl (λ out f,
           let src := fld sourceObj f in
           let dst := fld targetObj f in
           if _valsEqual_ src dst then out else <[f := src]> out)
        ∅ fields.

(** [s.charAt(0).toUpperCase() + s.slice(1)]. *)
Definition capitalize (s : string) : string :=
  match s with
  | "" => ""
  | String c s' => if Js.is_ascii c then String (Js.upper_char c) s' else upperFirst s
  end.

Definition _canonReqStatus_ (sRaw : jsval) : string :=
  let s := Js.toLowerCase (_normStr_ sRaw) in
  if negb (Js.nonempty s) then ""
  else if String.eqb s "open" then "Open"
  else if String.eqb s "on hold" || String.eqb s "on hold" then "On Hold"
  else if String.eqb s "closed" then "Closed"
  else if String.eqb s "pending approval" then "Pending Approval"
  else if String.eqb s "hired" then "Hired"
  else capitalize s.

Definition _isOpenForActive_ (status : jsval) : bool :=
  let canon := _canonReqStatus_ status in
  String.eqb canon "Open" || String.eqb canon "On Hold".

End Sync_helpers.

(** ** Sheets *)

(** A cell holds a value or a formula. *)
Inductive cell :=
  | CVal (v : jsval)
  | CFormula (f : string).

#[global] Instance jsval_eq_dec : EqDecision jsval.
Proof. solve_decision. Defined.
#[global] Instance cell_eq_dec : EqDecision cell.
Proof. solve_decision. Defined.

Record sheet := Sheet {
  headerRow : nat;                 (* 1-based number of the header row *)
  hm : gset string;                (* the headers of the header map *)
  body : list (gmap string cell)   (* the rows below the header row *)
}.

Definition dataStartRow (sh : sheet) : nat := S (headerRow sh).

(** [getHeaderInfo(sheet, anchor)]: [null] when no row carries the anchor
    header; the cache is taken to be coherent with the sheet. *)
Definition getHeaderInfo (sh : sheet) (anchorHeader : string) : option sheet :=
  if decide (anchorHeader ∈ hm sh) then Some sh else None.

(** *** Formulas: the one function the code writes *)

Definition dq : ascii := "034"%char.

(** The rest of a string literal of the formula language after its opening
    quote: its text (a doubled quote stands for one quote) and what follows
    the closing quote. *)
Fixpoint parseLiteral (s : string) : option (string * string) :=
  match s with
  | "" => None
  | String c s' =>
      if Ascii.eqb c dq then
        match s' with
        | String d s'' =>
            if Ascii.eqb d dq
            then prod_map (String dq) id <$> parseLiteral s''
            else Some ("", s')
        | "" => Some ("", "")
        end
      else prod_map (String c) id <$> parseLiteral s'
  end.

Definition expect (lit s : string) : option string :=
  if Js.startsWith_ci lit s then Some (Js.drop (String.length lit) s) else None.

(** A [HYPERLINK] call on two string literals, read back as [(url, label)]. *)
Definition parseHyperlink (f : string) : option (string * string) :=
  s1 ← expect "=hyperlink(" f;
  s2 ← expect (String dq "") s1;
  '(url, s3) ← parseLiteral s2;
  s4 ← expect "," s3;
  s5 ← expect (String dq "") s4;
  '(label, s6) ← parseLiteral s5;
  if String.eqb s6 ")" then Some (url, label) else None.

(** What [getValues()] returns for a cell: a hyperlink shows its label.  The
    value of any other formula is outside the model. *)
Definition cellValue (c : cell) : jsval :=
  match c with
  | CVal v => v
  | CFormula f =>
      match parseHyperlink f with
      | Some (_, label) => VStr label
      | None => VStr "#ERROR!"
      end
  end.


(** *** Row readers and writers ([Util.js]) *)

Definition rowobj := gmap string jsval.

(** The object built from one row of [getValues()] and the header map. *)
Definition rowObject (sh : sheet) (cells : gmap string cell) : gmap string jsval :=
  cellValue <$> filter (λ p, p.1 ∈ hm sh) cells.

(** A row without content: [getLastRow()] ignores it at the end of a sheet. *)
Definition rowBlank (cells : gmap string cell) : bool :=
  bool_decide (map_Forall (λ _ c, c = CVal (VStr "")) cells).

(** The number of data rows up to the last one with content. *)
Fixpoint dataCount (rows : list (gmap string cell)) : nat :=
  match rows with
  | [] => 0
  | r :: rest =>
      match dataCount rest with
      | 0 => if rowBlank r then 0 else 1
      | S n => S (S n)
      end
  end.

Definition getLastRow (sh : sheet) : nat := headerRow sh + dataCount (body sh).

(** [sh.getRange(dataStartRow, 1, numRows, lastCol).getValues()], each row
    with its number, as objects. *)
Definition dataObjects (sh : sheet) : list (nat * gmap string jsval) :=
  imap (λ i cells, (dataStartRow sh + i, rowObject sh cells))
       (take (dataCount (body sh)) (body sh)).

Definition getRowObjectByHeaders (sh : sheet) (row : nat) : gmap string jsval :=
  if (row <? dataStartRow sh)%nat then ∅
  else match body sh !! (row - dataStartRow sh) with
       | Some cells => rowObject sh cells
       | None => ∅
       end.

(** Apply [f] to the cells of data row [i] (0-based); rows past the end of
    the list are empty rows of the grid. *)
Definition onRow (f : gmap string cell → gmap string cell) (i : nat)
    (rows : list (gmap string cell)) : list (gmap string cell) :=
  if (i <? length rows)%nat then alter f i rows
  else rows ++ replicate (i - length rows) ∅ ++ [f ∅].

Definition withBody (sh : sheet) (b : list (gmap string cell)) : sheet :=
  {| headerRow := headerRow sh; hm := hm sh; body := b |}.

(** [setRowValuesByHeaders]: the updates whose header is mapped are written,
    in runs of adjacent columns; the final cells do not depend on the runs. *)
Definition setRowValuesByHeaders (sh : sheet) (row : nat)
    (updates : gmap string jsval) : sheet :=
  if (row <? dataStartRow sh)%nat then sh
  else
    let written := CVal <$> filter (λ p, p.1 ∈ hm sh) updates in
    withBody sh (onRow (λ cells, written ∪ cells) (row - dataStartRow sh) (body sh)).

Definition deleteRow (sh : sheet) (row : nat) : sheet :=
  if (row <? dataStartRow sh)%nat then sh
  else withBody sh (delete (row - dataStartRow sh) (body sh)).

(** [insertRowAfter(row)] for a row at or below the header row. *)
Definition insertRowAfter (sh : sheet) (row : nat) : sheet :=
  let i := row - headerRow sh in
  withBody sh (take i (body sh) ++ [∅] ++ drop i (body sh)).

Section Index.
Context `{DateRender} `{UpperFirst}.

(** [buildCandidateIndex]: the last row wins a key; rows without job id and
    email are left out of both results. *)
Definition candidateIndexStep (now : Z)
    (acc : gmap string nat * list (nat * gmap string jsval))
    (entry : nat * gmap string jsval) :
    gmap string nat * list (nat * gmap string jsval) :=
  let '(r, obj) := entry in
  let jid := Js.trim (String_ (fld obj H_ALL.JobID)) in
  let em := normEmail (fld obj H_ALL.Email) in
  if Js.nonempty jid || Js.nonempty em
  then (<[keyFor now (VStr jid) (VStr em) := r]> acc.1, acc.2 ++ [(r, obj)])
  else acc.

Definition buildCandidateIndex (now : Z) (sh : sheet) :
    gmap string nat * list (nat * gmap string jsval) :=
  foldl (candidateIndexStep now) (∅, []) (dataObjects sh).

Definition reqIndexStep
    (acc : gmap string nat * list (nat * gmap string jsval))
    (entry : nat * gmap string jsval) :
    gmap string nat * list (nat * gmap string jsval) :=
  let '(r, obj) := entry in
  let jid := Js.trim (String_ (fld obj H_REQ.JobID)) in
  (if Js.nonempty jid then <[jid := r]> acc.1 else acc.1, acc.2 ++ [(r, obj)]).

Definition buildReqIndex (sh : sheet) :
    gmap string nat * list (nat * gmap string jsval) :=
  foldl reqIndexStep (∅, []) (dataObjects sh).

End Index.

(** *** URL helpers ([Util.js]) *)

Fixpoint takeUntilQuote (s : string) : option (string * string) :=
  match s with
  | "" => None
  | String c s' =>
      if Ascii.eqb c dq then Some ("", s')
      else prod_map (String c) id <$> takeUntilQuote s'
  end.

(** One attempt of the pattern of [extractUrl] at the head of [s]: the call
    name and parenthesis, white space, a quote, one or more characters other
    than a quote, a quote. *)
Definition hyperlinkUrlAt (s : string) : option string :=
  s1 ← expect "=hyperlink(" s;
  s2 ← expect (String dq "") (Js.trimStart s1);
  '(url, _) ← takeUntilQuote s2;
  if Js.nonempty url then Some url else None.

(** [f.match(...)]: the leftmost position where the pattern matches. *)
Fixpoint hyperlinkUrlSearch (s : string) : option string :=
  match hyperlinkUrlAt s with
  | Some u => Some u
  | None =>
      match s with
      | "" => None
      | String _ s' => hyperlinkUrlSearch s'
      end
  end.

Definition isHttpUrl (v : string) : bool :=
  Js.startsWith_ci "http://" v || Js.startsWith_ci "https://" v.

(** [extractUrl] on the content of a cell; links carried by rich text are not
    modelled. *)
Definition extractUrl_cell (c : cell) : string :=
  let fromFormula :=
    match c with
    | CFormula f =>
        if Js.startsWith_ci "=hyperlink(" f then hyperlinkUrlSearch f else None
    | CVal _ => None
    end in
  match fromFormula with
  | Some u => u
  | None =>
      match cellValue c with
      | VStr v => if isHttpUrl v then Js.trim v else ""
      | VDate _ => ""
      end
  end.

Definition cellAt (sh : sheet) (row : nat) (h : string) : cell :=
  default (CVal (VStr ""))
    (if (row <? dataStartRow sh)%nat then None
     else body sh !! (row - dataStartRow sh) ≫= (.!! h)).

Definition extractUrl (sh : sheet) (row : nat) (h : string) : string :=
  extractUrl_cell (cellAt sh row h).

(** [.+] : at least one character, the first of which is no line terminator. *)
Definition dotPlus (s : string) : bool :=
  match s with
  | "" => false
  | String c _ => negb (Js.is_line_terminator c)
  end.

(** The protocol test of [setHyperlink]. *)
Definition urlAllowed (u : string) : bool :=
  (Js.startsWith_ci "http://" u && dotPlus (Js.drop 7 u))
  || (Js.startsWith_ci "https://" u && dotPlus (Js.drop 8 u))
  || (Js.startsWith_ci "mailto:" u && dotPlus (Js.drop 7 u))
  || (Js.startsWith_ci "tel:" u && dotPlus (Js.drop 4 u)).

Section Hyperlink.
Context `{DateRender} `{UpperFirst}.

Definition _escapeForFormula_ (s : jsval) : string :=
  Js.replaceAll dq (String dq (String dq "")) (String_ s).

Definition hyperlinkFormula (u : string) (label : jsval) : string :=
  "=HYPERLINK(" +:+ String dq (_escapeForFormula_ (VStr u))
    +:+ String dq ("," +:+ String dq (_escapeForFormula_ label) +:+ String dq ")").

(** The formula [setHyperlink] writes, if it writes one. *)
Definition hyperlinkFor (url label : jsval) : option string :=
  let u := Js.trim (String_ url) in
  if negb (Js.nonempty u) then None
  else if negb (urlAllowed u) then None
  else Some (hyperlinkFormula u label).

Definition setFormula (sh : sheet) (row : nat) (h : string) (f : string) : sheet :=
  if (row <? dataStartRow sh)%nat then sh
  else withBody sh (onRow (λ cells, <[h := CFormula f]> cells)
                          (row - dataStartRow sh) (body sh)).

Definition setHyperlink (sh : sheet) (row : nat) (h : string)
    (url label : jsval) : sheet :=
  match hyperlinkFor url label with
  | Some f => setFormula sh row h f
  | None => sh
  end.

End Hyperlink.

(** ** The three sheets and the trace of mutating calls *)

Inductive sheetName := SHEET_REQUISITIONS | SHEET_ALL | SHEET_ACTIVE.

#[export] Instance sheetName_eq_dec : EqDecision sheetName.
Proof. solve_decision. Defined.

Record world := World {
  w_req : sheet;
  w_all : sheet;
  w_act : sheet;
  w_mute : gset string;           (* keys of Active under the recent-edit guard *)
  w_processingHiredFlow : bool    (* [_processingHiredFlow] *)
}.

Definition withReq (w : world) (sh : sheet) : world :=
  World sh (w_all w) (w_act w) (w_mute w) (w_processingHiredFlow w).
Definition withAll (w : world) (sh : sheet) : world :=
  World (w_req w) sh (w_act w) (w_mute w) (w_processingHiredFlow w).
Definition withAct (w : world) (sh : sheet) : world :=
  World (w_req w) (w_all w) sh (w_mute w) (w_processingHiredFlow w).

Inductive event :=
  | EvDeleteRow (s : sheetName) (row : nat)
  | EvInsertRow (s : sheetName) (row : nat)
  | EvSetValues (s : sheetName) (row : nat) (updates : gmap string jsval)
  | EvSetFormula (s : sheetName) (row : nat) (h : string) (f : string).

Definition isRecentlyEdited (w : world) (compositeKey : string) : bool :=
  bool_decide (compositeKey ∈ w_mute w).

Definition putIf (c : bool) (h : string) (v : jsval)
    (up : gmap string jsval) : gmap string jsval :=
  if c then <[h := v]> up else up.

Definition isEmptyObj (o : gmap string jsval) : bool := bool_decide (o = ∅).

(** ** Status transitions ([Requisitions.js]) *)

Section Requisitions.
Context `{DateRender} `{UpperFirst}.

Definition reqStatusUpdates (hmReq : gset string) (now : Z)
    (rowObj : gmap string jsval) : gmap string jsval :=
  let status := _normStr_ (fld rowObj H_REQ.JobStatus) in
  let isSet h := bool_decide (h ∈ hmReq) && truthy (fld rowObj h) in
  let isUnset h := bool_decide (h ∈ hmReq) && negb (truthy (fld rowObj h)) in
  let up :=
    putIf (negb (String.eqb status "Hired") && isSet H_REQ.HiredCandidateName)
          H_REQ.HiredCandidateName (VStr "") ∅ in
  if String.eqb status "Open" then
    putIf (isSet H_REQ.PositionHiredDate) H_REQ.PositionHiredDate (VStr "")
      (putIf (isSet H_REQ.ClosedDate) H_REQ.ClosedDate (VStr "")
        (putIf (isSet H_REQ.OnHoldDate) H_REQ.OnHoldDate (VStr "")
          (putIf (isUnset H_REQ.Opened) H_REQ.Opened (VDate now) up)))
  else if String.eqb status "On Hold" then
    putIf (isSet H_REQ.PositionHiredDate) H_REQ.PositionHiredDate (VStr "")
      (putIf (isSet H_REQ.ClosedDate) H_REQ.ClosedDate (VStr "")
        (putIf (isUnset H_REQ.OnHoldDate) H_REQ.OnHoldDate (VDate now) up))
  else if String.eqb status "Closed" then
    putIf (isUnset H_REQ.ClosedDate) H_REQ.ClosedDate (VDate now) up
  else if String.eqb status "Hired" then
    putIf (isUnset H_REQ.ClosedDate) H_REQ.ClosedDate (VDate now)
      (putIf (isUnset H_REQ.PositionHiredDate) H_REQ.PositionHiredDate (VDate now) up)
  else up.

Definition reqTransitionRow (now : Z) (sh : sheet) (row : nat) : sheet :=
  if (row <? dataStartRow sh)%nat then sh
  else
    let up := reqStatusUpdates (hm sh) now (getRowObjectByHeaders sh row) in
    if isEmptyObj up then sh else setRowValuesByHeaders sh row up.

Definition applyReqStatusTransitionsForRows_ (now : Z) (rows : list nat)
    (sh : sheet) : sheet :=
  match getHeaderInfo sh ANCHOR_HEADER_REQ with
  | None => sh
  | Some _ => foldl (reqTransitionRow now) sh rows
  end.

(** A user sets the status cell of a requisition row and the edit handler
    runs the transition engine on that row. *)
Definition statusEdited (now : Z) (sh : sheet) (row : nat) (status : string) : sheet :=
  applyReqStatusTransitionsForRows_ now [row]
    (setRowValuesByHeaders sh row {[ H_REQ.JobStatus := VStr status ]}).

End Requisitions.

(** ** Candidate synchronisation ([CandidatesSync.gs] in [Util.js]) *)

Section CandidatesSync.
Context `{DateRender} `{UpperFirst}.

(** The mirrored fields [_upsertActiveRow_] wants in Active. *)
Definition desiredFor (hmAct : gset string) (allRowObj : gmap string jsval) :
    gmap string jsval :=
  foldl (λ desired f,
           if bool_decide (f = H_ALL.Resume) || bool_decide (f = H_ALL.LinkedIn)
           then desired
           else if bool_decide (f ∈ hmAct) then <[f := fld allRowObj f]> desired
           else desired)
        ∅ MIRRORED_FIELDS.

(** A guarded [setHyperlink] on a sheet, with its trace. *)
Definition linkStep (s : sheetName) (cond : bool) (row : nat) (h : string)
    (url label : jsval) (st : sheet * list event) : sheet * list event :=
  if cond then
    match hyperlinkFor url label with
    | Some f => (setFormula st.1 row h f, st.2 ++ [EvSetFormula s row h f])
    | None => st
    end
  else st.

Definition has (hmap : gset string) (h : string) : bool := bool_decide (h ∈ hmap).

(** [_upsertActiveRow_(allRowObj, linkPayload)]; [allRow] is
    [allRowObj.__row], the two urls are the link payload. *)
Definition _upsertActiveRow_ (now : Z) (w : world)
    (allRowObj : gmap string jsval) (allRow : nat)
    (resumeUrl linkedinUrl : string) : world * list event :=
  match getHeaderInfo (w_all w) ANCHOR_HEADER_ALL,
        getHeaderInfo (w_act w) ANCHOR_HEADER_ACT with
  | Some all, Some act =>
      let jobId := _normStr_ (fld allRowObj H_ALL.JobID) in
      let email := normEmail (fld allRowObj H_ALL.Email) in
      if negb (Js.nonempty jobId) || negb (Js.nonempty email) then (w, [])
      else
        let idxAct := (buildCandidateIndex now act).1 in
        let existingRow := idxAct !! keyFor now (VStr jobId) (VStr email) in
        let desired := desiredFor (hm act) allRowObj in
        let '(targetRow, act1, ev1) :=
          match existingRow with
          | Some r =>
              let current := getRowObjectByHeaders act r in
              let diff := _diffFields_ desired current (map_to_list desired).*1 in
              if isEmptyObj diff then (r, act, [])
              else (r, setRowValuesByHeaders act r diff,
                    [EvSetValues SHEET_ACTIVE r diff])
          | None =>
              let lastRow := getLastRow act `max` headerRow act in
              let targetRow := lastRow + 1 in
              (targetRow,
               setRowValuesByHeaders (insertRowAfter act lastRow) targetRow desired,
               [EvInsertRow SHEET_ACTIVE targetRow;
                EvSetValues SHEET_ACTIVE targetRow desired])
          end in
        let rUrl :=
          if Js.nonempty resumeUrl then resumeUrl
          else if has (hm all) H_ALL.Resume then extractUrl all allRow H_ALL.Resume
          else "" in
        let lUrl :=
          if Js.nonempty linkedinUrl then linkedinUrl
          else if has (hm all) H_ALL.LinkedIn then extractUrl all allRow H_ALL.LinkedIn
          else "" in
        let phone := normPhone (fld allRowObj H_ALL.Phone) in
        let phoneLabel :=
          if truthy (fld allRowObj H_ALL.Phone) then fld allRowObj H_ALL.Phone
          else VStr phone in
        let st :=
          linkStep SHEET_ACTIVE
            (has (hm act) H_ACT.Phone && Js.nonempty phone
               && (PHONE_MIN_DIGITS <=? String.length phone)%nat)
            targetRow H_ACT.Phone (VStr ("tel:" +:+ phone)) phoneLabel
          (linkStep SHEET_ACTIVE (has (hm act) H_ACT.Email && Js.nonempty email)
            targetRow H_ACT.Email (VStr ("mailto:" +:+ email)) (VStr email)
          (linkStep SHEET_ACTIVE (has (hm act) H_ACT.LinkedIn && Js.nonempty lUrl)
            targetRow H_ACT.LinkedIn (VStr lUrl) (VStr "LinkedIn Profile")
          (linkStep SHEET_ACTIVE (has (hm act) H_ACT.Resume && Js.nonempty rUrl)
            targetRow H_ACT.Resume (VStr rUrl) (VStr "Resume")
            (act1, ev1)))) in
        (withAct w st.1, st.2)
  | _, _ => (w, [])
  end.

(** [enforceUniqueEmail_(sh, rows)]: the scan, then the clearing of the
    collected rows (in runs of adjacent rows in the source). *)
Definition uniqueEmailStep (rows : list nat)
    (acc : gmap string nat * list nat) (entry : nat * gmap string jsval) :
    gmap string nat * list nat :=
  let '(rowIdx, obj) := entry in
  let email := normEmail (fld obj H_ALL.Email) in
  if negb (Js.nonempty email) then acc
  else if negb (bool_decide (is_Some (acc.1 !! email)))
    then (<[email := rowIdx]> acc.1, acc.2)
  else if bool_decide (rowIdx ∈ rows) then (acc.1, acc.2 ++ [rowIdx])
  else acc.

Definition rowsToClear (sh : sheet) (rows : list nat) : list nat :=
  (foldl (uniqueEmailStep rows) (∅, []) (dataObjects sh)).2.

Definition enforceUniqueEmail_ (sh : sheet) (rows : list nat) : sheet :=
  match getHeaderInfo sh ANCHOR_HEADER_ALL with
  | None => sh
  | Some _ =>
      if negb (has (hm sh) H_ALL.Email) then sh
      else if (getLastRow sh <? dataStartRow sh)%nat then sh
      else
        foldl (λ s r, setRowValuesByHeaders s r {[ H_ALL.Email := VStr "" ]})
              sh (rowsToClear sh rows)
  end.

(** [applyHiredFlow_(jobId, hiredFullName, hiredEmail)]. *)
Definition hiredFlowRequisition (now : Z) (jobId hiredFullName : string)
    (req : sheet) : sheet :=
  match getHeaderInfo req ANCHOR_HEADER_REQ with
  | None => req
  | Some _ =>
      match (buildReqIndex req).1 !! jobId with
      | None => req
      | Some reqRow =>
          let reqObj := getRowObjectByHeaders req reqRow in
          let updates :=
            putIf (Js.nonempty hiredFullName
                   && negb (String.eqb (_normStr_ (fld reqObj H_REQ.HiredCandidateName))
                                       (_normStr_ (VStr hiredFullName))))
                  H_REQ.HiredCandidateName (VStr hiredFullName)
              (putIf (negb (String.eqb (_canonReqStatus_ (fld reqObj H_REQ.JobStatus))
                                       "Hired"))
                     H_REQ.JobStatus (VStr "Hired") ∅) in
          if isEmptyObj updates then req
          else applyReqStatusTransitionsForRows_ now [reqRow]
                 (setRowValuesByHeaders req reqRow updates)
      end
  end.

Definition rejectionUpdates (now : Z) : gmap string jsval :=
  <[H_ALL.Updated := VDate now]>
    (<[H_ALL.RejectedReason := VStr "Hired a Different Candidate"]>
      (<[H_ALL.Stage := VStr "Rejected"]> ∅)).

Definition hiredFlowRejectStep (now : Z) (jobId hiredEmail : string)
    (all : sheet) (entry : nat * gmap string jsval) : sheet :=
  let '(row, data) := entry in
  let candJobId := _normStr_ (fld data H_ALL.JobID) in
  let candEmail := normEmail (fld data H_ALL.Email) in
  if String.eqb candJobId jobId && negb (String.eqb candEmail hiredEmail) then
    let currentStage := _normStr_ (fld data H_ALL.Stage) in
    if negb (String.eqb currentStage "Hired")
       && negb (String.eqb currentStage "Rejected")
    then setRowValuesByHeaders all row (rejectionUpdates now)
    else all
  else all.

Definition hiredFlowRejectOthers (now : Z) (jobId hiredEmail : string)
    (all : sheet) : sheet :=
  match getHeaderInfo all ANCHOR_HEADER_ALL with
  | None => all
  | Some _ =>
      foldl (hiredFlowRejectStep now jobId hiredEmail) all
            (buildCandidateIndex now all).2
  end.

(** The flag is set on entry and cleared in the [finally]: a call that finds
    it set returns at once. *)
Definition applyHiredFlow_ (now : Z) (jobId hiredFullName hiredEmail : string)
    (w : world) : world :=
  if w_processingHiredFlow w then w
  else
    let req' := hiredFlowRequisition now jobId hiredFullName (w_req w) in
    let all' := hiredFlowRejectOthers now jobId hiredEmail (w_all w) in
    World req' all' (w_act w) (w_mute w) false.

(** [reconcileActiveMembership_ByJobIds_(jobIds)]. *)
Definition filterJob (jobIds : list string) (jid : string) : bool :=
  bool_decide (jobIds = []) || bool_decide (jid ∈ jobIds).

Definition reqStatusOf (req : sheet) (reqIdx : gmap string nat) (jid : string) : jsval :=
  match reqIdx !! jid with
  | Some reqRow => fld (getRowObjectByHeaders req reqRow) H_REQ.JobStatus
  | None => VStr ""
  end.

(** The test of the deletion pass on one entry of the Active index. *)
Definition mustDelete (jobIds : list string) (idxAll reqIdx : gmap string nat)
    (req : sheet) (key : string) : bool :=
  let jid := hd "" (Js.split "|" key) in
  filterJob jobIds jid &&
  (let inAll := bool_decide (is_Some (idxAll !! key)) in
   let allowed := inAll && _isOpenForActive_ (reqStatusOf req reqIdx jid) in
   negb inAll || negb allowed).

Definition toDelete (jobIds : list string) (idxAct idxAll reqIdx : gmap string nat)
    (req : sheet) : list nat :=
  merge_sort (flip (≤))
    (filter (λ p, mustDelete jobIds idxAll reqIdx req p.1) (map_to_list idxAct)).*2.

Definition reconcileRow (now : Z) (jobIds : list string) (reqIdx : gmap string nat)
    (st : world * gset string * list event) (entry : nat * gmap string jsval) :
    world * gset string * list event :=
  let '(w, processedKeys, evs) := st in
  let '(row, data) := entry in
  let jid := _normStr_ (fld data H_ALL.JobID) in
  let eml := normEmail (fld data H_ALL.Email) in
  if negb (Js.nonempty jid) || negb (Js.nonempty eml) || negb (filterJob jobIds jid)
  then st
  else
    let k := keyFor now (VStr jid) (VStr eml) in
    if bool_decide (k ∈ processedKeys) then st
    else
      let processedKeys := {[k]} ∪ processedKeys in
      match reqIdx !! jid with
      | None => (w, processedKeys, evs)
      | Some reqRow =>
          let rObj := getRowObjectByHeaders (w_req w) reqRow in
          let reqStatusCanon := _canonReqStatus_ (fld rObj H_REQ.JobStatus) in
          let reqTitle := fld rObj H_REQ.JobTitle in
          let wantAll : gmap string jsval :=
            <[H_ALL.JobStatus := VStr reqStatusCanon]>
              (<[H_ALL.JobTitle := reqTitle]> ∅) in
          let diffAll := _diffFields_ wantAll data [H_ALL.JobTitle; H_ALL.JobStatus] in
          let '(w1, data1, ev1) :=
            if isEmptyObj diffAll then (w, data, [])
            else
              let diffAll' := <[H_ALL.Updated := VDate now]> diffAll in
              (withAll w (setRowValuesByHeaders (w_all w) row diffAll'),
               diffAll' ∪ data,
               [EvSetValues SHEET_ALL row diffAll']) in
          let resumeUrl :=
            if has (hm (w_all w1)) H_ALL.Resume
            then extractUrl (w_all w1) row H_ALL.Resume else "" in
          let linkedinUrl :=
            if has (hm (w_all w1)) H_ALL.LinkedIn
            then extractUrl (w_all w1) row H_ALL.LinkedIn else "" in
          if _isOpenForActive_ (VStr reqStatusCanon) then
            if isRecentlyEdited w1 k then (w1, processedKeys, evs ++ ev1)
            else
              let '(w2, ev2) :=
                _upsertActiveRow_ now w1 data1 row resumeUrl linkedinUrl in
              (w2, processedKeys, evs ++ ev1 ++ ev2)
          else (w1, processedKeys, evs ++ ev1)
      end.

Definition reconcileActiveMembership_ByJobIds_ (now : Z) (jobIds : list string)
    (w : world) : world * list event :=
  match getHeaderInfo (w_all w) ANCHOR_HEADER_ALL,
        getHeaderInfo (w_act w) ANCHOR_HEADER_ACT,
        getHeaderInfo (w_req w) ANCHOR_HEADER_REQ with
  | Some all, Some act, Some req =>
      let idxAct := (buildCandidateIndex now act).1 in
      let '(idxAll, allRows) := buildCandidateIndex now all in
      let reqIdx := (buildReqIndex req).1 in
      let doomed := toDelete jobIds idxAct idxAll reqIdx req in
      let act1 := foldl deleteRow act doomed in
      let relevantRows :=
        if bool_decide (jobIds = []) then allRows
        else filter (λ r, _normStr_ (fld r.2 H_ALL.JobID) ∈ jobIds) allRows in
      let '(w', _, evs) :=
        foldl (reconcileRow now jobIds reqIdx)
              (withAct w act1, ∅, EvDeleteRow SHEET_ACTIVE <$> doomed)
              relevantRows in
      (w', evs)
  | _, _, _ => (w, [])
  end.

Definition reconcileActiveMembership_All_ (now : Z) (w : world) : world * list event :=
  reconcileActiveMembership_ByJobIds_ now [] w.

End CandidatesSync.

(** ** Business days ([Util.js]) *)

(** A [Date] is its time value, milliseconds since the epoch (UTC).  The
    script runs in one time zone ([TZ], which the manifest must match); its
    offset from UTC, in minutes east, is [tz] and is taken constant over the
    dates at hand (no daylight-saving change in between). *)

Definition US_HOLIDAYS : list string :=
  [ "2024-01-01"; "2024-01-15"; "2024-02-19"; "2024-05-27"; "2024-07-04";
    "2024-09-02"; "2024-10-14"; "2024-11-11"; "2024-11-28"; "2024-12-25";
    "2025-01-01"; "2025-01-20"; "2025-02-17"; "2025-05-26"; "2025-07-04";
    "2025-09-01"; "2025-10-13"; "2025-11-11"; "2025-11-27"; "2025-12-25";
    "2026-01-01"; "2026-01-19"; "2026-02-16"; "2026-05-25"; "2026-07-03";
    "2026-09-07"; "2026-10-12"; "2026-11-11"; "2026-11-26"; "2026-12-25" ].

Section Dates.
Local Open Scope Z_scope.
Variable tz : Z.

Definition msPerDay : Z := 1000 * 60 * 60 * 24.

(** Days since the epoch of a civil date, and back (proleptic Gregorian). *)
Definition days_from_civil (y m d : Z) : Z :=
  let y' := if m <=? 2 then y - 1 else y in
  let era := y' / 400 in
  let yoe := y' - era * 400 in
  let mp := (m + 9) mod 12 in
  let doy := (153 * mp + 2) / 5 + d - 1 in
  let doe := yoe * 365 + yoe / 4 - yoe / 100 + doy in
  era * 146097 + doe - 719468.

Definition civil_from_days (z : Z) : Z * Z * Z :=
  let z' := z + 719468 in
  let era := z' / 146097 in
  let doe := z' - era * 146097 in
  let yoe := (doe - doe / 1460 + doe / 36524 - doe / 146096) / 365 in
  let doy := doe - (365 * yoe + yoe / 4 - yoe / 100) in
  let mp := (5 * doy + 2) / 153 in
  let d := doy - (153 * mp + 2) / 5 + 1 in
  let m := if mp <? 10 then mp + 3 else mp - 9 in
  let y := yoe + era * 400 in
  (if m <=? 2 then y + 1 else y, m, d).

(** [new Date('yyyy-MM-dd')]: a date-only text is read as UTC midnight. *)
Definition dateOfIso (iso : string) : option Z :=
  match Js.split "-" iso with
  | [y; m; d] =>
      y' ← digitRun y; m' ← digitRun m; d' ← digitRun d;
      Some (days_from_civil y' m' d' * msPerDay)
  | _ => None
  end.

Definition pad (width : nat) (n : Z) : string :=
  let t := decimal n in
  String.string_of_list_ascii (replicate (width - String.length t) "0"%char) +:+ t.

(** The local calendar day of a time value. *)
Definition localDay (t : Z) : Z := (t + tz * 60000) / msPerDay.

(** [d.setHours(0, 0, 0, 0)]. *)
Definition setHours0 (t : Z) : Z := localDay t * msPerDay - tz * 60000.

(** [d.setDate(d.getDate() + k)]. *)
Definition addDays (t k : Z) : Z := t + k * msPerDay.

(** [d.getDay()]: 0 is Sunday; the epoch was a Thursday. *)
Definition getDay (t : Z) : Z := (localDay t + 4) mod 7.

(** [Utilities.formatDate(d, TZ, 'yyyy-MM-dd')]. *)
Definition formatDate (t : Z) : string :=
  let '(y, m, d) := civil_from_days (localDay t) in
  pad 4 y +:+ "-" +:+ pad 2 m +:+ "-" +:+ pad 2 d.

Definition isWeekday (t : Z) : bool :=
  let k := getDay t in negb (k =? 0) && negb (k =? 6).

(** The loop [for (d = s; d < e; d.setDate(d.getDate() + 1))] of the short
    branch, run for at most [fuel] days. *)
Fixpoint dayByDayLoop (fuel : nat) (d e n : Z) : Z :=
  match fuel with
  | O => n
  | S fuel' =>
      if d <? e then
        dayByDayLoop fuel' (addDays d 1) e
          (if isWeekday d && negb (bool_decide (formatDate d ∈ US_HOLIDAYS))
           then n + 1 else n)
      else n
  end.

(** The day-by-day count between two local midnights. *)
Definition dayByDay (s e : Z) : Z :=
  dayByDayLoop (Z.to_nat ((e - s) / msPerDay + 1)) s e 0.

(** The branch for ranges longer than fourteen days. *)
Definition fullWeekCount (s e : Z) : Z :=
  let totalDays := (e - s) / msPerDay in
  let fullWeeks := totalDays / 7 in
  let remainingDays := totalDays mod 7 in
  let businessDays := fullWeeks * 5 in
  let remainingStart := addDays s (fullWeeks * 7) in
  let businessDays :=
    foldl (λ n (i : nat),
             if isWeekday (addDays remainingStart (Z.of_nat i)) then n + 1 else n)
          businessDays (seq 0 (Z.to_nat remainingDays)) in
  foldl (λ n holiday,
           match dateOfIso holiday with
           | Some hDate =>
               if (s <=? hDate) && (hDate <? e) && isWeekday hDate then n - 1 else n
           | None => n
           end)
        businessDays US_HOLIDAYS.

(** [businessDaysBetween(a, b)] on two [Date]s. *)
Definition businessDaysBetween (a b : Z) : Z :=
  let s := setHours0 a in
  let e := setHours0 b in
  if e <=? s then 0
  else
    let totalDays := (e - s) / msPerDay in
    if 14 <? totalDays then fullWeekCount s e else dayByDay s e.

End Dates.

(** America/New_York on standard time. *)
Definition TZ_minutes : Z := (-300)%Z.

(** ** The debounce queue ([DebounceQueue.gs] in [Settings.js]) *)

(** The text stored under [PROP_QUEUE_JOBIDS]: the sentinel, the JSON of an
    array of strings, or a text that does not parse to an array. *)
Inductive queueText :=
  | QAll
  | QJson (ids : list string)
  | QCorrupt.

Record trigger := Trigger {
  trg_id : nat;             (* getUniqueId() *)
  trg_handler : string;     (* getHandlerFunction() *)
  trg_stale : bool          (* the age test of the orphan clean-up holds *)
}.

Record scheduler := Scheduler {
  prop_jobIds : option queueText;    (* PROP_QUEUE_JOBIDS *)
  prop_scheduled : option nat;       (* PROP_QUEUE_SCHEDULED *)
  triggers : list trigger;           (* ScriptApp.getProjectTriggers() *)
  nextId : nat;                      (* the id the next trigger gets *)
  scriptLockFree : bool;             (* tryLock of the script lock succeeds *)
  mayCreate : bool                   (* the script may create triggers *)
}.

Definition Debounced_Reconcile_name : string := "Debounced_Reconcile_".

(** [new Set([...xs])] as an array: the first occurrence of each id stays. *)
Definition dedupFirst (xs : list string) : list string :=
  foldl (λ acc x, if bool_decide (x ∈ acc) then acc else acc ++ [x]) [] xs.

(** [_cleanupOrphanedTriggers_('Debounced_Reconcile_')]. *)
Definition _cleanupOrphanedTriggers_ (st : scheduler) : scheduler :=
  let tracked (i : nat) := bool_decide (prop_scheduled st = Some i) in
  Scheduler (prop_jobIds st) (prop_scheduled st)
    (filter (λ t, ¬ (trg_handler t = Debounced_Reconcile_name
                     ∧ tracked (trg_id t) = false ∧ trg_stale t = true))
            (triggers st))
    (nextId st) (scriptLockFree st) (mayCreate st).

Definition _scheduleReconcileTrigger (st0 : scheduler) : scheduler :=
  let st := _cleanupOrphanedTriggers_ st0 in
  let create (st : scheduler) : scheduler :=
    if mayCreate st then
      Scheduler (prop_jobIds st) (Some (nextId st))
        (triggers st ++ [Trigger (nextId st) Debounced_Reconcile_name false])
        (S (nextId st)) (scriptLockFree st) (mayCreate st)
    else st in
  match prop_scheduled st with
  | Some existingTriggerId =>
      if bool_decide (Exists (λ t, trg_id t = existingTriggerId) (triggers st))
      then st
      else create (Scheduler (prop_jobIds st) None (triggers st) (nextId st)
                             (scriptLockFree st) (mayCreate st))
  | None => create st
  end.

Definition enqueueAndSchedule_Reconcile (jobIds : list string)
    (st : scheduler) : scheduler :=
  if negb (scriptLockFree st) then st
  else
    match prop_jobIds st with
    | Some QAll => _scheduleReconcileTrigger st
    | existing =>
        let existingIds :=
          match existing with
          | Some (QJson ids) => ids
          | _ => []
          end in
        let newIdSet := dedupFirst (existingIds ++ jobIds) in
        _scheduleReconcileTrigger
          (Scheduler (Some (QJson newIdSet)) (prop_scheduled st) (triggers st)
                     (nextId st) (scriptLockFree st) (mayCreate st))
    end.

(** What one run of the worker reconciles. *)
Inductive workerRun :=
  | RunNothing
  | RunAll
  | RunIds (jobIds : list string).

Definition _deleteReconcileTrigger (st : scheduler) : scheduler :=
  match prop_scheduled st with
  | None => st
  | Some triggerId =>
      Scheduler (prop_jobIds st) None
        (match list_find (λ t, trg_id t = triggerId) (triggers st) with
         | Some (i, _) => delete i (triggers st)
         | None => triggers st
         end)
        (nextId st) (scriptLockFree st) (mayCreate st)
  end.

(** The document lock and the recursion-guard property that [withLock]
    reads. *)
Record document := Document {
  documentLockFree : bool;           (* tryLock of the document lock succeeds *)
  prop_recGuard : bool               (* the REC_GUARD property is set *)
}.

(** [withLock(fn)].  With the lock busy nothing runs and nothing changes.
    With the lock held, a guard found set blocks [fn]; the [finally] deletes
    the guard whether [fn] ran or not.  The result is [None] when [fn] did
    not run. *)
Definition withLock {St R : Type} (fn : St → St * R) (d : document) (st : St)
    : document * St * option R :=
  if negb (documentLockFree d) then (d, st, None)
  else
    let d' := Document (documentLockFree d) false in
    if prop_recGuard d then (d', st, None)
    else let '(st', r) := fn st in (d', st', Some r).

(** The function [Debounced_Reconcile_] hands to [withLock]: what it runs,
    and the clean-up of its [finally]. *)
Definition Debounced_Reconcile_fn (st : scheduler) : scheduler * workerRun :=
  let run :=
    match prop_jobIds st with
    | None => RunNothing
    | Some QAll => RunAll
    | Some QCorrupt => RunNothing
    | Some (QJson []) => RunNothing
    | Some (QJson jobIds) => RunIds jobIds
    end in
  (_deleteReconcileTrigger
     (Scheduler None None (triggers st) (nextId st) (scriptLockFree st) (mayCreate st)),
   run).

Definition Debounced_Reconcile_ (d : document) (st : scheduler)
    : document * scheduler * option workerRun :=
  withLock Debounced_Reconcile_fn d st.

(** ** Job title and status of the candidates ([CandidatesSync.gs]) *)

Section Autopopulate.
Context `{DateRender} `{UpperFirst}.

(** [v || '']. *)
Definition orEmpty (v : jsval) : jsval := if truthy v then v else VStr "".

(** The object [want] built from the row of the requisition. *)
Definition wantFromReq (req : sheet) (reqRow : nat) : gmap string jsval :=
  let rObj := getRowObjectByHeaders req reqRow in
  {[ H_ALL.JobTitle := orEmpty (fld rObj H_REQ.JobTitle);
     H_ALL.JobStatus := VStr (_canonReqStatus_ (orEmpty (fld rObj H_REQ.JobStatus))) ]}.

(** The body of both loops, for a row and the object read from it. *)
Definition autopopulateStep (now : Z) (req : sheet) (reqIdx : gmap string nat)
    (all : sheet) (row : nat) (cur : gmap string jsval) : sheet :=
  let jobId := _normStr_ (fld cur H_ALL.JobID) in
  if negb (Js.nonempty jobId) then all
  else
    match reqIdx !! jobId with
    | None => all
    | Some reqRow =>
        let diff := _diffFields_ (wantFromReq req reqRow) cur
                                 [H_ALL.JobTitle; H_ALL.JobStatus] in
        if isEmptyObj diff then all
        else setRowValuesByHeaders all row (<[H_ALL.Updated := VDate now]> diff)
    end.

(** [autopopulateAllFromJobId_(rows)]; [now] is the reading of [nowDetroit()]. *)
Definition autopopulateAllFromJobId_ (now : Z) (rows : list nat) (w : world) : world :=
  match getHeaderInfo (w_all w) ANCHOR_HEADER_ALL,
        getHeaderInfo (w_req w) ANCHOR_HEADER_REQ with
  | Some _, Some _ =>
      let reqIdx := (buildReqIndex (w_req w)).1 in
      withAll w
        (foldl (λ all row,
                  if (row <? dataStartRow all)%nat then all
                  else autopopulateStep now (w_req w) reqIdx all row
                         (getRowObjectByHeaders all row))
               (w_all w) rows)
  | _, _ => w
  end.

(** [Sweep_Autopopulate_All_From_Reqs_()]: the rows and their objects are
    those read by [buildCandidateIndex] before the loop. *)
Definition Sweep_Autopopulate_All_From_Reqs_ (now : Z) (w : world) : world :=
  match getHeaderInfo (w_all w) ANCHOR_HEADER_ALL,
        getHeaderInfo (w_req w) ANCHOR_HEADER_REQ with
  | Some _, Some _ =>
      let allRows := (buildCandidateIndex now (w_all w)).2 in
      let reqIdx := (buildReqIndex (w_req w)).1 in
      withAll w
        (foldl (λ all e, autopopulateStep now (w_req w) reqIdx all e.1 e.2)
               (w_all w) allRows)
  | _, _ => w
  end.

End Autopopulate.

(** ** Job ids ([Requisitions.js], with the sequencer of [StateManager.js]) *)

Section JobIds.
Context `{DateRender} `{UpperFirst}.

(** The sequencer of [StateManager]: the number stored for a year under
    [PROP_JOBSEQ_PREFIX + year], if any. *)
Definition getJobIdSequence (st : gmap Z Z) (year : Z) : Z := default 0%Z (st !! year).

Definition setJobIdSequence (st : gmap Z Z) (year value : Z) : gmap Z Z :=
  <[year := value]> st.

Definition isJobIdSequenceInitialized (st : gmap Z Z) (year : Z) : bool :=
  bool_decide (is_Some (st !! year)).

(** [v.match(/^(\d{4})-(\d{4})$/)], the two groups read as numbers. *)
Definition matchJobId (v : string) : option (Z * Z) :=
  match v with
  | String a (String b (String c (String d (String "-"
      (String e (String f (String g (String h "")))))))) =>
      let y := String a (String b (String c (String d ""))) in
      let n := String e (String f (String g (String h ""))) in
      y' ← digitsValue 0 y; n' ← digitsValue 0 n; Some (y', n')
  | _ => None
  end.

(** [_initJobSeqIfNeeded_(sh)] in the year [yyyy]. *)
Definition _initJobSeqIfNeeded_ (yyyy : Z) (sh : sheet) (st : gmap Z Z) : gmap Z Z :=
  if isJobIdSequenceInitialized st yyyy then st
  else
    match getHeaderInfo sh ANCHOR_HEADER_REQ with
    | None => st
    | Some _ =>
        let maxSeq :=
          if has (hm sh) H_REQ.JobID then
            foldl (λ maxSeq (e : nat * gmap string jsval),
                     let v := Js.trim (String_ (orEmpty (fld e.2 H_REQ.JobID))) in
                     match matchJobId v with
                     | Some (y, n) => if (y =? yyyy)%Z then Z.max maxSeq n else maxSeq
                     | None => maxSeq
                     end)
                  0%Z (dataObjects sh)
          else 0%Z in
        setJobIdSequence st yyyy maxSeq
    end.

(** [`${yyyy}-${String(last).padStart(4,'0')}`]. *)
Definition jobIdText (yyyy last : Z) : string :=
  decimal yyyy +:+ "-" +:+ pad 4 last.

(** [_allocateNextJobIds_(count)] in the year [yyyy]. *)
Definition _allocateNextJobIds_ (yyyy : Z) (count : nat) (st : gmap Z Z) :
    list string * gmap Z Z :=
  let res :=
    foldl (λ (acc : Z * list string) (_ : nat),
             let last := (acc.1 + 1)%Z in (last, acc.2 ++ [jobIdText yyyy last]))
          (getJobIdSequence st yyyy, []) (seq 0 count) in
  (res.2, setJobIdSequence st yyyy res.1).

(** [ensureJobIds_()] in the year [yyyy]; [now] is the reading of
    [nowDetroit()].  The rows and their values are read once, before the
    loops. *)
Definition ensureJobIds_ (now yyyy : Z) (sh : sheet) (st : gmap Z Z) :
    sheet * gmap Z Z :=
  match getHeaderInfo sh ANCHOR_HEADER_REQ with
  | None => (sh, st)
  | Some _ =>
      if (getLastRow sh <? dataStartRow sh)%nat then (sh, st)
      else if negb (has (hm sh) H_REQ.JobID && has (hm sh) H_REQ.JobTitle
                    && has (hm sh) H_REQ.JobStatus) then (sh, st)
      else
        let st1 := _initJobSeqIfNeeded_ yyyy sh st in
        let values := dataObjects sh in
        let text (v : jsval) := Js.trim (String_ (orEmpty v)) in
        let need :=
          foldl (λ (need : nat) (e : nat * gmap string jsval),
                   let jobId := text (fld e.2 H_REQ.JobID) in
                   let title := text (fld e.2 H_REQ.JobTitle) in
                   let status := text (fld e.2 H_REQ.JobStatus) in
                   if (Js.nonempty title || Js.nonempty status)
                      && negb (Js.nonempty jobId)
                   then S need else need)
                0%nat values in
        let alloc :=
          if (0 <? need)%nat then _allocateNextJobIds_ yyyy need st1 else ([], st1) in
        let newIds := alloc.1 in
        let res :=
          foldl (λ (acc : sheet * nat) (e : nat * gmap string jsval),
                   let rowObj := e.2 in
                   let title := _normStr_ (fld rowObj H_REQ.JobTitle) in
                   let status := _normStr_ (fld rowObj H_REQ.JobStatus) in
                   if (Js.nonempty title || Js.nonempty status)
                      && negb (Js.nonempty (_normStr_ (fld rowObj H_REQ.JobID)))
                   then
                     match newIds !! acc.2 with
                     | Some id =>
                         let updates :=
                           putIf (has (hm sh) H_REQ.Created
                                  && negb (truthy (fld rowObj H_REQ.Created)))
                                 H_REQ.Created (VDate now)
                                 {[ H_REQ.JobID := VStr id ]} in
                         (setRowValuesByHeaders acc.1 e.1 updates, S acc.2)
                     | None => acc
                     end
                   else acc)
                (sh, 0%nat) values in
        (res.1, alloc.2)
  end.

End JobIds.

(** ** Time stamps of the candidates ([stampCreatedAndUpdated_All_]) *)

Section Stamps.
Context `{DateRender} `{UpperFirst}.

(** [isBlank(v)]. *)
Definition isBlank (v : jsval) : bool :=
  match v with
  | VStr "" => true
  | _ => false
  end.

(** [Object.keys(obj).some(h => !!obj[h] && String(obj[h]).trim() !== '')]. *)
Definition meaningful (obj : gmap string jsval) : bool :=
  negb (bool_decide
          (map_Forall (λ _ v, truthy v && Js.nonempty (Js.trim (String_ v)) = false) obj)).

(** The body of the loop for one row; [now] is the time read at the start
    of the function and [flowNow] the time the hired flow reads when it is
    run for the row. *)
Definition stampRow (now flowNow : Z) (w : world) (row : nat) : world :=
  let sh := w_all w in
  if (row <? dataStartRow sh)%nat then w
  else
    let obj := getRowObjectByHeaders sh row in
    let updates :=
      putIf (meaningful obj && has (hm sh) H_ALL.Updated) H_ALL.Updated (VDate now)
        (putIf (meaningful obj && has (hm sh) H_ALL.Created
                && isBlank (fld obj H_ALL.Created))
               H_ALL.Created (VDate now) ∅) in
    let stage := _normStr_ (fld obj H_ALL.Stage) in
    let status := _normStr_ (fld obj H_ALL.JobStatus) in
    let isHired := String.eqb stage "Hired" || String.eqb status "Hired" in
    let res :=
      if isHired then
        let updates :=
          putIf (has (hm sh) H_ALL.HiredDate && isBlank (fld obj H_ALL.HiredDate))
                H_ALL.HiredDate (VDate now) updates in
        let jobId := _normStr_ (fld obj H_ALL.JobID) in
        let fullName := _normStr_ (fld obj H_ALL.FullName) in
        let email := normEmail (fld obj H_ALL.Email) in
        (if Js.nonempty jobId && Js.nonempty fullName && Js.nonempty email
         then applyHiredFlow_ flowNow jobId fullName email w else w,
         updates)
      else
        (w, putIf (has (hm sh) H_ALL.HiredDate && negb (isBlank (fld obj H_ALL.HiredDate)))
                  H_ALL.HiredDate (VStr "") updates) in
    if isEmptyObj res.2 then res.1
    else withAll res.1 (setRowValuesByHeaders (w_all res.1) row res.2).

(** [stampCreatedAndUpdated_All_(sh, rows)] on the candidate sheet;
    [flowNow row] is the time of the hired flow run for [row]. *)
Definition stampCreatedAndUpdated_All_ (now : Z) (flowNow : nat → Z)
    (rows : list nat) (w : world) : world :=
  match getHeaderInfo (w_all w) ANCHOR_HEADER_ALL with
  | None => w
  | Some _ => foldl (λ w row, stampRow now (flowNow row) w row) w rows
  end.

End Stamps.

(** A rendering of dates to run the model on concrete sheets. *)
#[export] Instance sampleRender : DateRender := λ t, "Date " +:+ decimal t.

(** A capital for the texts that begin outside ASCII, to run the model on
    concrete sheets: the text itself. *)
#[export, refine] Instance sampleUpper : UpperFirst := {| upperFirst := id |}.
Proof.
  intros c r c' r' A [= <- <-].
  split; [|intros E]; destruct c as [[] [] [] [] [] [] [] []];
    vm_compute in *; congruence.
Defined.

(** ** Notions of the statements, and sample sheets *)

Section Notions.
Context `{DateRender} `{UpperFirst}.

Definition c3_sheet : sheet :=
  Sheet 1
    (list_to_set [H_REQ.JobID; H_REQ.JobTitle; H_REQ.JobStatus; H_REQ.Opened;
                  H_REQ.OnHoldDate; H_REQ.ClosedDate; H_REQ.PositionHiredDate;
                  H_REQ.HiredCandidateName])
    [ {[ H_REQ.JobID := CVal (VStr "2025-0001");
         H_REQ.JobTitle := CVal (VStr "Engineer") ]} ].

(** Midnight, New York time, of Monday 1 January 2024 and of Monday 22
    January 2024. *)
Definition jan01 : Z := 1704085200000.
Definition jan22 : Z := 1705899600000.

(** The normalised e-mail address of a row, and global uniqueness: no two
    rows of the sheet carry the same non-empty normalised address. *)
Definition rowEmail (sh : sheet) (cells : gmap string cell) : string :=
  normEmail (fld (rowObject sh cells) H_ALL.Email).

Definition emailList (sh : sheet) : list string := rowEmail sh <$> body sh.

Definition emailsUnique (sh : sheet) : Prop :=
  ∀ i j e,
    emailList sh !! i = Some e → emailList sh !! j = Some e → e ≠ "" → i = j.

Definition objEmail (obj : gmap string jsval) : string :=
  normEmail (fld obj H_ALL.Email).

(** The clearing loop of [enforceUniqueEmail_]. *)
Definition clearEmails (sh : sheet) (cl : list nat) : sheet :=
  foldl (λ s r, setRowValuesByHeaders s r {[ H_ALL.Email := VStr "" ]}) sh cl.

Definition hmAll : gset string :=
  list_to_set [ H_ALL.FullName; H_ALL.Resume; H_ALL.LinkedIn; H_ALL.Phone;
                H_ALL.Email; H_ALL.JobID; H_ALL.JobStatus; H_ALL.JobTitle;
                H_ALL.Stage; H_ALL.RejectedReason; H_ALL.Created; H_ALL.Updated;
                H_ALL.HiredDate ].

Definition candidate (name jobId email stage : string) : gmap string cell :=
  {[ H_ALL.FullName := CVal (VStr name); H_ALL.JobID := CVal (VStr jobId);
     H_ALL.Email := CVal (VStr email); H_ALL.Stage := CVal (VStr stage) ]}.

(** Two rows with one address. *)
Definition c5_sheet : sheet :=
  Sheet 1 hmAll [ candidate "Ann" "2025-0001" "a@x.com" "Applied";
                  candidate "Abe" "2025-0002" "a@x.com" "Applied" ].

(** Three rows, the last repeats the first and is the edited row. *)
Definition c5_sheet_edited_last : sheet :=
  Sheet 1 hmAll [ candidate "Ann" "2025-0001" "a@x.com" "Applied";
                  candidate "Bob" "2025-0001" "b@x.com" "Applied";
                  candidate "Abe" "2025-0002" "A@X.com" "Applied" ].

(** A character a cleaned gmail local part can hold: lower case, and none of
    the at sign, the dot and the plus sign. *)
Definition plainChar (c : ascii) : bool :=
  negb (Ascii.eqb c "@") && negb (Ascii.eqb c ".") && negb (Ascii.eqb c "+")
  && Ascii.eqb (Js.lower_char c) c.

Fixpoint allChars (P : ascii → bool) (s : string) : bool :=
  match s with
  | "" => true
  | String c s' => P c && allChars P s'
  end.

(** The job id a row object is indexed by, whether the candidate index takes
    the row at all, and the key it files the row under. *)
Definition objJobId (obj : gmap string jsval) : string :=
  Js.trim (String_ (fld obj H_ALL.JobID)).

Definition hasIdentity (obj : gmap string jsval) : bool :=
  Js.nonempty (objJobId obj) || Js.nonempty (objEmail obj).

Definition objKey (obj : gmap string jsval) : string :=
  objJobId obj +:+ "|" +:+ normEmail (VStr (objEmail obj)).

(** An index built by a loop of [Map.set] calls: the last entry wins. *)
Definition indexFold (kf : gmap string jsval → option string)
    (m : gmap string nat) (entries : list (nat * gmap string jsval)) : gmap string nat :=
  foldl (λ m e, match kf e.2 with Some k => <[k := e.1]> m | None => m end) m entries.

Definition candKey (obj : gmap string jsval) : option string :=
  if hasIdentity obj then Some (objKey obj) else None.

Definition reqKey (obj : gmap string jsval) : option string :=
  let jid := Js.trim (String_ (fld obj H_REQ.JobID)) in
  if Js.nonempty jid then Some jid else None.

(** The test of the rejection loop on one candidate. *)
Definition isRival (jobId hiredEmail : string) (data : gmap string jsval) : bool :=
  String.eqb (_normStr_ (fld data H_ALL.JobID)) jobId
  && negb (String.eqb (normEmail (fld data H_ALL.Email)) hiredEmail)
  && negb (String.eqb (_normStr_ (fld data H_ALL.Stage)) "Hired")
  && negb (String.eqb (_normStr_ (fld data H_ALL.Stage)) "Rejected").

Definition hmReq : gset string :=
  list_to_set [H_REQ.JobID; H_REQ.JobTitle; H_REQ.JobStatus; H_REQ.Opened;
               H_REQ.OnHoldDate; H_REQ.ClosedDate; H_REQ.PositionHiredDate;
               H_REQ.HiredCandidateName].

Definition requisition (jobId title status : string) : gmap string cell :=
  {[ H_REQ.JobID := CVal (VStr jobId); H_REQ.JobTitle := CVal (VStr title);
     H_REQ.JobStatus := CVal (VStr status) ]}.

Definition hmAct : gset string :=
  list_to_set [ H_ACT.FullName; H_ACT.JobID; H_ACT.JobStatus; H_ACT.JobTitle;
                H_ACT.Stage; H_ACT.RejectedReason; H_ACT.Resume; H_ACT.LinkedIn;
                H_ACT.Phone; H_ACT.Email ].

(** One open requisition with two candidates: Ann is hired, Bob is in
    interviews. *)
Definition c4_world : world :=
  World (Sheet 1 hmReq [ requisition "2025-0001" "Engineer" "Open" ])
        (Sheet 1 hmAll [ candidate "Ann Lee" "2025-0001" "a@x.com" "Hired";
                         candidate "Bob Ray" "2025-0001" "b@x.com" "Interviewing" ])
        (Sheet 1 hmAct []) ∅ false.

(** The same sheets with the status of the requisition typed hired, in lower
    case. *)
Definition c4_world_respelled : world :=
  World (Sheet 1 hmReq [ requisition "2025-0001" "Engineer" "hired" ])
        (Sheet 1 hmAll [ candidate "Ann Lee" "2025-0001" "a@x.com" "Hired";
                         candidate "Bob Ray" "2025-0001" "b@x.com" "Interviewing" ])
        (Sheet 1 hmAct []) ∅ false.

(** The field writes of a trace on one sheet: the row and, for each header
    written, the text of the value. *)
Definition fieldWrites (s : sheetName) (evs : list event) :
    list (nat * list (string * string)) :=
  omap (λ e, match e with
             | EvSetValues s' row up =>
                 if bool_decide (s' = s)
                 then Some (row, (λ p, (p.1, String_ p.2)) <$> map_to_list up)
                 else None
             | _ => None
             end) evs.

(** One open requisition and one candidate whose address is typed with a
    capital letter; Active is empty. *)
Definition c2_world : world :=
  World (Sheet 1 hmReq [ requisition "2025-0001" "Engineer" "Open" ])
        (Sheet 1 hmAll [ candidate "Ann Lee" "2025-0001" "Ann@x.com" "Applied" ])
        (Sheet 1 hmAct []) ∅ false.

(** The text is empty or begins with an ASCII character. *)
Definition beginsAscii (s : string) : bool :=
  match s with
  | "" => true
  | String c _ => Js.is_ascii c
  end.

(** The identity of a row: the trimmed job id and the e-mail address as the
    keys carry it. *)
Definition rowIdent (sh : sheet) (c : gmap string cell) : string * string :=
  let o := rowObject sh c in (objJobId o, normEmail (VStr (objEmail o))).

Definition idents (sh : sheet) : list (string * string) := rowIdent sh <$> body sh.








(** What every reconciliation leaves as it was. *)
Definition keepsFrame (w0 w : world) : Prop :=
  w_req w = w_req w0 ∧ w_mute w = w_mute w0
  ∧ w_processingHiredFlow w = w_processingHiredFlow w0
  ∧ hm (w_all w) = hm (w_all w0) ∧ headerRow (w_all w) = headerRow (w_all w0)
  ∧ length (body (w_all w)) = length (body (w_all w0))
  ∧ idents (w_all w) = idents (w_all w0)
  ∧ hm (w_act w) = hm (w_act w0) ∧ headerRow (w_act w) = headerRow (w_act w0).

(** The scheduled id names a project trigger. *)
Definition trackedTrigger (st : scheduler) : bool :=
  match prop_scheduled st with
  | Some i => bool_decide (Exists (λ t, trg_id t = i) (triggers st))
  | None => false
  end.

(** A candidate row agrees with the requisition its job id is indexed at:
    [_valsEqual_] finds its title the requisition's and its status the
    canonical status of the requisition. *)
Definition mirrorsRequisition (req : sheet) (cur : gmap string jsval) : Prop :=
  ∀ reqRow,
    (buildReqIndex req).1 !! _normStr_ (fld cur H_ALL.JobID) = Some reqRow →
    let rObj := getRowObjectByHeaders req reqRow in
    _valsEqual_ (orEmpty (fld rObj H_REQ.JobTitle)) (fld cur H_ALL.JobTitle) = true
    ∧ _valsEqual_ (VStr (_canonReqStatus_ (orEmpty (fld rObj H_REQ.JobStatus))))
                  (fld cur H_ALL.JobStatus) = true.

(** A test on every number of a range. *)
Fixpoint allBelow (P : Z → bool) (fuel : nat) (i : Z) : bool :=
  match fuel with
  | O => true
  | S fuel' => P i && allBelow P fuel' (i + 1)%Z
  end.

(** Four digits that read as the number: the sequence part of an id up to
    9999, and a year of four digits. *)
Definition fourDigits (t : Z → string) (n : Z) : bool :=
  match t n with
  | String e (String f (String g (String h ""))) =>
      bool_decide (digitsValue 0 (t n) = Some n)
  | _ => false
  end.

(** A requisition row that [ensureJobIds_] gives an id: it has a title or a
    status, and no job id. *)
Definition needsJobId (obj : gmap string jsval) : bool :=
  (Js.nonempty (_normStr_ (fld obj H_REQ.JobTitle))
   || Js.nonempty (_normStr_ (fld obj H_REQ.JobStatus)))
  && negb (Js.nonempty (_normStr_ (fld obj H_REQ.JobID))).

(** Requisitions of two years, two of them without a job id, and an empty
    row. *)
Definition jobs_sheet : sheet :=
  Sheet 1 hmReq [ requisition "2025-0007" "Engineer" "Open";
                  requisition "" "Designer" "Open";
                  requisition "" "" "";
                  requisition "2024-0100" "Analyst" "Closed";
                  requisition "" "" "On Hold" ].

(** One open requisition with two candidates, one of them in Active. *)
Definition local_world : world :=
  World (Sheet 1 hmReq [ requisition "2025-0001" "Engineer" "Open" ])
        (Sheet 1 hmAll [ candidate "Ann Lee" "2025-0001" "ann@x.com" "Applied";
                         candidate "Bob Ray" "2025-0001" "bob@x.com" "Applied" ])
        (Sheet 1 hmAct [ candidate "Ann Lee" "2025-0001" "ann@x.com" "Applied" ])
        ∅ false.

(** A requisition whose status is [status], filled by Ann, and Bob, a
    candidate of the same job who is still Applied and whose mirrored job
    status reads Hired, as [autopopulateAllFromJobId_] writes it. *)
Definition stamp_world_of (status : string) : world :=
  World (Sheet 1 hmReq
           [ <[H_REQ.HiredCandidateName := CVal (VStr "Ann Lee")]>
               (requisition "2025-0001" "Engineer" status) ])
        (Sheet 1 hmAll
           [ <[H_ALL.JobStatus := CVal (VStr "Hired")]>
               (candidate "Ann Lee" "2025-0001" "ann@x.com" "Hired");
             <[H_ALL.JobStatus := CVal (VStr "Hired")]>
               (candidate "Bob Ray" "2025-0001" "bob@x.com" "Applied") ])
        (Sheet 1 hmAct []) ∅ false.

Definition stamp_world : world := stamp_world_of "Hired".
Definition stamp_world_respelled : world := stamp_world_of "hired".

End Notions.

(** * Properties *)

(** ** Strings *)

Section String_facts.

Ltac by_cases_on_char c := destruct c as [[] [] [] [] [] [] [] []]; try reflexivity.

Lemma is_ws_lower c : Js.is_ws (Js.lower_char c) = Js.is_ws c.
Proof. by_cases_on_char c. Qed.

Lemma lower_char_idem c : Js.lower_char (Js.lower_char c) = Js.lower_char c.
Proof. by_cases_on_char c. Qed.

Lemma lower_upper_char c : Js.lower_char (Js.upper_char (Js.lower_char c)) = Js.lower_char c.
Proof. by_cases_on_char c. Qed.

Lemma is_ws_upper_lower c : Js.is_ws (Js.upper_char (Js.lower_char c)) = Js.is_ws c.
Proof. by_cases_on_char c. Qed.

Lemma toLowerCase_idem s : Js.toLowerCase (Js.toLowerCase s) = Js.toLowerCase s.
Proof. induction s as [|c s IH]; simpl; [done|]. by rewrite lower_char_idem, IH. Qed.

Lemma toLowerCase_empty s : Js.toLowerCase s = "" → s = "".
Proof. by destruct s. Qed.

Lemma trimStart_lower s :
  Js.trimStart (Js.toLowerCase s) = Js.toLowerCase (Js.trimStart s).
Proof.
  induction s as [|c s IH]; simpl; [done|].
  rewrite is_ws_lower. by destruct (Js.is_ws c).
Qed.

Lemma trimEnd_lower s :
  Js.trimEnd (Js.toLowerCase s) = Js.toLowerCase (Js.trimEnd s).
Proof.
  induction s as [|c s IH]; simpl; [done|].
  rewrite IH, is_ws_lower.
  destruct (Js.trimEnd s) eqn:E; simpl; [by destruct (Js.is_ws c)|done].
Qed.

Lemma trim_lower s : Js.trim (Js.toLowerCase s) = Js.toLowerCase (Js.trim s).
Proof. unfold Js.trim. by rewrite trimStart_lower, trimEnd_lower. Qed.

Lemma trimStart_idem s : Js.trimStart (Js.trimStart s) = Js.trimStart s.
Proof.
  induction s as [|c s IH]; simpl; [done|].
  destruct (Js.is_ws c) eqn:E; [done|]. simpl. by rewrite E.
Qed.

Lemma trimEnd_idem s : Js.trimEnd (Js.trimEnd s) = Js.trimEnd s.
Proof.
  induction s as [|c s IH]; simpl; [done|].
  destruct (Js.trimEnd s) as [|d t] eqn:E.
  - destruct (Js.is_ws c) eqn:W; simpl; [done|]. by rewrite W.
  - simpl in *. by rewrite IH.
Qed.

(** A string that does not start with white space keeps its head under [trimEnd]. *)
Lemma trimEnd_head c s :
  Js.is_ws c = false → ∃ t, Js.trimEnd (String c s) = String c t.
Proof.
  intros W. simpl. destruct (Js.trimEnd s); [rewrite W|]; eauto.
Qed.

Lemma trimStart_trimEnd s :
  Js.trimStart (Js.trimEnd (Js.trimStart s)) = Js.trimEnd (Js.trimStart s).
Proof.
  induction s as [|c s IH]; [done|].
  simpl Js.trimStart at 2 3. destruct (Js.is_ws c) eqn:W; [done|].
  destruct (trimEnd_head c s W) as [t ->]. simpl. by rewrite W.
Qed.

Lemma trim_idem s : Js.trim (Js.trim s) = Js.trim s.
Proof. unfold Js.trim. by rewrite trimStart_trimEnd, trimEnd_idem. Qed.

Lemma lower_trim_idem s :
  Js.toLowerCase (Js.trim (Js.toLowerCase (Js.trim s))) = Js.toLowerCase (Js.trim s).
Proof. by rewrite trim_lower, trim_idem, toLowerCase_idem. Qed.

Lemma nonempty_true s : Js.nonempty s = true ↔ s ≠ "".
Proof. destruct s; naive_solver. Qed.

Lemma nonempty_false s : Js.nonempty s = false ↔ s = "".
Proof. destruct s; naive_solver. Qed.

End String_facts.

(** ** Normalisation of e-mail addresses and composite keys *)

Section Split_facts.

Lemma split_no_sep sep s : Js.includes sep s = false → Js.split sep s = [s].
Proof.
  induction s as [|c s IH]; simpl; [done|].
  intros [E1 E2]%orb_false_iff. rewrite E1. by rewrite (IH E2).
Qed.

Lemma split_nonnil sep s : Js.split sep s ≠ [].
Proof.
  induction s as [|c s IH]; simpl; [done|].
  destruct (Ascii.eqb c sep); [done|]. by destruct (Js.split sep s).
Qed.

Lemma split_two_includes sep s a b : Js.split sep s = [a; b] → Js.includes sep s = true.
Proof.
  intros E. destruct (Js.includes sep s) eqn:I; [done|].
  by rewrite (split_no_sep _ _ I) in E.
Qed.

Lemma includes_replaceAll_self c s : Js.includes c (Js.replaceAll c "" s) = false.
Proof.
  induction s as [|d s IH]; simpl; [done|].
  destruct (Ascii.eqb d c) eqn:E; simpl; [done|]. by rewrite E, IH.
Qed.

Lemma includes_replaceAll_other c d s :
  Js.includes d s = false → Js.includes d (Js.replaceAll c "" s) = false.
Proof.
  induction s as [|x s IH]; simpl; [done|].
  intros [E1 E2]%orb_false_iff.
  destruct (Ascii.eqb x c); simpl; [auto|]. by rewrite E1, IH.
Qed.

Lemma includes_hd_split_sep sep s : Js.includes sep (hd "" (Js.split sep s)) = false.
Proof.
  induction s as [|c s IH]; simpl; [done|].
  destruct (Ascii.eqb c sep) eqn:E; simpl; [done|].
  destruct (Js.split sep s) as [|w ws] eqn:S; simpl in *.
  - by rewrite E.
  - by rewrite E, IH.
Qed.

Lemma includes_hd_split_other sep d s :
  Js.includes d s = false → Js.includes d (hd "" (Js.split sep s)) = false.
Proof.
  induction s as [|c s IH]; simpl; [done|].
  intros [E1 E2]%orb_false_iff.
  destruct (Ascii.eqb c sep) eqn:E; simpl; [done|].
  destruct (Js.split sep s) as [|w ws] eqn:S; simpl in *.
  - by rewrite E1.
  - by rewrite E1, IH.
Qed.

End Split_facts.

Section Keys_facts.
Context `{DateRender} `{UpperFirst}.

Lemma normEmail_s_lower_trim s :
  normEmail_s (Js.toLowerCase (Js.trim s)) = normEmail_s s.
Proof. unfold normEmail_s. by rewrite lower_trim_idem. Qed.

Lemma normEmail_s_empty : normEmail_s "" = "".
Proof. done. Qed.

(** When the key has an identity, the clock plays no part. *)
Lemma keyFor_composite now jobId email :
  Js.nonempty (Js.trim (String_ jobId)) || Js.nonempty (normEmail email) = true →
  keyFor now jobId email = Js.trim (String_ jobId) +:+ "|" +:+ normEmail email.
Proof.
  unfold keyFor. intros E.
  destruct (Js.nonempty (Js.trim (String_ jobId))),
           (Js.nonempty (normEmail email)); done.
Qed.

(** C6. [normEmail] trims and lower-cases every input (it only sees the
    trimmed, lower-cased text); an address of the gmail family loses the
    dots of its local part and everything from the first plus sign, and gets
    the domain gmail.com; any other input is returned trimmed and lower-cased,
    with no folding.  In particular the two addresses of the specification
    normalise as stated. *)
Theorem normEmail_folds_gmail_only :
  normEmail (VStr "John.Doe+promo@gmail.com") = "johndoe@gmail.com"
  ∧ normEmail (VStr "John.Doe+promo@company.com") = "john.doe+promo@company.com"
  ∧ (∀ s, normEmail (VStr s) = normEmail (VStr (Js.toLowerCase (Js.trim s))))
  ∧ (∀ s loc domain,
       Js.split "@" (Js.toLowerCase (Js.trim s)) = [loc; domain] →
       domain = "gmail.com" ∨ domain = "googlemail.com" →
       let cleanLocal := hd "" (Js.split "+" (Js.replaceAll "." "" loc)) in
       normEmail (VStr s) = cleanLocal +:+ "@gmail.com"
       ∧ Js.includes "." cleanLocal = false
       ∧ Js.includes "+" cleanLocal = false)
  ∧ (∀ s,
       (∀ loc, Js.split "@" (Js.toLowerCase (Js.trim s)) ≠ [loc; "gmail.com"]
               ∧ Js.split "@" (Js.toLowerCase (Js.trim s)) ≠ [loc; "googlemail.com"]) →
       normEmail (VStr s) = Js.toLowerCase (Js.trim s)).
Proof.
  split; [done|]. split; [done|]. split; [|split].
  - intros s. unfold normEmail. simpl. by rewrite normEmail_s_lower_trim.
  - intros s loc domain S D cleanLocal. split; [|split].
    + unfold normEmail, normEmail_s. simpl.
      pose proof (split_two_includes _ _ _ _ S) as I. rewrite I.
      destruct (Js.toLowerCase (Js.trim s)) eqn:E; [done|]. simpl negb. simpl orb.
      rewrite S. by destruct D as [-> | ->].
    + apply includes_hd_split_other, includes_replaceAll_self.
    + apply includes_hd_split_sep.
  - intros s N. unfold normEmail, normEmail_s. simpl.
    destruct (negb _ || negb _); [done|].
    destruct (Js.split "@" (Js.toLowerCase (Js.trim s))) as [|a [|b [|c l]]] eqn:S; try done.
    destruct (String.eqb b "gmail.com") eqn:G1.
    { apply String.eqb_eq in G1 as ->. by destruct (N a) as [? _]. }
    destruct (String.eqb b "googlemail.com") eqn:G2; [|done].
    apply String.eqb_eq in G2 as ->. by destruct (N a) as [_ ?].
Qed.


End Keys_facts.


(** ** Hyperlinks *)

Section Hyperlink_facts.
Context `{DateRender} `{UpperFirst}.

Definition doubled : string := String dq (String dq "").

Lemma parseLiteral_quote_quote s :
  parseLiteral (String dq (String dq s)) = prod_map (String dq) id <$> parseLiteral s.
Proof. done. Qed.

Lemma parseLiteral_other c s :
  Ascii.eqb c dq = false →
  parseLiteral (String c s) = prod_map (String c) id <$> parseLiteral s.
Proof. intros E. simpl. by rewrite E. Qed.

Lemma parseLiteral_close rest :
  (∀ r, rest ≠ String dq r) → parseLiteral (String dq rest) = Some ("", rest).
Proof.
  intros R. simpl. destruct rest as [|d r]; [done|].
  destruct (Ascii.eqb d dq) eqn:E; [|done].
  apply Ascii.eqb_eq in E as ->. by destruct (R r).
Qed.

Lemma parseLiteral_escaped s rest :
  (∀ r, rest ≠ String dq r) →
  parseLiteral (Js.replaceAll dq doubled s +:+ String dq rest) = Some (s, rest).
Proof.
  intros R. induction s as [|c s IH].
  - by apply parseLiteral_close.
  - simpl Js.replaceAll. destruct (Ascii.eqb c dq) eqn:E.
    + apply Ascii.eqb_eq in E as ->.
      change ((doubled +:+ ?x) +:+ ?y) with (String dq (String dq (x +:+ y))).
      by rewrite parseLiteral_quote_quote, IH.
    + change (String c ?x +:+ ?y) with (String c (x +:+ y)).
      by rewrite (parseLiteral_other _ _ E), IH.
Qed.

Lemma hyperlinkFormula_unfold u label :
  hyperlinkFormula u label =
  "=HYPERLINK(" +:+ String dq (Js.replaceAll dq doubled u +:+ String dq (","
     +:+ String dq (Js.replaceAll dq doubled (String_ label) +:+ String dq ")"))).
Proof. done. Qed.

Lemma parseHyperlink_formula u label :
  parseHyperlink (hyperlinkFormula u label) = Some (u, String_ label).
Proof.
  rewrite hyperlinkFormula_unfold. unfold parseHyperlink.
  change (expect "=hyperlink(" ("=HYPERLINK(" +:+ ?x)) with (Some x).
  cbn [mbind option_bind].
  change (expect (String dq "") (String dq ?x)) with (Some x).
  cbn [mbind option_bind].
  rewrite (parseLiteral_escaped u); [|done].
  cbn [mbind option_bind].
  change (expect "," ("," +:+ ?x)) with (Some x).
  cbn [mbind option_bind].
  change (expect (String dq "") (String dq ?x)) with (Some x).
  cbn [mbind option_bind].
  rewrite (parseLiteral_escaped (String_ label)); [|done].
  done.
Qed.

(** The value shown by a cell that holds the formula is the label. *)
Lemma cellValue_hyperlink u label :
  cellValue (CFormula (hyperlinkFormula u label)) = VStr (String_ label).
Proof. simpl. by rewrite parseHyperlink_formula. Qed.


Lemma urlAllowed_empty : urlAllowed "" = false.
Proof. done. Qed.

(** C10. [setHyperlink] leaves the sheet as it is unless the trimmed url
    passes the protocol test (http, https, mailto or tel, followed by at
    least one character); an empty url does not pass.  When it passes, the
    cell receives the [HYPERLINK] formula built from the escaped url and
    label, and reading that formula back as two string literals returns
    exactly the url and the label: no quote in either ends its literal. *)
Theorem setHyperlink_protocol_and_escaping (sh : sheet) (row : nat) (h : string)
    (url label : jsval) :
  let u := Js.trim (String_ url) in
  urlAllowed "" = false
  ∧ (urlAllowed u = false → setHyperlink sh row h url label = sh)
  ∧ (urlAllowed u = true →
       setHyperlink sh row h url label = setFormula sh row h (hyperlinkFormula u label)
       ∧ hyperlinkFormula u label =
           "=HYPERLINK(" +:+ String dq (Js.replaceAll dq doubled u)
             +:+ String dq ("," +:+ String dq (Js.replaceAll dq doubled (String_ label))
             +:+ String dq ")")
       ∧ parseHyperlink (hyperlinkFormula u label) = Some (u, String_ label)).
Proof.
  intros u. split; [done|]. unfold setHyperlink, hyperlinkFor. fold u. split.
  - intros ->. by destruct (Js.nonempty u).
  - intros A. rewrite A. destruct (Js.nonempty u) eqn:N.
    + split; [done|]. split; [done|]. apply parseHyperlink_formula.
    + apply nonempty_false in N. by rewrite N in A.
Qed.

End Hyperlink_facts.

(** ** Reading a sheet after writing it *)

Ltac headers_differ := let E := fresh in intros E; compute in E; discriminate E.

Ltac lookup_literal :=
  repeat first
    [ rewrite lookup_insert_eq
    | rewrite lookup_insert_ne by headers_differ
    | rewrite lookup_empty ].

Section Sheet_facts.
Context `{DateRender} `{UpperFirst}.

Lemma fld_lookup (obj : gmap string jsval) h :
  fld obj h = default (VStr "") (obj !! h).
Proof. done. Qed.

Lemma lookup_rowObject (sh : sheet) (cells : gmap string cell) h :
  rowObject sh cells !! h =
  if decide (h ∈ hm sh) then cellValue <$> cells !! h else None.
Proof.
  unfold rowObject. rewrite lookup_fmap.
  destruct (decide (h ∈ hm sh)) as [I|I].
  - destruct (cells !! h) as [c|] eqn:E.
    + by rewrite (map_lookup_filter_Some_2 _ _ h c E I).
    + by rewrite map_lookup_filter_None_2; [|left].
  - rewrite map_lookup_filter_None_2; [done|]. right. intros c _. exact I.
Qed.

Lemma rowObject_empty (sh : sheet) : rowObject sh ∅ = ∅.
Proof. unfold rowObject. by rewrite map_filter_empty, fmap_empty. Qed.

Lemma rowObject_hm (sh sh' : sheet) cells :
  hm sh = hm sh' → rowObject sh cells = rowObject sh' cells.
Proof. unfold rowObject. by intros ->. Qed.

Lemma getRowObjectByHeaders_cells (sh : sheet) row :
  dataStartRow sh ≤ row →
  getRowObjectByHeaders sh row =
  rowObject sh (default ∅ (body sh !! (row - dataStartRow sh))).
Proof.
  intros L. unfold getRowObjectByHeaders.
  destruct (Nat.ltb_spec row (dataStartRow sh)); [lia|].
  destruct (body sh !! _); simpl; [done|]. by rewrite rowObject_empty.
Qed.

Lemma onRow_lookup_eq (f : gmap string cell → gmap string cell) i rows :
  onRow f i rows !! i = Some (f (default ∅ (rows !! i))).
Proof.
  unfold onRow. destruct (Nat.ltb_spec i (length rows)) as [L|L].
  - destruct (lookup_lt_is_Some_2 rows i L) as [x E].
    rewrite E. simpl. by rewrite list_lookup_alter_eq, E.
  - rewrite (lookup_ge_None_2 rows i L). simpl.
    rewrite lookup_app_r by done.
    rewrite lookup_app_r; rewrite length_replicate; [|done].
    by replace (i - length rows - (i - length rows)) with 0 by lia.
Qed.

Lemma onRow_lookup_ne (f : gmap string cell → gmap string cell) i j rows :
  i ≠ j → default ∅ (onRow f i rows !! j) = default ∅ (rows !! j).
Proof.
  intros N. unfold onRow. destruct (Nat.ltb_spec i (length rows)) as [L|L].
  - by rewrite list_lookup_alter_ne.
  - destruct (decide (j < length rows)) as [J|J].
    + by rewrite lookup_app_l.
    + rewrite (lookup_ge_None_2 rows j) by lia. simpl.
      rewrite lookup_app_r by lia.
      destruct (decide (j < i)).
      * rewrite lookup_app_l by (rewrite length_replicate; lia).
        by rewrite lookup_replicate_2 by lia.
      * rewrite lookup_app_r by (rewrite length_replicate; lia).
        rewrite length_replicate.
        rewrite lookup_ge_None_2; [done|]. simpl. lia.
Qed.

Lemma hm_setRowValuesByHeaders sh row up :
  hm (setRowValuesByHeaders sh row up) = hm sh.
Proof. unfold setRowValuesByHeaders. by destruct (_ <? _). Qed.

Lemma headerRow_setRowValuesByHeaders sh row up :
  headerRow (setRowValuesByHeaders sh row up) = headerRow sh.
Proof. unfold setRowValuesByHeaders. by destruct (_ <? _). Qed.

Lemma dataStartRow_setRowValuesByHeaders sh row up :
  dataStartRow (setRowValuesByHeaders sh row up) = dataStartRow sh.
Proof. unfold dataStartRow. by rewrite headerRow_setRowValuesByHeaders. Qed.

(** The cells of a written row: the mapped updates on top of the old cells. *)
Lemma cells_setRowValuesByHeaders sh row up :
  dataStartRow sh ≤ row →
  body (setRowValuesByHeaders sh row up) !! (row - dataStartRow sh) =
  Some ((CVal <$> filter (λ p, p.1 ∈ hm sh) up)
          ∪ default ∅ (body sh !! (row - dataStartRow sh))).
Proof.
  intros L. unfold setRowValuesByHeaders.
  destruct (Nat.ltb_spec row (dataStartRow sh)); [lia|]. simpl.
  by rewrite onRow_lookup_eq.
Qed.

Lemma cells_setRowValuesByHeaders_ne sh row up j :
  j ≠ row - dataStartRow sh →
  default ∅ (body (setRowValuesByHeaders sh row up) !! j) = default ∅ (body sh !! j).
Proof.
  intros N. unfold setRowValuesByHeaders.
  destruct (Nat.ltb_spec row (dataStartRow sh)); [done|]. simpl.
  by rewrite onRow_lookup_ne.
Qed.

Lemma fld_rowObject_written (sh : sheet) (up : gmap string jsval)
    (cells : gmap string cell) h :
  fld (rowObject sh ((CVal <$> filter (λ p, p.1 ∈ hm sh) up) ∪ cells)) h =
  if decide (h ∈ hm sh) then default (fld (rowObject sh cells) h) (up !! h)
  else VStr "".
Proof.
  unfold fld. rewrite !lookup_rowObject.
  destruct (decide (h ∈ hm sh)) as [I|I]; [|done].
  rewrite lookup_union, lookup_fmap.
  destruct (up !! h) as [v|] eqn:E.
  - rewrite (map_lookup_filter_Some_2 _ _ h v E I). simpl.
    by destruct (cells !! h).
  - rewrite map_lookup_filter_None_2 by (by left). simpl.
    by destruct (cells !! h).
Qed.

(** Reading a row back after [setRowValuesByHeaders]. *)
Lemma fld_get_set sh row up h :
  dataStartRow sh ≤ row →
  fld (getRowObjectByHeaders (setRowValuesByHeaders sh row up) row) h =
  if decide (h ∈ hm sh)
  then default (fld (getRowObjectByHeaders sh row) h) (up !! h)
  else VStr "".
Proof.
  intros L.
  rewrite !getRowObjectByHeaders_cells
    by (by rewrite ?dataStartRow_setRowValuesByHeaders).
  rewrite dataStartRow_setRowValuesByHeaders, cells_setRowValuesByHeaders by done.
  simpl. rewrite (rowObject_hm _ sh) by apply hm_setRowValuesByHeaders.
  apply fld_rowObject_written.
Qed.

Lemma get_set_other sh row up row' :
  row' ≠ row → dataStartRow sh ≤ row' →
  getRowObjectByHeaders (setRowValuesByHeaders sh row up) row' =
  getRowObjectByHeaders sh row'.
Proof.
  intros N L.
  rewrite !getRowObjectByHeaders_cells
    by (by rewrite ?dataStartRow_setRowValuesByHeaders).
  rewrite dataStartRow_setRowValuesByHeaders.
  destruct (decide (row < dataStartRow sh)) as [R|R].
  - unfold setRowValuesByHeaders.
    by destruct (Nat.ltb_spec row (dataStartRow sh)); [|lia].
  - rewrite cells_setRowValuesByHeaders_ne by lia.
    apply rowObject_hm, hm_setRowValuesByHeaders.
Qed.

End Sheet_facts.

(** ** Status transitions *)

Section Requisitions_facts.
Context `{DateRender} `{UpperFirst}.

Lemma lookup_putIf c h v (up : gmap string jsval) h' :
  putIf c h v up !! h' = if c && bool_decide (h = h') then Some v else up !! h'.
Proof.
  unfold putIf. destruct c; simpl; [|done].
  case_bool_decide as E; [subst; apply lookup_insert_eq | by apply lookup_insert_ne].
Qed.

Ltac decide_headers :=
  repeat match goal with
    | |- context [bool_decide (?a = ?b)] =>
        let v := eval vm_compute in (bool_decide (a = b)) in
        change (bool_decide (a = b)) with v
    end.

Lemma hm_reqTransitionRow now sh row : hm (reqTransitionRow now sh row) = hm sh.
Proof.
  unfold reqTransitionRow. destruct (_ <? _); [done|].
  destruct (isEmptyObj _); [done|]. apply hm_setRowValuesByHeaders.
Qed.

Lemma dataStartRow_reqTransitionRow now sh row :
  dataStartRow (reqTransitionRow now sh row) = dataStartRow sh.
Proof.
  unfold reqTransitionRow. destruct (_ <? _); [done|].
  destruct (isEmptyObj _); [done|]. apply dataStartRow_setRowValuesByHeaders.
Qed.

(** One row after the engine: each mapped field is the update, if any. *)
Lemma fld_reqTransitionRow now sh row h :
  dataStartRow sh ≤ row → h ∈ hm sh →
  fld (getRowObjectByHeaders (reqTransitionRow now sh row) row) h =
  default (fld (getRowObjectByHeaders sh row) h)
          (reqStatusUpdates (hm sh) now (getRowObjectByHeaders sh row) !! h).
Proof.
  intros L I. unfold reqTransitionRow.
  destruct (Nat.ltb_spec row (dataStartRow sh)); [lia|].
  unfold isEmptyObj. case_bool_decide as E.
  - by rewrite E, lookup_empty.
  - rewrite fld_get_set by done. by rewrite decide_True.
Qed.

Lemma fld_statusEdited now sh row status h :
  ANCHOR_HEADER_REQ ∈ hm sh → dataStartRow sh ≤ row → h ∈ hm sh →
  let edited := setRowValuesByHeaders sh row {[ H_REQ.JobStatus := VStr status ]} in
  fld (getRowObjectByHeaders (statusEdited now sh row status) row) h =
  default (fld (getRowObjectByHeaders edited row) h)
          (reqStatusUpdates (hm sh) now (getRowObjectByHeaders edited row) !! h).
Proof.
  intros A L I edited.
  assert (hm edited = hm sh) as Eh by apply hm_setRowValuesByHeaders.
  assert (dataStartRow edited = dataStartRow sh) as Ed
    by apply dataStartRow_setRowValuesByHeaders.
  unfold statusEdited, applyReqStatusTransitionsForRows_, getHeaderInfo.
  fold edited. rewrite decide_True by (by rewrite Eh).
  simpl. rewrite fld_reqTransitionRow; rewrite ?Eh, ?Ed; done.
Qed.

Lemma hm_statusEdited now sh row status :
  hm (statusEdited now sh row status) = hm sh.
Proof.
  unfold statusEdited, applyReqStatusTransitionsForRows_.
  destruct (getHeaderInfo _ _); simpl;
    by rewrite ?hm_reqTransitionRow, hm_setRowValuesByHeaders.
Qed.

Lemma dataStartRow_statusEdited now sh row status :
  dataStartRow (statusEdited now sh row status) = dataStartRow sh.
Proof.
  unfold statusEdited, applyReqStatusTransitionsForRows_.
  destruct (getHeaderInfo _ _); simpl;
    by rewrite ?dataStartRow_reqTransitionRow, dataStartRow_setRowValuesByHeaders.
Qed.

Lemma fld_edited sh row status h :
  dataStartRow sh ≤ row → H_REQ.JobStatus ∈ hm sh → h ∈ hm sh →
  fld (getRowObjectByHeaders
         (setRowValuesByHeaders sh row {[ H_REQ.JobStatus := VStr status ]}) row) h =
  if bool_decide (H_REQ.JobStatus = h) then VStr status
  else fld (getRowObjectByHeaders sh row) h.
Proof.
  intros L S I. rewrite fld_get_set by done. rewrite decide_True by done.
  case_bool_decide as E.
  - subst. by rewrite lookup_singleton_eq.
  - by rewrite lookup_singleton_ne.
Qed.

Lemma fld_unmapped sh row h :
  h ∉ hm sh → fld (getRowObjectByHeaders sh row) h = VStr "".
Proof.
  intros N. unfold getRowObjectByHeaders, fld.
  destruct (_ <? _); [done|]. destruct (body sh !! _); [|done].
  by rewrite lookup_rowObject, decide_False.
Qed.

Lemma fld_edited_any sh row status h :
  dataStartRow sh ≤ row → H_REQ.JobStatus ∈ hm sh →
  fld (getRowObjectByHeaders
         (setRowValuesByHeaders sh row {[ H_REQ.JobStatus := VStr status ]}) row) h =
  if bool_decide (H_REQ.JobStatus = h) then VStr status
  else fld (getRowObjectByHeaders sh row) h.
Proof.
  intros L S. destruct (decide (h ∈ hm sh)) as [I|I]; [by apply fld_edited|].
  rewrite !fld_unmapped by (by rewrite ?hm_setRowValuesByHeaders).
  case_bool_decide; by subst.
Qed.

Lemma fld_statusEdited_any now sh row status h :
  ANCHOR_HEADER_REQ ∈ hm sh → dataStartRow sh ≤ row →
  let edited := setRowValuesByHeaders sh row {[ H_REQ.JobStatus := VStr status ]} in
  fld (getRowObjectByHeaders (statusEdited now sh row status) row) h =
  if decide (h ∈ hm sh)
  then default (fld (getRowObjectByHeaders edited row) h)
               (reqStatusUpdates (hm sh) now (getRowObjectByHeaders edited row) !! h)
  else VStr "".
Proof.
  intros A L edited. destruct (decide (h ∈ hm sh)) as [I|I].
  - by apply fld_statusEdited.
  - apply fld_unmapped. by rewrite hm_statusEdited.
Qed.

Ltac eval_status :=
  repeat match goal with
    | |- context [String.eqb (_normStr_ (VStr ?s)) ?t] =>
        let v := eval vm_compute in (String.eqb (_normStr_ (VStr s)) t) in
        change (String.eqb (_normStr_ (VStr s)) t) with v
    end;
  cbv beta iota.

Ltac status_step A L S :=
  rewrite !(fld_statusEdited_any _ _ _ _ _ A L); unfold reqStatusUpdates;
  rewrite !(fld_edited_any _ _ _ _ L S); decide_headers; cbv beta iota; eval_status;
  rewrite ?lookup_putIf; decide_headers;
  rewrite ?andb_false_r, ?andb_true_r; cbv beta iota.

Lemma truthy_false_empty v : truthy v = false → v = VStr "".
Proof. destruct v as [[|]|]; naive_solver. Qed.

(** The date fields of a row after it is set to Open. *)
Lemma after_Open now sh row :
  ANCHOR_HEADER_REQ ∈ hm sh → H_REQ.JobStatus ∈ hm sh → H_REQ.Opened ∈ hm sh →
  dataStartRow sh ≤ row →
  let obj := getRowObjectByHeaders sh row in
  let obj' := getRowObjectByHeaders (statusEdited now sh row "Open") row in
  fld obj' H_REQ.Opened =
    (if truthy (fld obj H_REQ.Opened) then fld obj H_REQ.Opened else VDate now)
  ∧ fld obj' H_REQ.OnHoldDate = 
    (if truthy (fld obj H_REQ.OnHoldDate) then VStr "" else fld obj H_REQ.OnHoldDate)
  ∧ truthy (fld obj' H_REQ.ClosedDate) = false
  ∧ truthy (fld obj' H_REQ.PositionHiredDate) = false.
Proof.
  intros A S O L obj obj'. subst obj obj'. 
  status_step A L S.
  rewrite (decide_True _ _ O), (bool_decide_eq_true_2 _ O).
  destruct (truthy (fld (getRowObjectByHeaders sh row) H_REQ.Opened)) eqn:T1,
           (truthy (fld (getRowObjectByHeaders sh row) H_REQ.OnHoldDate)) eqn:T2,
           (truthy (fld (getRowObjectByHeaders sh row) H_REQ.ClosedDate)) eqn:T3,
           (truthy (fld (getRowObjectByHeaders sh row) H_REQ.PositionHiredDate)) eqn:T4;
    rewrite ?lookup_empty; repeat case_decide; repeat case_bool_decide;
    cbn [andb negb from_option id]; rewrite ?T1, ?T2, ?T3, ?T4;
    repeat split; try done; try (symmetry; by apply truthy_false_empty).
Qed.

(** The date fields of a row after it is set to On Hold. *)
Lemma after_OnHold now sh row :
  ANCHOR_HEADER_REQ ∈ hm sh → H_REQ.JobStatus ∈ hm sh → H_REQ.OnHoldDate ∈ hm sh →
  dataStartRow sh ≤ row →
  let obj := getRowObjectByHeaders sh row in
  let obj' := getRowObjectByHeaders (statusEdited now sh row "On Hold") row in
  fld obj' H_REQ.Opened = fld obj H_REQ.Opened
  ∧ fld obj' H_REQ.OnHoldDate = 
    (if truthy (fld obj H_REQ.OnHoldDate) then fld obj H_REQ.OnHoldDate else VDate now)
  ∧ truthy (fld obj' H_REQ.ClosedDate) = false
  ∧ truthy (fld obj' H_REQ.PositionHiredDate) = false.
Proof.
  intros A S O L obj obj'. subst obj obj'.
  status_step A L S.
  rewrite (decide_True _ _ O), (bool_decide_eq_true_2 _ O).
  destruct (truthy (fld (getRowObjectByHeaders sh row) H_REQ.OnHoldDate)) eqn:T2,
           (truthy (fld (getRowObjectByHeaders sh row) H_REQ.ClosedDate)) eqn:T3,
           (truthy (fld (getRowObjectByHeaders sh row) H_REQ.PositionHiredDate)) eqn:T4;
    rewrite ?lookup_empty; repeat case_decide; repeat case_bool_decide;
    cbn [andb negb from_option id]; rewrite ?T2, ?T3, ?T4;
    repeat split; try done; try (symmetry; by apply truthy_false_empty);
    try (symmetry; by apply fld_unmapped).
Qed.
(** C3. A requisition row whose four date fields are empty goes Open, On Hold
    and Open again: the first Open stamps the opened date; On Hold stamps the
    on-hold date and leaves the opened date; the return to Open clears the
    on-hold date and leaves the opened date as the first Open set it. *)
Theorem status_open_hold_open (now1 now2 now3 : Z) (sh : sheet) (row : nat) :
  ANCHOR_HEADER_REQ ∈ hm sh → H_REQ.JobStatus ∈ hm sh →
  H_REQ.Opened ∈ hm sh → H_REQ.OnHoldDate ∈ hm sh →
  dataStartRow sh ≤ row →
  (∀ h, h ∈ [H_REQ.Opened; H_REQ.OnHoldDate; H_REQ.ClosedDate; H_REQ.PositionHiredDate] →
        truthy (fld (getRowObjectByHeaders sh row) h) = false) →
  let sh1 := statusEdited now1 sh row "Open" in
  let sh2 := statusEdited now2 sh1 row "On Hold" in
  let sh3 := statusEdited now3 sh2 row "Open" in
  fld (getRowObjectByHeaders sh1 row) H_REQ.Opened = VDate now1
  ∧ fld (getRowObjectByHeaders sh1 row) H_REQ.OnHoldDate = VStr ""
  ∧ fld (getRowObjectByHeaders sh2 row) H_REQ.Opened = VDate now1
  ∧ fld (getRowObjectByHeaders sh2 row) H_REQ.OnHoldDate = VDate now2
  ∧ fld (getRowObjectByHeaders sh3 row) H_REQ.Opened = VDate now1
  ∧ fld (getRowObjectByHeaders sh3 row) H_REQ.OnHoldDate = VStr "".
Proof.
  intros A S O Hd L E sh1 sh2 sh3.
  assert (E1 := E H_REQ.Opened ltac:(set_solver)).
  assert (E2 := E H_REQ.OnHoldDate ltac:(set_solver)).
  destruct (after_Open now1 sh row A S O L) as (O1 & D1 & _ & _).
  rewrite E1 in O1. rewrite E2, (truthy_false_empty _ E2) in D1.
  assert (hm sh1 = hm sh) as M1 by apply hm_statusEdited.
  assert (dataStartRow sh1 = dataStartRow sh) as S1 by apply dataStartRow_statusEdited.
  destruct (after_OnHold now2 sh1 row) as (O2 & D2 & _ & _); rewrite ?M1, ?S1; try done.
  fold sh1 in O1, D1. fold sh2 in O2, D2. rewrite O1 in O2. rewrite D1 in D2. simpl in D2.
  assert (hm sh2 = hm sh) as M2 by (unfold sh2; by rewrite hm_statusEdited).
  assert (dataStartRow sh2 = dataStartRow sh) as S2
    by (unfold sh2; by rewrite dataStartRow_statusEdited).
  destruct (after_Open now3 sh2 row) as (O3 & D3 & _ & _); rewrite ?M2, ?S2; try done.
  fold sh3 in O3, D3. rewrite O2 in O3. rewrite D2 in D3. simpl in O3, D3.
  done.
Qed.

End Requisitions_facts.


Lemma status_open_hold_open_witness :
  let sh1 := statusEdited 10 c3_sheet 2 "Open" in
  let sh2 := statusEdited 20 sh1 2 "On Hold" in
  let sh3 := statusEdited 30 sh2 2 "Open" in
  fld (getRowObjectByHeaders sh1 2) H_REQ.Opened = VDate 10
  ∧ fld (getRowObjectByHeaders sh1 2) H_REQ.OnHoldDate = VStr ""
  ∧ fld (getRowObjectByHeaders sh2 2) H_REQ.Opened = VDate 10
  ∧ fld (getRowObjectByHeaders sh2 2) H_REQ.OnHoldDate = VDate 20
  ∧ fld (getRowObjectByHeaders sh3 2) H_REQ.Opened = VDate 10
  ∧ fld (getRowObjectByHeaders sh3 2) H_REQ.OnHoldDate = VStr "".
Proof.
  apply (status_open_hold_open 10 20 30 c3_sheet 2); try compute_done.
  intros h Hh. repeat (apply elem_of_cons in Hh as [->|Hh]); try reflexivity.
  by apply elem_of_nil in Hh.
Defined.

(** ** Business days *)


(** C8 (the defect).  From Monday 1 January 2024 to Monday 22 January 2024,
    New York time, the day-by-day count is 13: fifteen week days less New
    Year's Day and Martin Luther King Day.  [businessDaysBetween] takes the
    full-week branch (21 days) and returns 15: it reads each holiday as UTC
    midnight, which is the evening before in New York, so the first falls
    before the range and the second on a Sunday, and neither is subtracted. *)
Theorem businessDays_long_branch_keeps_holidays :
  formatDate TZ_minutes jan01 = "2024-01-01"
  ∧ formatDate TZ_minutes jan22 = "2024-01-22"
  ∧ setHours0 TZ_minutes jan01 = jan01
  ∧ setHours0 TZ_minutes jan22 = jan22
  ∧ dayByDay TZ_minutes jan01 jan22 = 13%Z
  ∧ businessDaysBetween TZ_minutes jan01 jan22 = 15%Z.
Proof. by vm_compute. Qed.

(** ** Rows with content and the objects read from a sheet *)

Section Rows_facts.
Context `{DateRender} `{UpperFirst}.

Lemma dataCount_le rows : dataCount rows ≤ length rows.
Proof.
  induction rows as [|r rows IH]; simpl; [done|].
  destruct (dataCount rows); [destruct (rowBlank r); simpl; lia | lia].
Qed.

(** Past the last row with content every row is blank. *)
Lemma blank_beyond rows j c :
  rows !! j = Some c → dataCount rows ≤ j → rowBlank c = true.
Proof.
  revert j. induction rows as [|r rows IH]; intros j; [done|].
  simpl. destruct j as [|j]; simpl.
  - intros [= ->]. destruct (dataCount rows); [|lia].
    destruct (rowBlank c); [done|lia].
  - intros E L. apply (IH j E). destruct (dataCount rows); lia.
Qed.

Lemma rowBlank_cell c h x : rowBlank c = true → c !! h = Some x → x = CVal (VStr "").
Proof.
  unfold rowBlank. intros B%bool_decide_eq_true E. exact (B h x E).
Qed.

Lemma fld_blank (sh : sheet) c h : rowBlank c = true → fld (rowObject sh c) h = VStr "".
Proof.
  intros B. unfold fld. rewrite lookup_rowObject.
  destruct (decide (h ∈ hm sh)); [|done].
  destruct (c !! h) as [x|] eqn:E; [|done].
  by rewrite (rowBlank_cell c h x B E).
Qed.

Lemma dataObjects_lookup (sh : sheet) j r obj :
  dataObjects sh !! j = Some (r, obj) ↔
  j < dataCount (body sh) ∧ r = dataStartRow sh + j
  ∧ ∃ c, body sh !! j = Some c ∧ obj = rowObject sh c.
Proof.
  unfold dataObjects. rewrite list_lookup_imap.
  destruct (decide (j < dataCount (body sh))) as [L|L].
  - rewrite lookup_take_lt by done.
    destruct (body sh !! j) as [c|] eqn:E; simpl.
    + split; [intros [= <- <-]; eauto 10|].
      intros (_ & -> & c' & [= <-] & ->). done.
    + split; [done|]. by intros (_ & _ & c' & ? & _).
  - rewrite lookup_take_ge by lia. simpl. split; [done|]. intros []; lia.
Qed.

(** A row that reads a non-empty field is among the objects of the sheet. *)
Lemma dataObjects_of_content (sh : sheet) j c h :
  body sh !! j = Some c → fld (rowObject sh c) h ≠ VStr "" →
  dataObjects sh !! j = Some (dataStartRow sh + j, rowObject sh c).
Proof.
  intros E N. apply dataObjects_lookup. split; [|eauto].
  destruct (decide (j < dataCount (body sh))); [done|].
  destruct N. apply fld_blank. apply (blank_beyond (body sh) j); [done|lia].
Qed.

End Rows_facts.

(** ** Unique e-mail addresses *)

Section UniqueEmail_facts.
Context `{DateRender} `{UpperFirst}.


(** What the scan has collected after a list of entries. *)
Lemma scan_spec rows entries seen clear :
  let res := foldl (uniqueEmailStep rows) (seen, clear) entries in
  (∀ e, is_Some (res.1 !! e) ↔
        is_Some (seen !! e) ∨ (e ≠ "" ∧ ∃ r o, (r, o) ∈ entries ∧ objEmail o = e))
  ∧ (∀ r, r ∈ res.2 ↔
          r ∈ clear ∨
          ∃ j o, entries !! j = Some (r, o) ∧ objEmail o ≠ "" ∧ r ∈ rows
                 ∧ (is_Some (seen !! objEmail o)
                    ∨ ∃ i r' o', i < j ∧ entries !! i = Some (r', o')
                                 ∧ objEmail o' = objEmail o)).
Proof.
  revert seen clear. induction entries as [|[r0 o0] entries IH]; intros seen clear res.
  - subst res. simpl. split.
    + intros e. split; [tauto|]. intros [?|(_ & r & o & I & _)]; [done|].
      by apply elem_of_nil in I.
    + intros r. split; [tauto|]. intros [?|(j & o & E & _)]; [done|].
      by rewrite lookup_nil in E.
  - subst res.
    change (foldl (uniqueEmailStep rows) (seen, clear) ((r0, o0) :: entries))
      with (foldl (uniqueEmailStep rows)
              (uniqueEmailStep rows (seen, clear) (r0, o0)) entries).
    set (acc := uniqueEmailStep rows (seen, clear) (r0, o0)).
    destruct (IH acc.1 acc.2) as [IH1 IH2].
    rewrite <- surjective_pairing in IH1, IH2.
    assert (∀ e, is_Some (acc.1 !! e) ↔
                 is_Some (seen !! e) ∨ (e ≠ "" ∧ objEmail o0 = e)) as A1.
    { intros e. subst acc. unfold uniqueEmailStep. fold (objEmail o0).
      destruct (Js.nonempty (objEmail o0)) eqn:N; simpl.
      - apply nonempty_true in N.
        case_bool_decide as S; simpl.
        + destruct (bool_decide (r0 ∈ rows)); simpl;
            (split; [tauto|]; intros [?|[_ <-]]; done).
        + rewrite lookup_insert_is_Some. split.
          * intros [<-|[_ ?]]; [right|left]; done.
          * intros [?|[_ <-]]; [|by left].
            destruct (decide (objEmail o0 = e)); [by left|by right].
      - apply nonempty_false in N. split; [tauto|].
        intros [?|[? ?]]; [done|congruence]. }
    assert (∀ r, r ∈ acc.2 ↔
                 r ∈ clear ∨ (r = r0 ∧ objEmail o0 ≠ "" ∧ r0 ∈ rows
                              ∧ is_Some (seen !! objEmail o0))) as A2.
    { intros r. subst acc. unfold uniqueEmailStep. fold (objEmail o0).
      destruct (Js.nonempty (objEmail o0)) eqn:N; simpl.
      - apply nonempty_true in N.
        case_bool_decide as S; simpl.
        + case_bool_decide as R; simpl.
          * rewrite elem_of_app, list_elem_of_singleton. split.
            -- intros [? | ->]; [by left|by right].
            -- intros [? | (-> & _)]; [by left|by right].
          * split; [by left|]. intros [?|(_ & _ & ? & _)]; done.
        + split; [by left|]. intros [?|(_ & _ & _ & ?)]; done.
      - apply nonempty_false in N. split; [by left|].
        intros [?|(_ & ? & _)]; done. }
    split.
    + intros e. rewrite IH1, A1. split.
      * intros [[?|[? ?]]|(? & r & o & I & ?)]; [by left|right..].
        -- split; [done|]. exists r0, o0. split; [left|done].
        -- split; [done|]. exists r, o. split; [by right|done].
      * intros [?|(? & r & o & I & ?)]; [by left; left|].
        apply elem_of_cons in I as [[= -> ->]|I]; [by left; right|].
        right. eauto.
    + intros r. rewrite IH2, A2. split.
      * intros [[?|(-> & ? & ? & ?)]|(j & o & E & N & R & D)]; [by left|right..].
        -- exists 0, o0. eauto 10.
        -- exists (S j), o. split; [done|]. split; [done|]. split; [done|].
           destruct D as [D|(i & r' & o' & L & E' & Q)].
           ++ apply A1 in D as [D|[_ D]]; [by left|].
              right. exists 0, r0, o0. split; [lia|done].
           ++ right. exists (S i), r', o'. split; [lia|done].
      * intros [?|(j & o & E & N & R & D)]; [by left; left|].
        destruct j as [|j]; simpl in E.
        -- injection E as -> ->. destruct D as [D|(i & ? & ? & L & _)]; [|lia].
           left. right. done.
        -- right. exists j, o. split; [done|]. split; [done|]. split; [done|].
           destruct D as [D|(i & r' & o' & L & E' & Q)].
           ++ left. apply A1. by left.
           ++ destruct i as [|i]; simpl in E'.
              ** injection E' as -> ->. left. apply A1. right. by rewrite Q.
              ** right. exists i, r', o'. split; [lia|done].
Qed.


Lemma body_setRowValuesByHeaders_in_range sh row up :
  dataStartRow sh ≤ row → row - dataStartRow sh < length (body sh) →
  body (setRowValuesByHeaders sh row up) =
  alter (λ cells, (CVal <$> filter (λ p, p.1 ∈ hm sh) up) ∪ cells)
        (row - dataStartRow sh) (body sh).
Proof.
  intros L R. unfold setRowValuesByHeaders, onRow.
  destruct (Nat.ltb_spec row (dataStartRow sh)); [lia|]. simpl.
  by destruct (Nat.ltb_spec (row - dataStartRow sh) (length (body sh))); [|lia].
Qed.


Lemma clearEmails_spec cl sh :
  H_ALL.Email ∈ hm sh →
  (∀ r, r ∈ cl → dataStartRow sh ≤ r ∧ r - dataStartRow sh < length (body sh)) →
  hm (clearEmails sh cl) = hm sh
  ∧ headerRow (clearEmails sh cl) = headerRow sh
  ∧ (∀ i, dataStartRow sh + i ∉ cl →
          body (clearEmails sh cl) !! i = body sh !! i)
  ∧ (∀ i c, dataStartRow sh + i ∈ cl → body (clearEmails sh cl) !! i = Some c →
            rowEmail sh c = "").
Proof.
  revert sh. induction cl as [|r cl IH]; intros sh E R.
  { repeat split; try done. intros i c I. by apply elem_of_nil in I. }
  destruct (R r) as [L1 L2]; [by left|].
  set (sh1 := setRowValuesByHeaders sh r {[ H_ALL.Email := VStr "" ]}).
  assert (hm sh1 = hm sh) as M1 by apply hm_setRowValuesByHeaders.
  assert (headerRow sh1 = headerRow sh) as H1 by apply headerRow_setRowValuesByHeaders.
  assert (dataStartRow sh1 = dataStartRow sh) as D1
    by apply dataStartRow_setRowValuesByHeaders.
  assert (body sh1 = alter (λ cells, (CVal <$> filter (λ p, p.1 ∈ hm sh)
                                        {[ H_ALL.Email := VStr "" ]}) ∪ cells)
                           (r - dataStartRow sh) (body sh)) as B1
    by (by apply body_setRowValuesByHeaders_in_range).
  destruct (IH sh1) as (M & Hr & A & B).
  { by rewrite M1. }
  { intros r' I. rewrite D1, B1, length_alter. apply R. by right. }
  change (clearEmails sh (r :: cl)) with (clearEmails sh1 cl).
  split; [by rewrite M|]. split; [by rewrite Hr|]. split.
  - intros i N. rewrite A by (rewrite D1; set_solver).
    rewrite B1. apply list_lookup_alter_ne. intros Q. apply N, elem_of_cons. left. lia.
  - intros i c I Ec.
    destruct (decide (dataStartRow sh + i ∈ cl)) as [J|J].
    + rewrite <- (B i c); [|by rewrite D1|done].
      unfold rowEmail. by rewrite (rowObject_hm sh1 sh).
    + apply elem_of_cons in I as [I|I]; [|done].
      rewrite A in Ec by (by rewrite D1).
      rewrite B1 in Ec. replace (r - dataStartRow sh) with i in Ec by lia.
      rewrite list_lookup_alter_eq in Ec.
      destruct (body sh !! i) as [c0|]; [|done]. simpl in Ec.
      assert (c = (CVal <$> filter (λ p, p.1 ∈ hm sh) {[ H_ALL.Email := VStr "" ]}) ∪ c0)
        as -> by congruence.
      unfold rowEmail. rewrite fld_rowObject_written.
      rewrite decide_True by exact E.
      rewrite lookup_singleton_eq. reflexivity.
Qed.

(** X30. When [enforceUniqueEmail_] does leave every address unique.  Given
    the anchor and the e-mail columns, if every data row that repeats the
    non-empty normalised address of a row above it is among the edited rows,
    then afterwards no two rows carry the same non-empty normalised address;
    and rows that are not among the edited rows are left as they were. *)
Theorem enforceUniqueEmail_unique_when_repeats_edited (sh : sheet) (rows : list nat) :
  ANCHOR_HEADER_ALL ∈ hm sh → H_ALL.Email ∈ hm sh →
  (∀ i j e,
     i < j → emailList sh !! i = Some e → emailList sh !! j = Some e → e ≠ "" →
     dataStartRow sh + j ∈ rows) →
  emailsUnique (enforceUniqueEmail_ sh rows)
  ∧ (∀ i, dataStartRow sh + i ∉ rows →
          body (enforceUniqueEmail_ sh rows) !! i = body sh !! i).
Proof.
  intros A E D0.
  assert (∀ i j ci cj,
     i < j → body sh !! i = Some ci → body sh !! j = Some cj →
     rowEmail sh ci = rowEmail sh cj → rowEmail sh ci ≠ "" →
     dataStartRow sh + j ∈ rows) as D.
  { intros i j ci cj L Ei Ej Q N. apply (D0 i j (rowEmail sh ci)); [done| | |done].
    - unfold emailList. by rewrite list_lookup_fmap, Ei.
    - unfold emailList. by rewrite list_lookup_fmap, Ej, Q. }
  assert (∀ sh', (∀ i j ci cj,
             body sh' !! i = Some ci → body sh' !! j = Some cj →
             rowEmail sh' ci = rowEmail sh' cj → rowEmail sh' ci ≠ "" → i = j) →
           emailsUnique sh') as ByCells.
  { intros sh' G i j e Ei Ej N. unfold emailList in Ei, Ej.
    apply list_lookup_fmap_Some in Ei as (ci & -> & Ei).
    apply list_lookup_fmap_Some in Ej as (cj & Q & Ej).
    by apply (G i j ci cj). }
  assert (∀ r, r ∈ rowsToClear sh rows ↔
               ∃ j o, dataObjects sh !! j = Some (r, o) ∧ objEmail o ≠ "" ∧ r ∈ rows
                      ∧ ∃ i r' o', i < j ∧ dataObjects sh !! i = Some (r', o')
                                   ∧ objEmail o' = objEmail o) as C.
  { intros r. unfold rowsToClear.
    destruct (scan_spec rows (dataObjects sh) ∅ []) as [_ S]. rewrite S.
    split.
    - intros [I|(j & o & ? & ? & ? & [I|?])]; [by apply elem_of_nil in I| |eauto 10].
      rewrite lookup_empty in I. by destruct I.
    - intros (j & o & ? & ? & ? & ?). right. eauto 10. }
  assert (∀ r, r ∈ rowsToClear sh rows →
               dataStartRow sh ≤ r ∧ r - dataStartRow sh < length (body sh)) as R.
  { intros r (j & o & (L & -> & c & Ec & _)%dataObjects_lookup & _)%C.
    split; [lia|]. pose proof (dataCount_le (body sh)). lia. }
  assert (∀ r, r ∈ rowsToClear sh rows → r ∈ rows) as Sub.
  { intros r (j & o & _ & _ & ? & _)%C. done. }
  destruct (clearEmails_spec (rowsToClear sh rows) sh E R) as (M & Hr & Keep & Cleared).
  assert (emailsUnique (clearEmails sh (rowsToClear sh rows))) as U.
  { apply ByCells. intros i j ci cj Ei Ej Q N.
    assert (∀ k ck, body (clearEmails sh (rowsToClear sh rows)) !! k = Some ck →
                    rowEmail sh ck ≠ "" →
                    body sh !! k = Some ck
                    ∧ dataStartRow sh + k ∉ rowsToClear sh rows) as Orig.
    { intros k ck Ek Nk.
      destruct (decide (dataStartRow sh + k ∈ rowsToClear sh rows)) as [I|I].
      - destruct Nk. by apply (Cleared k).
      - by rewrite <- (Keep k I). }
    unfold rowEmail in Q, N.
    rewrite (rowObject_hm _ sh ci M), (rowObject_hm _ sh cj M) in Q.
    rewrite (rowObject_hm _ sh ci M) in N.
    fold (rowEmail sh ci) in Q, N. fold (rowEmail sh cj) in Q.
    destruct (Orig i ci Ei N) as [Oi Ni].
    destruct (Orig j cj Ej ltac:(by rewrite <- Q)) as [Oj Nj].
    assert (∀ a b ca cb, a < b → body sh !! a = Some ca → body sh !! b = Some cb →
              rowEmail sh ca = rowEmail sh cb → rowEmail sh ca ≠ "" →
              dataStartRow sh + b ∈ rowsToClear sh rows) as Rep.
    { intros a b ca cb Lab Ea Eb Qab Na. apply C.
      assert (∀ k ck, body sh !! k = Some ck → rowEmail sh ck ≠ "" →
                dataObjects sh !! k = Some (dataStartRow sh + k, rowObject sh ck)) as DO.
      { intros k ck Ek Nk. apply (dataObjects_of_content sh k ck H_ALL.Email Ek).
        intros F. apply Nk. unfold rowEmail. by rewrite F. }
      exists b, (rowObject sh cb). split; [apply DO; [done|by rewrite <- Qab]|].
      split; [unfold objEmail; fold (rowEmail sh cb); by rewrite <- Qab|].
      split; [by apply (D a b ca cb)|].
      exists a, (dataStartRow sh + a), (rowObject sh ca).
      split; [done|]. split; [by apply DO|done]. }
    destruct (Nat.lt_trichotomy i j) as [Lt|[Eq|Gt]]; [|done|].
    - destruct Nj. by apply (Rep i j ci cj).
    - destruct Ni. apply (Rep j i cj ci); [done..|by rewrite <- Q]. }
  unfold enforceUniqueEmail_, getHeaderInfo. rewrite decide_True by done.
  unfold has. rewrite bool_decide_eq_true_2 by done. simpl.
  destruct (getLastRow sh <? dataStartRow sh) eqn:Last.
  - (* no data row: nothing is scanned, nothing can repeat *)
    split; [|done].
    apply Nat.ltb_lt in Last. unfold getLastRow, dataStartRow in Last.
    apply ByCells. intros i j ci cj Ei Ej Q N. destruct N.
    unfold rowEmail. rewrite fld_blank; [done|].
    apply (blank_beyond (body sh) i); [done|lia].
  - fold (clearEmails sh (rowsToClear sh rows)). split; [done|].
    intros i N. apply Keep. intros I. by apply N, Sub.
Qed.

End UniqueEmail_facts.


(** C5 (the defect).  Rows 2 and 3 carry the address a@x.com.  With row 2
    as the edited row the scan meets row 2 first, records its address, and
    leaves row 3 alone because row 3 was not edited: both rows keep the
    address, which is no longer unique.  With row 3 as the edited row the
    same repetition is cleared. *)
Theorem enforceUniqueEmail_keeps_repeat_below_edit :
  emailList c5_sheet = ["a@x.com"; "a@x.com"]
  ∧ emailList (enforceUniqueEmail_ c5_sheet [2]) = ["a@x.com"; "a@x.com"]
  ∧ ¬ emailsUnique (enforceUniqueEmail_ c5_sheet [2])
  ∧ emailList (enforceUniqueEmail_ c5_sheet [3]) = ["a@x.com"; ""].
Proof.
  assert (emailList (enforceUniqueEmail_ c5_sheet [2]) = ["a@x.com"; "a@x.com"]) as B
    by (vm_compute; reflexivity).
  split_and!; [by vm_compute|exact B| |by vm_compute].
  intros U. assert (0 = 1) as F; [|done].
  apply (U 0 1 "a@x.com"); by rewrite ?B.
Qed.

Lemma enforceUniqueEmail_unique_when_repeats_edited_witness :
  emailsUnique (enforceUniqueEmail_ c5_sheet_edited_last [4])
  ∧ (∀ i, dataStartRow c5_sheet_edited_last + i ∉ [4] →
          body (enforceUniqueEmail_ c5_sheet_edited_last [4]) !! i
          = body c5_sheet_edited_last !! i).
Proof.
  apply (enforceUniqueEmail_unique_when_repeats_edited c5_sheet_edited_last [4]).
  - vm_compute. reflexivity.
  - vm_compute. reflexivity.
  - assert (emailList c5_sheet_edited_last = ["a@x.com"; "b@x.com"; "a@x.com"]) as B
      by (vm_compute; reflexivity).
    rewrite B. intros i j e L Ei Ej N.
    destruct i as [|[|[|i]]], j as [|[|[|j]]]; try (exfalso; lia);
      try discriminate Ei; try discriminate Ej;
      injection Ei as <-; try discriminate Ej;
      apply list_elem_of_singleton; reflexivity.
Defined.

(** ** Normalising twice *)

Section Normalise_twice.


Lemma allChars_lower s : allChars (λ c, Ascii.eqb (Js.lower_char c) c) (Js.toLowerCase s) = true.
Proof.
  induction s as [|c s IH]; simpl; [done|].
  by rewrite lower_char_idem, Ascii.eqb_refl.
Qed.

Lemma allChars_split P sep s :
  allChars P s = true → Forall (λ p, allChars P p = true) (Js.split sep s).
Proof.
  induction s as [|c s IH]; simpl; [by repeat constructor|].
  intros [E1 E2]%andb_true_iff. specialize (IH E2).
  destruct (Ascii.eqb c sep); [by constructor|].
  destruct (Js.split sep s) as [|w ws]; [by repeat constructor; simpl; rewrite E1|].
  inversion_clear IH. constructor; [|done]. simpl. by rewrite E1.
Qed.

Lemma split_parts_no_sep sep s :
  Forall (λ p, Js.includes sep p = false) (Js.split sep s).
Proof.
  induction s as [|c s IH]; simpl; [by repeat constructor|].
  destruct (Ascii.eqb c sep) eqn:E; [by constructor|].
  destruct (Js.split sep s) as [|w ws]; [by repeat constructor; simpl; rewrite E|].
  inversion_clear IH. constructor; [|done]. simpl. by rewrite E.
Qed.

Lemma allChars_replaceAll P c s :
  allChars P s = true → allChars P (Js.replaceAll c "" s) = true.
Proof.
  induction s as [|d s IH]; simpl; [done|].
  intros [E1 E2]%andb_true_iff.
  destruct (Ascii.eqb d c); simpl; [auto|]. by rewrite E1, IH.
Qed.

Lemma allChars_hd P l :
  Forall (λ p, allChars P p = true) l → allChars P (hd "" l) = true.
Proof. by intros [|]. Qed.

Lemma allChars_trimStart P s :
  allChars P s = true → allChars P (Js.trimStart s) = true.
Proof.
  induction s as [|c s IH]; simpl; [done|].
  intros E. destruct (Js.is_ws c); [|done].
  apply andb_true_iff in E as [_ E]. auto.
Qed.

Lemma allChars_and P Q s :
  allChars P s = true → allChars Q s = true → allChars (λ c, P c && Q c) s = true.
Proof.
  induction s as [|c s IH]; simpl; [done|].
  intros [-> E1]%andb_true_iff [-> E2]%andb_true_iff. simpl. auto.
Qed.

Lemma allChars_not_includes d s :
  Js.includes d s = false → allChars (λ c, negb (Ascii.eqb c d)) s = true.
Proof.
  induction s as [|c s IH]; simpl; [done|].
  intros [-> E]%orb_false_iff. simpl. auto.
Qed.

Lemma allChars_impl (P Q : ascii → bool) s :
  (∀ c, P c = true → Q c = true) → allChars P s = true → allChars Q s = true.
Proof.
  intros I. induction s as [|c s IH]; simpl; [done|].
  intros [E1 E2]%andb_true_iff. by rewrite (I c E1), IH.
Qed.

Lemma plain_includes d s :
  (∀ c, plainChar c = true → Ascii.eqb c d = false) →
  allChars plainChar s = true → Js.includes d s = false.
Proof.
  intros I. induction s as [|c s IH]; simpl; [done|].
  intros [E1 E2]%andb_true_iff. by rewrite (I c E1), IH.
Qed.

Lemma plain_lower s : allChars plainChar s = true → Js.toLowerCase s = s.
Proof.
  induction s as [|c s IH]; simpl; [done|].
  intros [E1 E2]%andb_true_iff. rewrite (IH E2). f_equal.
  unfold plainChar in E1. apply andb_true_iff in E1 as [_ E1].
  by apply Ascii.eqb_eq.
Qed.

Lemma replaceAll_absent c s : Js.includes c s = false → Js.replaceAll c "" s = s.
Proof.
  induction s as [|d s IH]; simpl; [done|].
  intros [-> E]%orb_false_iff. by rewrite IH.
Qed.

Lemma toLowerCase_app a b :
  Js.toLowerCase (a +:+ b) = Js.toLowerCase a +:+ Js.toLowerCase b.
Proof.
  induction a as [|c a IH]; [done|].
  change (String c a +:+ b) with (String c (a +:+ b)). simpl. by rewrite IH.
Qed.

Lemma includes_app c a b :
  Js.includes c (a +:+ b) = Js.includes c a || Js.includes c b.
Proof.
  induction a as [|d a IH]; [done|].
  change (String d a +:+ b) with (String d (a +:+ b)). simpl.
  by rewrite IH, orb_assoc.
Qed.

Lemma trimStart_app a c t :
  Js.is_ws c = false →
  Js.trimStart (a +:+ String c t) = Js.trimStart a +:+ String c t.
Proof.
  intros W. induction a as [|d a IH]; [simpl; by rewrite W|].
  change (String d a +:+ String c t) with (String d (a +:+ String c t)). simpl.
  by destruct (Js.is_ws d).
Qed.

Lemma trimEnd_app a t :
  t ≠ "" → Js.trimEnd t = t → Js.trimEnd (a +:+ t) = a +:+ t.
Proof.
  intros N E. induction a as [|d a IH]; [done|].
  change (String d a +:+ t) with (String d (a +:+ t)). simpl. rewrite IH.
  destruct (a +:+ t) eqn:Q; [|done]. by destruct a, t.
Qed.

Lemma split_app_sep sep a b :
  Js.includes sep a = false →
  Js.split sep (a +:+ String sep b) = a :: Js.split sep b.
Proof.
  induction a as [|d a IH].
  - intros _. simpl. by rewrite Ascii.eqb_refl.
  - change (String d a +:+ String sep b) with (String d (a +:+ String sep b)).
    simpl. intros [-> E]%orb_false_iff. by rewrite (IH E).
Qed.

(** The result of a gmail folding, normalised again: only white space in
    front of the local part goes. *)
Lemma normEmail_s_folded c :
  allChars plainChar c = true →
  normEmail_s (c +:+ "@gmail.com") = Js.trimStart c +:+ "@gmail.com".
Proof.
  intros P.
  pose proof (allChars_trimStart _ _ P) as P'.
  assert (Js.toLowerCase (Js.trim (c +:+ "@gmail.com")) = Js.trimStart c +:+ "@gmail.com") as E.
  { unfold Js.trim. rewrite trimStart_app by done.
    rewrite trimEnd_app by done.
    by rewrite toLowerCase_app, (plain_lower _ P'). }
  unfold normEmail_s. rewrite E.
  assert (Js.includes "@" (Js.trimStart c) = false) as I1.
  { apply (plain_includes "@"); [|exact P'].
    intros x. destruct x as [[] [] [] [] [] [] [] []]; vm_compute; congruence. }
  assert (Js.includes "." (Js.trimStart c) = false) as I2.
  { apply (plain_includes "."); [|exact P'].
    intros x. destruct x as [[] [] [] [] [] [] [] []]; vm_compute; congruence. }
  assert (Js.includes "+" (Js.trimStart c) = false) as I3.
  { apply (plain_includes "+"); [|exact P'].
    intros x. destruct x as [[] [] [] [] [] [] [] []]; vm_compute; congruence. }
  rewrite includes_app. replace (Js.includes "@" "@gmail.com") with true by done.
  rewrite orb_true_r.
  assert (Js.nonempty (Js.trimStart c +:+ "@gmail.com") = true) as ->.
  { by destruct (Js.trimStart c). }
  cbn [negb orb].
  change ("@gmail.com") with (String "@" "gmail.com") at 1.
  rewrite split_app_sep by done.
  change (Js.split "@" "gmail.com") with ["gmail.com"].
  cbn [String.eqb]. change (String.eqb "gmail.com" "gmail.com") with true. 
  cbn [orb]. rewrite (replaceAll_absent _ _ I2), (split_no_sep _ _ I3). done.
Qed.

(** Either [normEmail] only trimmed and lower-cased, or it folded a gmail
    address to a plain local part at gmail.com. *)
Lemma normEmail_s_cases s :
  normEmail_s s = Js.toLowerCase (Js.trim s)
  ∨ ∃ c, allChars plainChar c = true ∧ normEmail_s s = c +:+ "@gmail.com".
Proof.
  unfold normEmail_s. set (e := Js.toLowerCase (Js.trim s)).
  destruct (negb (Js.nonempty e) || negb (Js.includes "@" e)); [by left|].
  destruct (Js.split "@" e) as [|loc [|domain [|x l]]] eqn:S; try by left.
  destruct (String.eqb domain "gmail.com" || String.eqb domain "googlemail.com");
    [|by left].
  right. eexists. split; [|done].
  assert (allChars (λ c, Ascii.eqb (Js.lower_char c) c) loc = true) as L.
  { pose proof (allChars_split _ "@" e (allChars_lower (Js.trim s))) as F.
    rewrite S in F. by inversion_clear F. }
  assert (Js.includes "@" loc = false) as A.
  { pose proof (split_parts_no_sep "@" e) as F. rewrite S in F. by inversion_clear F. }
  set (y := Js.replaceAll "." "" loc).
  assert (allChars (λ c, Ascii.eqb (Js.lower_char c) c) y = true) as Ly
    by (by apply allChars_replaceAll).
  assert (Js.includes "@" y = false) as Ay by (by apply includes_replaceAll_other).
  assert (Js.includes "." y = false) as Dy by apply includes_replaceAll_self.
  set (c := hd "" (Js.split "+" y)).
  assert (allChars (λ c, Ascii.eqb (Js.lower_char c) c) c = true) as Lc
    by (by apply allChars_hd, allChars_split).
  assert (Js.includes "@" c = false) as Ac by (by apply includes_hd_split_other).
  assert (Js.includes "." c = false) as Dc by (by apply includes_hd_split_other).
  assert (Js.includes "+" c = false) as Pc by apply includes_hd_split_sep.
  unfold plainChar.
  repeat apply allChars_and; try done; by apply allChars_not_includes.
Qed.

Lemma normEmail_s_thrice s :
  normEmail_s (normEmail_s (normEmail_s s)) = normEmail_s (normEmail_s s).
Proof.
  destruct (normEmail_s_cases s) as [E|(c & P & E)].
  - assert (normEmail_s (normEmail_s s) = normEmail_s s) as Q; [|by rewrite !Q].
    rewrite E at 1. apply normEmail_s_lower_trim.
  - rewrite E, !normEmail_s_folded, trimStart_idem; try done.
    by apply allChars_trimStart.
Qed.

Lemma normEmail_s_nonempty_twice s :
  normEmail_s s ≠ "" → normEmail_s (normEmail_s s) ≠ "".
Proof.
  destruct (normEmail_s_cases s) as [E|(c & P & E)].
  - assert (normEmail_s (normEmail_s s) = normEmail_s s) as Q; [|by rewrite !Q].
    rewrite E at 1. apply normEmail_s_lower_trim.
  - intros _. rewrite E, normEmail_s_folded by done.
    by destruct (Js.trimStart c).
Qed.

End Normalise_twice.

(** ** The indices *)

Section Index_facts.
Context `{DateRender} `{UpperFirst}.


Lemma foldl_step {A B} (f : A → B → A) a x l :
  foldl f a (x :: l) = foldl f (f a x) l.
Proof. done. Qed.

Lemma normEmail_nonempty_twice v :
  normEmail v ≠ "" → normEmail (VStr (normEmail v)) ≠ "".
Proof. apply normEmail_s_nonempty_twice. Qed.

Lemma candidateIndexStep_eq now acc r obj :
  candidateIndexStep now acc (r, obj) =
  match candKey obj with
  | Some k => (<[k := r]> acc.1, acc.2 ++ [(r, obj)])
  | None => acc
  end.
Proof.
  unfold candidateIndexStep, candKey, hasIdentity, objKey, objJobId, objEmail.
  destruct (_ || _) eqn:E; [|done].
  rewrite keyFor_composite; simpl String_; rewrite trim_idem; [done|].
  apply orb_true_iff in E as [E|E]; [by rewrite E|].
  apply orb_true_iff. right. apply nonempty_true, normEmail_nonempty_twice.
  by apply nonempty_true.
Qed.

Lemma buildCandidateIndex_fold now sh :
  buildCandidateIndex now sh =
  (indexFold candKey ∅ (dataObjects sh),
   filter (λ e, is_Some (candKey e.2)) (dataObjects sh)).
Proof.
  unfold buildCandidateIndex, indexFold.
  enough (∀ entries acc,
            foldl (candidateIndexStep now) acc entries =
            (foldl (λ m e, match candKey e.2 with
                           | Some k => <[k := e.1]> m | None => m end) acc.1 entries,
             acc.2 ++ filter (λ e, is_Some (candKey e.2)) entries)) as G
    by apply G.
  induction entries as [|[r obj] entries IH]; intros [m l].
  - simpl. by rewrite app_nil_r.
  - rewrite !foldl_step, IH, candidateIndexStep_eq.
    rewrite filter_cons. simpl. destruct (candKey obj); simpl; [|done].
    by rewrite <- app_assoc.
Qed.

Lemma buildReqIndex_fold sh :
  (buildReqIndex sh).1 = indexFold reqKey ∅ (dataObjects sh).
Proof.
  unfold buildReqIndex, indexFold.
  enough (∀ entries acc,
            (foldl reqIndexStep acc entries).1 =
            foldl (λ m e, match reqKey e.2 with
                          | Some k => <[k := e.1]> m | None => m end) acc.1 entries) as G
    by apply G.
  induction entries as [|[r obj] entries IH]; intros [m l]; [done|].
  rewrite !foldl_step, IH. unfold reqIndexStep, reqKey. simpl.
  by destruct (Js.nonempty _).
Qed.

Lemma indexFold_lookup kf entries m k r :
  indexFold kf m entries !! k = Some r →
  m !! k = Some r ∨ ∃ j obj, entries !! j = Some (r, obj) ∧ kf obj = Some k.
Proof.
  revert m. induction entries as [|[r0 o0] entries IH]; intros m; [by left|].
  unfold indexFold. simpl. intros E. apply IH in E as [E|(j & obj & E & K)].
  - destruct (kf o0) as [k0|] eqn:K0; [|by left].
    destruct (decide (k0 = k)) as [->|N].
    + rewrite lookup_insert_eq in E. injection E as ->. right. by exists 0, o0.
    + rewrite lookup_insert_ne in E by done. by left.
  - right. by exists (S j), obj.
Qed.

Lemma indexFold_mono kf entries m k :
  is_Some (m !! k) → is_Some (indexFold kf m entries !! k).
Proof.
  revert m. induction entries as [|[r0 o0] entries IH]; intros m; [done|].
  intros S. unfold indexFold. simpl. apply IH.
  destruct (kf o0) as [k0|]; [|done]. rewrite lookup_insert_is_Some.
  destruct (decide (k0 = k)); [by left|by right].
Qed.

Lemma indexFold_is_Some kf entries m k r obj :
  (r, obj) ∈ entries → kf obj = Some k → is_Some (indexFold kf m entries !! k).
Proof.
  revert m. induction entries as [|[r0 o0] entries IH]; intros m I K.
  - by apply elem_of_nil in I.
  - unfold indexFold. simpl. apply elem_of_cons in I as [[= <- <-]|I].
    + apply indexFold_mono. rewrite K. rewrite lookup_insert_eq. by eexists.
    + by apply IH.
Qed.

(** With one entry per key, the index returns the row of that entry. *)
Lemma indexFold_unique kf entries k j r obj :
  (∀ i i' e e' k', entries !! i = Some e → entries !! i' = Some e' →
                   kf e.2 = Some k' → kf e'.2 = Some k' → i = i') →
  entries !! j = Some (r, obj) → kf obj = Some k →
  indexFold kf ∅ entries !! k = Some r.
Proof.
  intros U E K.
  destruct (indexFold_is_Some kf entries ∅ k r obj) as [r' L]; [|done|].
  { by apply list_elem_of_lookup_2 in E. }
  rewrite L. f_equal.
  apply indexFold_lookup in L as [L|(j' & obj' & E' & K')]; [by rewrite lookup_empty in L|].
  assert (j' = j) as -> by (by apply (U j' j (r', obj') (r, obj) k)).
  congruence.
Qed.

End Index_facts.

(** ** The hired flow *)

Ltac decide_headers :=
  repeat match goal with
    | |- context [bool_decide (?a = ?b)] =>
        let v := eval vm_compute in (bool_decide (a = b)) in
        change (bool_decide (a = b)) with v
    end.

Section HiredFlow_facts.
Context `{DateRender} `{UpperFirst}.

Lemma reqStatusUpdates_Hired hmReq now obj :
  _normStr_ (fld obj H_REQ.JobStatus) = "Hired" →
  reqStatusUpdates hmReq now obj !! H_REQ.JobStatus = None
  ∧ reqStatusUpdates hmReq now obj !! H_REQ.HiredCandidateName = None.
Proof.
  intros E. unfold reqStatusUpdates. rewrite E.
  change (String.eqb "Hired" "Open") with false.
  change (String.eqb "Hired" "On Hold") with false.
  change (String.eqb "Hired" "Closed") with false.
  change (String.eqb "Hired" "Hired") with true.
  cbv beta iota. rewrite !lookup_putIf. decide_headers.
  rewrite !andb_false_r. cbn [negb andb]. by rewrite lookup_empty.
Qed.

Lemma reqIndex_row sh k r :
  (buildReqIndex sh).1 !! k = Some r →
  dataStartRow sh ≤ r ∧ k ≠ "".
Proof.
  rewrite buildReqIndex_fold. intros [E|(j & obj & E & K)]%indexFold_lookup.
  { by rewrite lookup_empty in E. }
  apply dataObjects_lookup in E as (_ & -> & _). split; [lia|].
  unfold reqKey in K. destruct (Js.nonempty _) eqn:N; [|done].
  injection K as <-. by apply nonempty_true.
Qed.

(** The requisition half: the indexed row of the job ends Hired, with the
    name of the hired candidate. *)
Lemma hiredFlowRequisition_spec now jobId hiredFullName req reqRow :
  ANCHOR_HEADER_REQ ∈ hm req → H_REQ.JobStatus ∈ hm req →
  H_REQ.HiredCandidateName ∈ hm req →
  (buildReqIndex req).1 !! jobId = Some reqRow →
  hiredFullName ≠ "" →
  (_canonReqStatus_ (fld (getRowObjectByHeaders req reqRow) H_REQ.JobStatus) = "Hired" →
   _normStr_ (fld (getRowObjectByHeaders req reqRow) H_REQ.JobStatus) = "Hired") →
  let req' := hiredFlowRequisition now jobId hiredFullName req in
  _normStr_ (fld (getRowObjectByHeaders req' reqRow) H_REQ.JobStatus) = "Hired"
  ∧ _normStr_ (fld (getRowObjectByHeaders req' reqRow) H_REQ.HiredCandidateName)
    = Js.trim hiredFullName.
Proof.
  intros A S Nm I Nf Canon req'.
  destruct (reqIndex_row _ _ _ I) as [L _].
  subst req'. unfold hiredFlowRequisition, getHeaderInfo.
  rewrite decide_True by done. rewrite I.
  set (reqObj := getRowObjectByHeaders req reqRow) in *.
  assert (Js.nonempty hiredFullName = true) as -> by (by apply nonempty_true).
  change (_normStr_ (VStr hiredFullName)) with (Js.trim hiredFullName).
  cbn [andb].
  set (c1 := negb (String.eqb (_canonReqStatus_ (fld reqObj H_REQ.JobStatus)) "Hired")).
  set (c2 := negb (String.eqb (_normStr_ (fld reqObj H_REQ.HiredCandidateName))
                              (Js.trim hiredFullName))).
  set (updates := putIf c2 _ _ _).
  assert (_normStr_ (default (fld reqObj H_REQ.JobStatus) (updates !! H_REQ.JobStatus))
          = "Hired") as S1.
  { subst updates. rewrite !lookup_putIf. decide_headers. rewrite andb_false_r, andb_true_r.
    destruct c1 eqn:C1; [done|]. rewrite lookup_empty. simpl.
    apply Canon. subst c1. apply negb_false_iff in C1. by apply String.eqb_eq. }
  assert (_normStr_ (default (fld reqObj H_REQ.HiredCandidateName)
                             (updates !! H_REQ.HiredCandidateName))
          = Js.trim hiredFullName) as N1.
  { subst updates. rewrite !lookup_putIf. decide_headers. rewrite andb_true_r.
    destruct c2 eqn:C2; [done|]. rewrite andb_false_r, lookup_empty. simpl.
    subst c2. apply negb_false_iff in C2. by apply String.eqb_eq. }
  unfold isEmptyObj. case_bool_decide as Em.
  { rewrite Em, lookup_empty in S1, N1. done. }
  set (req1 := setRowValuesByHeaders req reqRow updates).
  assert (hm req1 = hm req) as M1 by apply hm_setRowValuesByHeaders.
  assert (dataStartRow req1 = dataStartRow req) as D1
    by apply dataStartRow_setRowValuesByHeaders.
  unfold applyReqStatusTransitionsForRows_, getHeaderInfo.
  rewrite decide_True by (by rewrite M1). simpl.
  assert (_normStr_ (fld (getRowObjectByHeaders req1 reqRow) H_REQ.JobStatus) = "Hired")
    as S2.
  { unfold req1. rewrite fld_get_set by done. by rewrite decide_True. }
  destruct (reqStatusUpdates_Hired (hm req1) now _ S2) as [U1 U2].
  rewrite !fld_reqTransitionRow by (by rewrite ?M1, ?D1).
  rewrite U1, U2. simpl. split; [done|].
  unfold req1. rewrite fld_get_set by done. by rewrite decide_True.
Qed.

(** A status that is Hired only up to case and blanks: the engine takes none
    of its four branches and clears the hired name when there is one. *)
Lemma reqStatusUpdates_other_spelling hmReq now obj :
  _canonReqStatus_ (fld obj H_REQ.JobStatus) = "Hired" →
  _normStr_ (fld obj H_REQ.JobStatus) ≠ "Hired" →
  reqStatusUpdates hmReq now obj
  = putIf (bool_decide (H_REQ.HiredCandidateName ∈ hmReq)
           && truthy (fld obj H_REQ.HiredCandidateName))
          H_REQ.HiredCandidateName (VStr "") ∅.
Proof.
  intros C N. unfold reqStatusUpdates.
  unfold _canonReqStatus_ in C.
  set (s := _normStr_ (fld obj H_REQ.JobStatus)) in *.
  destruct (String.eqb_spec s "Open") as [E|_].
  { rewrite E in C. vm_compute in C. discriminate C. }
  destruct (String.eqb_spec s "On Hold") as [E|_].
  { rewrite E in C. vm_compute in C. discriminate C. }
  destruct (String.eqb_spec s "Closed") as [E|_].
  { rewrite E in C. vm_compute in C. discriminate C. }
  destruct (String.eqb_spec s "Hired") as [E|_]; [done|].
  done.
Qed.

(** The requisition half under another spelling of Hired: the status cell is
    left as typed, the name is written and the engine clears it. *)
Lemma hiredFlowRequisition_other_spelling now jobId hiredFullName req reqRow :
  ANCHOR_HEADER_REQ ∈ hm req → H_REQ.JobStatus ∈ hm req →
  H_REQ.HiredCandidateName ∈ hm req →
  (buildReqIndex req).1 !! jobId = Some reqRow →
  hiredFullName ≠ "" →
  _canonReqStatus_ (fld (getRowObjectByHeaders req reqRow) H_REQ.JobStatus) = "Hired" →
  _normStr_ (fld (getRowObjectByHeaders req reqRow) H_REQ.JobStatus) ≠ "Hired" →
  _normStr_ (fld (getRowObjectByHeaders req reqRow) H_REQ.HiredCandidateName)
    ≠ Js.trim hiredFullName →
  let req' := hiredFlowRequisition now jobId hiredFullName req in
  fld (getRowObjectByHeaders req' reqRow) H_REQ.JobStatus
  = fld (getRowObjectByHeaders req reqRow) H_REQ.JobStatus
  ∧ fld (getRowObjectByHeaders req' reqRow) H_REQ.HiredCandidateName = VStr "".
Proof.
  intros A S Nm I Nf Canon Raw Other req'.
  destruct (reqIndex_row _ _ _ I) as [L _].
  subst req'. unfold hiredFlowRequisition, getHeaderInfo.
  rewrite decide_True by done. rewrite I.
  set (reqObj := getRowObjectByHeaders req reqRow) in *.
  assert (Js.nonempty hiredFullName = true) as -> by (by apply nonempty_true).
  change (_normStr_ (VStr hiredFullName)) with (Js.trim hiredFullName).
  rewrite Canon. change (negb (String.eqb "Hired" "Hired")) with false.
  apply String.eqb_neq in Other. rewrite Other. cbn [andb negb].
  set (updates := putIf true _ _ (putIf false _ _ ∅)).
  assert (updates = <[H_REQ.HiredCandidateName := VStr hiredFullName]> ∅) as EU
    by reflexivity.
  unfold isEmptyObj. rewrite bool_decide_eq_false_2
    by (rewrite EU; apply insert_non_empty).
  set (req1 := setRowValuesByHeaders req reqRow updates).
  assert (hm req1 = hm req) as M1 by apply hm_setRowValuesByHeaders.
  assert (dataStartRow req1 = dataStartRow req) as D1
    by apply dataStartRow_setRowValuesByHeaders.
  unfold applyReqStatusTransitionsForRows_, getHeaderInfo.
  rewrite decide_True by (by rewrite M1). simpl.
  assert (fld (getRowObjectByHeaders req1 reqRow) H_REQ.JobStatus
          = fld reqObj H_REQ.JobStatus) as S2.
  { unfold req1. rewrite fld_get_set by done. rewrite decide_True by done.
    rewrite EU. by rewrite lookup_insert_ne. }
  assert (fld (getRowObjectByHeaders req1 reqRow) H_REQ.HiredCandidateName
          = VStr hiredFullName) as N2.
  { unfold req1. rewrite fld_get_set by done. rewrite decide_True by done.
    rewrite EU. by rewrite lookup_insert_eq. }
  rewrite !fld_reqTransitionRow by (by rewrite ?M1, ?D1).
  rewrite reqStatusUpdates_other_spelling by (by rewrite S2).
  rewrite !lookup_putIf, M1, N2. rewrite bool_decide_eq_true_2 by done.
  cbn [truthy]. apply nonempty_true in Nf. rewrite Nf. cbn [andb].
  rewrite (bool_decide_eq_false_2 (H_REQ.HiredCandidateName = H_REQ.JobStatus)) by done.
  rewrite bool_decide_eq_true_2 by done. by rewrite lookup_empty.
Qed.


Lemma hiredFlowRejectStep_eq now jobId hiredEmail all row data :
  hiredFlowRejectStep now jobId hiredEmail all (row, data) =
  if isRival jobId hiredEmail data
  then setRowValuesByHeaders all row (rejectionUpdates now) else all.
Proof.
  unfold hiredFlowRejectStep, isRival.
  destruct (String.eqb (_normStr_ _) jobId), (negb (String.eqb (normEmail _) _)); simpl;
    try done.
Qed.

Lemma reject_fold_shape now jobId hiredEmail entries all :
  let all' := foldl (hiredFlowRejectStep now jobId hiredEmail) all entries in
  hm all' = hm all ∧ dataStartRow all' = dataStartRow all.
Proof.
  revert all. induction entries as [|[r o] entries IH]; intros all; [done|].
  rewrite foldl_step. destruct (IH (hiredFlowRejectStep now jobId hiredEmail all (r, o)))
    as [M D].
  cbv zeta in M, D. cbv zeta. rewrite M, D, hiredFlowRejectStep_eq.
  destruct (isRival _ _ _); [|done].
  by rewrite hm_setRowValuesByHeaders, dataStartRow_setRowValuesByHeaders.
Qed.

Lemma reject_fold_keeps now jobId hiredEmail entries all r h v :
  dataStartRow all ≤ r → h ∈ hm all → rejectionUpdates now !! h = Some v →
  fld (getRowObjectByHeaders all r) h = v →
  fld (getRowObjectByHeaders
         (foldl (hiredFlowRejectStep now jobId hiredEmail) all entries) r) h = v.
Proof.
  revert all. induction entries as [|[r0 o0] entries IH]; intros all L I U E; [done|].
  rewrite foldl_step, hiredFlowRejectStep_eq.
  destruct (isRival _ _ _); [|by apply IH].
  apply IH; rewrite ?hm_setRowValuesByHeaders, ?dataStartRow_setRowValuesByHeaders;
    try done.
  destruct (decide (r = r0)) as [->|N].
  - rewrite fld_get_set by done. by rewrite decide_True, U.
  - by rewrite get_set_other.
Qed.

Lemma reject_fold_writes now jobId hiredEmail entries all r o h v :
  (r, o) ∈ entries → isRival jobId hiredEmail o = true →
  dataStartRow all ≤ r → h ∈ hm all → rejectionUpdates now !! h = Some v →
  fld (getRowObjectByHeaders
         (foldl (hiredFlowRejectStep now jobId hiredEmail) all entries) r) h = v.
Proof.
  revert all. induction entries as [|[r0 o0] entries IH]; intros all In R L I U.
  { by apply elem_of_nil in In. }
  rewrite foldl_step.
  apply elem_of_cons in In as [[= <- <-]|In].
  - rewrite hiredFlowRejectStep_eq, R.
    apply reject_fold_keeps;
      rewrite ?hm_setRowValuesByHeaders, ?dataStartRow_setRowValuesByHeaders; try done.
    rewrite fld_get_set by done. by rewrite decide_True, U.
  - destruct (reject_fold_shape now jobId hiredEmail [(r0, o0)] all) as [M D].
    cbv zeta in M, D. rewrite foldl_step in M, D. change (foldl _ ?a []) with a in M, D.
    apply IH; by rewrite ?M, ?D.
Qed.

Lemma reject_fold_untouched now jobId hiredEmail entries all i :
  (∀ r o, (r, o) ∈ entries → isRival jobId hiredEmail o = true →
          dataStartRow all ≤ r ∧ r - dataStartRow all < length (body all)
          ∧ r ≠ dataStartRow all + i) →
  body (foldl (hiredFlowRejectStep now jobId hiredEmail) all entries) !! i
  = body all !! i.
Proof.
  revert all. induction entries as [|[r0 o0] entries IH]; intros all R; [done|].
  rewrite foldl_step, hiredFlowRejectStep_eq.
  destruct (isRival jobId hiredEmail o0) eqn:Riv.
  - destruct (R r0 o0) as (L1 & L2 & N); [by left|done|].
    rewrite IH.
    + rewrite body_setRowValuesByHeaders_in_range by done.
      apply list_lookup_alter_ne. lia.
    + intros r o In Rv. rewrite dataStartRow_setRowValuesByHeaders.
      rewrite body_setRowValuesByHeaders_in_range, length_alter by done.
      apply (R r o); [by right|done].
  - apply IH. intros r o In Rv. apply (R r o); [by right|done].
Qed.

Lemma candidateRows_entry now (all : sheet) r o :
  (r, o) ∈ (buildCandidateIndex now all).2 →
  ∃ j c, r = dataStartRow all + j ∧ j < length (body all)
         ∧ body all !! j = Some c ∧ o = rowObject all c.
Proof.
  rewrite buildCandidateIndex_fold. cbn [snd].
  intros [_ (j & E)%list_elem_of_lookup]%list_elem_of_filter.
  apply dataObjects_lookup in E as (L & -> & c & E & ->).
  exists j, c. split_and!; try done. by apply lookup_lt_Some in E.
Qed.

Lemma candidateRows_of_job now (all : sheet) j c :
  body all !! j = Some c → objJobId (rowObject all c) ≠ "" →
  (dataStartRow all + j, rowObject all c) ∈ (buildCandidateIndex now all).2.
Proof.
  intros E N. rewrite buildCandidateIndex_fold. cbn [snd].
  apply list_elem_of_filter. split.
  - cbn [snd]. unfold candKey, hasIdentity. apply nonempty_true in N. by rewrite N.
  - apply list_elem_of_lookup. exists j.
    apply (dataObjects_of_content all j c H_ALL.JobID E).
    intros Q. apply N. unfold objJobId. by rewrite Q.
Qed.

(** X29. The hired flow, for a job whose requisition is indexed at [reqRow]
    and a hired candidate with a name.  When the status of the requisition
    is not Hired yet, or is spelled Hired exactly as the transition engine
    reads it, the requisition ends with status Hired and the name of the
    hired candidate.  When the status is Hired under another spelling
    (canonically Hired, not the text Hired) and the stored name is not yet
    that of the hired candidate, the status cell stays as typed and the name
    is empty afterwards: the flow writes it and the transition engine clears
    it.  In every case, every other candidate of the job who is neither Hired
    nor Rejected ends Rejected with the reason Hired a Different Candidate
    and the time of the run as update stamp, and the row of the hired
    candidate (any row with the hired e-mail) is left as it was. *)
Theorem hired_flow_fills_and_rejects now (w : world)
    (jobId hiredFullName hiredEmail : string) (reqRow : nat) :
  w_processingHiredFlow w = false →
  ANCHOR_HEADER_REQ ∈ hm (w_req w) → H_REQ.JobStatus ∈ hm (w_req w) →
  H_REQ.HiredCandidateName ∈ hm (w_req w) →
  (buildReqIndex (w_req w)).1 !! jobId = Some reqRow →
  hiredFullName ≠ "" →
  ANCHOR_HEADER_ALL ∈ hm (w_all w) → H_ALL.Stage ∈ hm (w_all w) →
  H_ALL.RejectedReason ∈ hm (w_all w) → H_ALL.Updated ∈ hm (w_all w) →
  let w' := applyHiredFlow_ now jobId hiredFullName hiredEmail w in
  let all := w_all w in
  let reqObj := getRowObjectByHeaders (w_req w) reqRow in
  let reqObj' := getRowObjectByHeaders (w_req w') reqRow in
  ((_canonReqStatus_ (fld reqObj H_REQ.JobStatus) = "Hired" →
    _normStr_ (fld reqObj H_REQ.JobStatus) = "Hired") →
   _normStr_ (fld reqObj' H_REQ.JobStatus) = "Hired"
   ∧ _normStr_ (fld reqObj' H_REQ.HiredCandidateName) = Js.trim hiredFullName)
  ∧ (_canonReqStatus_ (fld reqObj H_REQ.JobStatus) = "Hired" →
     _normStr_ (fld reqObj H_REQ.JobStatus) ≠ "Hired" →
     _normStr_ (fld reqObj H_REQ.HiredCandidateName) ≠ Js.trim hiredFullName →
     fld reqObj' H_REQ.JobStatus = fld reqObj H_REQ.JobStatus
     ∧ fld reqObj' H_REQ.HiredCandidateName = VStr "")
  ∧ (∀ i c, body all !! i = Some c →
       _normStr_ (fld (rowObject all c) H_ALL.JobID) = jobId →
       normEmail (fld (rowObject all c) H_ALL.Email) ≠ hiredEmail →
       _normStr_ (fld (rowObject all c) H_ALL.Stage) ≠ "Hired" →
       _normStr_ (fld (rowObject all c) H_ALL.Stage) ≠ "Rejected" →
       let after := getRowObjectByHeaders (w_all w') (dataStartRow all + i) in
       fld after H_ALL.Stage = VStr "Rejected"
       ∧ fld after H_ALL.RejectedReason = VStr "Hired a Different Candidate"
       ∧ fld after H_ALL.Updated = VDate now)
  ∧ (∀ i c, body all !! i = Some c →
       normEmail (fld (rowObject all c) H_ALL.Email) = hiredEmail →
       body (w_all w') !! i = Some c).
Proof.
  intros F A S Nm I Nf A' St Rr Up w' all reqObj reqObj'.
  subst reqObj reqObj' w'. unfold applyHiredFlow_. rewrite F. cbn [w_req w_all].
  split; [intros Canon; by apply hiredFlowRequisition_spec|].
  split; [intros Canon Raw Other; by apply hiredFlowRequisition_other_spelling|].
  unfold hiredFlowRejectOthers, getHeaderInfo. rewrite decide_True by done.
  fold all. destruct (reqIndex_row _ _ _ I) as [_ Nj].
  split.
  - intros i c E J Em S1 S2.
    assert (isRival jobId hiredEmail (rowObject all c) = true) as Riv.
    { unfold isRival. rewrite J, String.eqb_refl.
      apply String.eqb_neq in Em, S1, S2. by rewrite Em, S1, S2. }
    assert ((dataStartRow all + i, rowObject all c) ∈ (buildCandidateIndex now all).2)
      as In.
    { apply candidateRows_of_job; [done|]. unfold objJobId. unfold _normStr_ in J.
      by rewrite J. }
    split_and!; eapply reject_fold_writes; try done; try lia.
  - intros i c E Em. rewrite <- E. apply reject_fold_untouched.
    intros r o (j & c' & -> & L & E' & ->)%candidateRows_entry Riv.
    split_and!; [lia|lia|]. intros Q.
    assert (j = i) as -> by lia. assert (c' = c) as -> by congruence.
    unfold isRival in Riv. apply String.eqb_eq in Em.
    rewrite Em, andb_false_r in Riv. done.
Qed.

End HiredFlow_facts.


Lemma hired_flow_fills_and_rejects_witness :
  let w' := applyHiredFlow_ 50 "2025-0001" "Ann Lee" "a@x.com" c4_world in
  (_normStr_ (fld (getRowObjectByHeaders (w_req w') 2) H_REQ.JobStatus) = "Hired"
   ∧ _normStr_ (fld (getRowObjectByHeaders (w_req w') 2) H_REQ.HiredCandidateName)
     = "Ann Lee")
  ∧ (fld (getRowObjectByHeaders (w_all w') 3) H_ALL.Stage = VStr "Rejected"
     ∧ fld (getRowObjectByHeaders (w_all w') 3) H_ALL.RejectedReason
       = VStr "Hired a Different Candidate"
     ∧ fld (getRowObjectByHeaders (w_all w') 3) H_ALL.Updated = VDate 50)
  ∧ body (w_all w') !! 0 = Some (candidate "Ann Lee" "2025-0001" "a@x.com" "Hired").
Proof.
  destruct (hired_flow_fills_and_rejects 50 c4_world "2025-0001" "Ann Lee" "a@x.com" 2)
    as (R & _ & Riv & Unt); try compute_done.
  split; [apply R; intros C; vm_compute in C; discriminate C|]. split.
  - apply (Riv 1 _ eq_refl); vm_compute; congruence.
  - apply (Unt 0 _ eq_refl). vm_compute. reflexivity.
Defined.

(** C4 (the defect).  The scenario of the claim with the status of
    requisition 2025-0001 typed hired, in lower case, which
    [_canonReqStatus_] reads as Hired: the flow leaves the status as typed
    and writes the name of Ann; the transition engine, which compares the
    typed status with the text Hired, clears the name again.  The
    requisition ends without the name of the hired candidate, while Bob is
    rejected all the same.  With the requisition Open, the same run ends
    with status Hired and the name of Ann. *)
Theorem hired_flow_loses_name_of_respelled_status :
  let w := c4_world_respelled in
  let w' := applyHiredFlow_ 50 "2025-0001" "Ann Lee" "a@x.com" w in
  let reqObj' := getRowObjectByHeaders (w_req w') 2 in
  let reqOpen' :=
    getRowObjectByHeaders
      (w_req (applyHiredFlow_ 50 "2025-0001" "Ann Lee" "a@x.com" c4_world)) 2 in
  _canonReqStatus_ (fld (getRowObjectByHeaders (w_req w) 2) H_REQ.JobStatus) = "Hired"
  ∧ fld reqObj' H_REQ.JobStatus = VStr "hired"
  ∧ fld reqObj' H_REQ.HiredCandidateName = VStr ""
  ∧ fld (getRowObjectByHeaders (w_all w') 3) H_ALL.Stage = VStr "Rejected"
  ∧ fld reqOpen' H_REQ.JobStatus = VStr "Hired"
  ∧ fld reqOpen' H_REQ.HiredCandidateName = VStr "Ann Lee".
Proof. vm_compute. by split_and!. Qed.

(** ** Reconciling twice *)


(** C2. A second full reconciliation right after a first one is not free of
    writes: the address of Ann, typed Ann@x.com in the candidate sheet, reads
    ann@x.com in Active (the label of the mailto link), so the second run finds
    a non-empty difference in the e-mail field and writes the row of Active
    again; and so does a third run. *)
Theorem reconcile_twice_rewrites_email :
  let first := reconcileActiveMembership_All_ 100 c2_world in
  let second := reconcileActiveMembership_All_ 200 first.1 in
  let third := reconcileActiveMembership_All_ 300 second.1 in
  fieldWrites SHEET_ACTIVE second.2 = [(2, [(H_ACT.Email, "Ann@x.com")])]
  ∧ fieldWrites SHEET_ACTIVE third.2 = [(2, [(H_ACT.Email, "Ann@x.com")])].
Proof. vm_compute. split; reflexivity. Qed.

(** ** Reconciliation of Active *)

Section Status_canon.
Context `{DateRender} `{UpperFirst}.

Lemma trimStart_head s c r : Js.trimStart s = String c r → Js.is_ws c = false.
Proof.
  induction s as [|d s IH]; simpl; [done|].
  destruct (Js.is_ws d) eqn:W; [done|]. by intros [= <- _].
Qed.

Lemma trimEnd_cons_nonws a s :
  Js.is_ws a = false → Js.trimEnd (String a s) = String a (Js.trimEnd s).
Proof. intros W. simpl. destruct (Js.trimEnd s); by rewrite ?W. Qed.


Lemma is_ascii_lower c : Js.is_ascii (Js.lower_char c) = Js.is_ascii c.
Proof. by destruct c as [[] [] [] [] [] [] [] []]. Qed.

Lemma upper_lower_O c :
  Js.upper_char (Js.lower_char c) = "O"%char → Js.lower_char c = "o"%char.
Proof. destruct c as [[] [] [] [] [] [] [] []]; vm_compute; congruence. Qed.

(** A trimmed, lower-cased status that begins in ASCII is found again under
    its capital. *)
Lemma capitalize_lower_trim x :
  beginsAscii (Js.trim x) = true →
  Js.toLowerCase (Js.trim (capitalize (Js.toLowerCase (Js.trim x))))
  = Js.toLowerCase (Js.trim x).
Proof.
  intros A.
  assert (Js.trimStart (Js.trim x) = Js.trim x) as S by apply trimStart_trimEnd.
  assert (Js.trimEnd (Js.trim x) = Js.trim x) as E by apply trimEnd_idem.
  destruct (Js.trim x) as [|c r]; [done|].
  assert (Js.is_ws c = false) as W by (by apply (trimStart_head _ c r S)).
  rewrite trimEnd_cons_nonws in E by done. injection E as E.
  simpl Js.toLowerCase at 2. cbn [capitalize]. cbn [beginsAscii] in A.
  rewrite is_ascii_lower, A. unfold Js.trim.
  simpl Js.trimStart. rewrite is_ws_upper_lower, W.
  rewrite trimEnd_cons_nonws by (by rewrite is_ws_upper_lower).
  rewrite trimEnd_lower, E. simpl.
  by rewrite lower_upper_char, toLowerCase_idem.
Qed.

(** The capital of a lower-cased text other than open and on hold is not an
    open status, neither as it is nor trimmed and lower-cased again. *)
Lemma capitalize_not_open x :
  let s := Js.toLowerCase (Js.trim x) in
  s ≠ "open" → s ≠ "on hold" →
  (capitalize s ≠ "Open" ∧ capitalize s ≠ "On Hold")
  ∧ (Js.toLowerCase (Js.trim (capitalize s)) ≠ "open"
     ∧ Js.toLowerCase (Js.trim (capitalize s)) ≠ "on hold").
Proof.
  intros s N1 N2.
  destruct (beginsAscii (Js.trim x)) eqn:A.
  { split; [|subst s; by rewrite capitalize_lower_trim].
    subst s. destruct (Js.trim x) as [|c r]; [done|].
    cbn [Js.toLowerCase capitalize] in *. cbn [beginsAscii] in A.
    rewrite is_ascii_lower, A.
    split; intros [= U R]; apply upper_lower_O in U;
      apply (f_equal Js.toLowerCase) in R; rewrite toLowerCase_idem in R;
      [apply N1|apply N2]; rewrite U, R; reflexivity. }
  subst s. destruct (Js.trim x) as [|c r]; [done|].
  cbn [Js.toLowerCase capitalize] in *. cbn [beginsAscii] in A.
  rewrite is_ascii_lower, A.
  destruct (upperFirst (String (Js.lower_char c) (Js.toLowerCase r)))
    as [|c' r'] eqn:U; [done|].
  apply upperFirst_head in U as [W O]; [|by rewrite is_ascii_lower].
  split; [split; intros [= -> _]; by apply O|].
  unfold Js.trim. cbn [Js.trimStart]. rewrite W, trimEnd_cons_nonws by done.
  cbn [Js.toLowerCase]. split; intros [= E _]; by apply O.
Qed.

(** A status is open for Active exactly when, trimmed and lower-cased, it
    reads open or on hold. *)
Lemma _isOpenForActive__spec v :
  _isOpenForActive_ v = true
  ↔ Js.toLowerCase (Js.trim (String_ v)) = "open"
    ∨ Js.toLowerCase (Js.trim (String_ v)) = "on hold".
Proof.
  unfold _isOpenForActive_, _canonReqStatus_, _normStr_.
  set (s := Js.toLowerCase (Js.trim (String_ v))).
  destruct (String.eqb_spec s "open") as [->|N1]; [by split; [left|]|].
  destruct (String.eqb_spec s "on hold") as [->|N2]; [by split; [right|]|].
  split; [|by intros [|]].
  destruct (Js.nonempty s); [|done]. cbn [negb orb].
  destruct (String.eqb s "closed"); [done|].
  destruct (String.eqb s "pending approval"); [done|].
  destruct (String.eqb s "hired"); [done|].
  destruct (capitalize_not_open (String_ v) N1 N2) as [[C1 C2] _]. fold s in C1, C2.
  apply String.eqb_neq in C1, C2. by rewrite C1, C2.
Qed.

Lemma _isOpenForActive__canon v :
  _isOpenForActive_ (VStr (_canonReqStatus_ v)) = _isOpenForActive_ v.
Proof.
  apply eq_true_iff_eq. rewrite !_isOpenForActive__spec.
  change (String_ (VStr ?t)) with t.
  unfold _canonReqStatus_, _normStr_.
  set (s := Js.toLowerCase (Js.trim (String_ v))).
  destruct (String.eqb_spec s "open") as [E1|N1].
  { rewrite E1. cbn. tauto. }
  destruct (String.eqb_spec s "on hold") as [E2|N2].
  { rewrite E2. cbn. tauto. }
  cbn [orb].
  destruct (Js.nonempty s); cbn [negb]; [|cbn; intuition congruence].
  destruct (String.eqb s "closed"); [cbn; intuition congruence|].
  destruct (String.eqb s "pending approval"); [cbn; intuition congruence|].
  destruct (String.eqb s "hired"); [cbn; intuition congruence|].
  destruct (capitalize_not_open (String_ v) N1 N2) as [_ [C1 C2]]. fold s in C1, C2.
  tauto.
Qed.

(** Canonising a status twice: the second pass changes nothing when the
    trimmed status begins in ASCII. *)
Lemma _canonReqStatus__idem v :
  beginsAscii (Js.trim (String_ v)) = true →
  _canonReqStatus_ (VStr (_canonReqStatus_ v)) = _canonReqStatus_ v.
Proof.
  intros A.
  unfold _canonReqStatus_ at 2 3. unfold _normStr_.
  destruct (Js.nonempty _) eqn:N; [|done]. simpl negb. cbv iota.
  destruct (String.eqb _ "open") eqn:E1; [done|].
  destruct (String.eqb _ "on hold") eqn:E2; [done|]. simpl orb. cbv iota.
  destruct (String.eqb _ "closed") eqn:E3; [done|].
  destruct (String.eqb _ "pending approval") eqn:E4; [done|].
  destruct (String.eqb _ "hired") eqn:E5; [done|].
  unfold _canonReqStatus_, _normStr_.
  change (String_ (VStr ?s)) with s.
  by rewrite capitalize_lower_trim, N, E1, E2, E3, E4, E5.
Qed.

End Status_canon.

Section Key_shape.

Lemma append_nil_l (s : string) : "" +:+ s = s.
Proof. done. Qed.

Lemma append_cons c (s t : string) : String c s +:+ t = String c (s +:+ t).
Proof. done. Qed.

(** A job id without a bar is read back from its key. *)
Lemma key_inj (a a' b b' : string) :
  Js.includes "|" a = false → Js.includes "|" a' = false →
  a +:+ "|" +:+ b = a' +:+ "|" +:+ b' → a = a' ∧ b = b'.
Proof.
  revert a'. induction a as [|c a IH]; intros [|c' a']; rewrite ?append_cons, ?append_nil_l.
  - by intros _ _ [= ->].
  - simpl. intros _ N [= <- _]. by rewrite Ascii.eqb_refl in N.
  - simpl. intros N _ [= -> _]. by rewrite Ascii.eqb_refl in N.
  - simpl. intros [_ N]%orb_false_iff [_ N']%orb_false_iff [= -> E].
    destruct (IH a' N N' E) as [-> ->]. done.
Qed.


End Key_shape.

Section Delete_facts.






End Delete_facts.

Section Identity_facts.
Context `{DateRender} `{UpperFirst}.



Lemma rowIdent_blank (sh : sheet) c : rowBlank c = true → rowIdent sh c = ("", "").
Proof.
  intros B. unfold rowIdent, objJobId, objEmail. by rewrite !fld_blank.
Qed.

Lemma rowIdent_empty (sh : sheet) : rowIdent sh ∅ = ("", "").
Proof. unfold rowIdent. by rewrite rowObject_empty. Qed.

Lemma objKey_ident (sh : sheet) c :
  objKey (rowObject sh c) = (rowIdent sh c).1 +:+ "|" +:+ (rowIdent sh c).2.
Proof. done. Qed.

Lemma candKey_Some (sh : sheet) c k :
  candKey (rowObject sh c) = Some k →
  k = (rowIdent sh c).1 +:+ "|" +:+ (rowIdent sh c).2.
Proof. unfold candKey. destruct (hasIdentity _); [|done]. by intros [= <-]. Qed.


(** The row an index gives for a key carries that key. *)
Lemma index_row now (sh : sheet) k r :
  (buildCandidateIndex now sh).1 !! k = Some r →
  ∃ j c, r = dataStartRow sh + j ∧ body sh !! j = Some c
         ∧ candKey (rowObject sh c) = Some k.
Proof.
  rewrite buildCandidateIndex_fold. cbn [fst].
  intros [E|(j & obj & E & K)]%indexFold_lookup; [by rewrite lookup_empty in E|].
  apply dataObjects_lookup in E as (_ & -> & c & E & ->). eauto.
Qed.



(** *** The writes of a row and its identity *)





(** *** Rows written in place *)



(** Altering one row whose identity stays leaves the identities as they are. *)
Lemma fmap_alter_same {A B} (g : A → B) (F : A → A) j (l : list A) x c :
  l !! j = Some c → g c = x → g (F c) = x → g <$> alter F j l = g <$> l.
Proof.
  intros E G1 G2. apply list_eq. intros i. rewrite !list_lookup_fmap.
  destruct (decide (j = i)) as [<-|N].
  - rewrite list_lookup_alter_eq, E. simpl. congruence.
  - by rewrite list_lookup_alter_ne.
Qed.

End Identity_facts.

Section Upsert_facts.
Context `{DateRender} `{UpperFirst}.









Lemma idents_set_same (sh : sheet) r up c x :
  dataStartRow sh ≤ r → body sh !! (r - dataStartRow sh) = Some c →
  rowIdent sh c = x →
  rowIdent sh ((CVal <$> filter (λ p, p.1 ∈ hm sh) up) ∪ c) = x →
  idents (setRowValuesByHeaders sh r up) = idents sh.
Proof.
  intros L E X1 X2. unfold idents.
  rewrite body_setRowValuesByHeaders_in_range; [|done|by apply lookup_lt_Some in E].
  unfold rowIdent, rowObject. rewrite hm_setRowValuesByHeaders.
  apply (fmap_alter_same _ _ _ _ x c); auto.
Qed.

End Upsert_facts.

Section Upsert_idents.
Context `{DateRender} `{UpperFirst}.


Lemma rowIdent_unfold (sh : sheet) c :
  rowIdent sh c =
  (Js.trim (String_ (fld (rowObject sh c) H_ACT.JobID)),
   normEmail (VStr (normEmail (fld (rowObject sh c) H_ACT.Email)))).
Proof. reflexivity. Qed.







End Upsert_idents.

Section Deletion_pass.
Context `{DateRender} `{UpperFirst}.


Lemma toDelete_elem jobIds (idxAct idxAll reqIdx : gmap string nat) req r :
  r ∈ toDelete jobIds idxAct idxAll reqIdx req ↔
  ∃ k, idxAct !! k = Some r ∧ mustDelete jobIds idxAll reqIdx req k = true.
Proof.
  unfold toDelete. rewrite merge_sort_Permutation, list_elem_of_fmap. split.
  - intros ([k r'] & -> & [M I]%list_elem_of_filter).
    apply elem_of_map_to_list in I. exists k. split; [done|].
    simpl in M. by apply Is_true_true.
  - intros (k & I & M). exists (k, r). split; [done|].
    apply list_elem_of_filter. split; [simpl; by apply Is_true_true|].
    by apply elem_of_map_to_list.
Qed.


End Deletion_pass.

Section Reconcile_loop.
Context `{DateRender} `{UpperFirst}.


Lemma diffFields_dom (src tgt : gmap string jsval) fields h :
  h ∉ fields → _diffFields_ src tgt fields !! h = None.
Proof.
  unfold _diffFields_.
  enough (∀ acc : gmap string jsval, acc !! h = None → h ∉ fields →
            foldl (λ out f, if _valsEqual_ (fld src f) (fld tgt f)
                            then out else <[f := fld src f]> out) acc fields !! h
            = None) as G.
  { apply G. apply lookup_empty. }
  induction fields as [|f fields IH]; intros acc A N; [done|].
  apply not_elem_of_cons in N as [N1 N2].
  rewrite foldl_step. apply IH; [|done].
  destruct (_valsEqual_ _ _); [done|]. by rewrite lookup_insert_ne.
Qed.

Lemma fld_written_none (sh : sheet) (up : gmap string jsval) c h :
  up !! h = None →
  fld (rowObject sh ((CVal <$> filter (λ p, p.1 ∈ hm sh) up) ∪ c)) h
  = fld (rowObject sh c) h.
Proof.
  intros N. rewrite fld_rowObject_written, N.
  destruct (decide (h ∈ hm sh)) as [I|I]; [done|].
  unfold fld. rewrite lookup_rowObject. by rewrite decide_False.
Qed.

Lemma rowIdent_written_other (sh : sheet) (up : gmap string jsval) c :
  up !! H_ACT.JobID = None → up !! H_ACT.Email = None →
  rowIdent sh ((CVal <$> filter (λ p, p.1 ∈ hm sh) up) ∪ c) = rowIdent sh c.
Proof.
  intros N1 N2. rewrite !rowIdent_unfold. by rewrite !fld_written_none.
Qed.





End Reconcile_loop.




(** * Further properties of the code *)

(** ** Normalisation ([Util.js]) *)

Section Normalisation_more.
Context `{DateRender} `{UpperFirst}.

(** X1. [normEmail] is not idempotent, and settles after two applications:
    a gmail local part that starts with a dot followed by a space leaves a
    leading space, which only the next call trims; a third call changes
    nothing, whatever the input. *)
Theorem normEmail_settles_after_two :
  (∀ v, normEmail (VStr (normEmail (VStr (normEmail v))))
        = normEmail (VStr (normEmail v)))
  ∧ normEmail (VStr ". john@gmail.com") = " john@gmail.com"
  ∧ normEmail (VStr " john@gmail.com") = "john@gmail.com".
Proof.
  split; [|by vm_compute]. intros v. apply normEmail_s_thrice.
Qed.

Lemma allChars_digitsOnly s : allChars Js.is_digit (Js.digitsOnly s) = true.
Proof.
  induction s as [|c s IH]; simpl; [done|].
  destruct (Js.is_digit c) eqn:D; simpl; by rewrite ?D, ?IH.
Qed.

Lemma digitsOnly_digits s : allChars Js.is_digit s = true → Js.digitsOnly s = s.
Proof.
  induction s as [|c s IH]; simpl; [done|].
  intros [D A]%andb_true_iff. by rewrite D, IH.
Qed.

(** X2. [normPhone] returns digits only, returns a text of digits as it is,
    and so is idempotent. *)
Theorem normPhone_digits_only v :
  allChars Js.is_digit (normPhone v) = true
  ∧ normPhone (VStr (normPhone v)) = normPhone v
  ∧ (allChars Js.is_digit (String_ v) = true → normPhone v = String_ v).
Proof.
  unfold normPhone. split_and!.
  - apply allChars_digitsOnly.
  - simpl. apply digitsOnly_digits, allChars_digitsOnly.
  - apply digitsOnly_digits.
Qed.

(** X3. Keys of rows with an identity tell the identities apart as long as
    no job id holds a bar: equal keys mean equal trimmed job ids and equal
    normalised addresses.  With a bar in a job id two identities can share a
    key. *)
Theorem keyFor_injective now j1 e1 j2 e2 :
  Js.nonempty (Js.trim (String_ j1)) || Js.nonempty (normEmail e1) = true →
  Js.nonempty (Js.trim (String_ j2)) || Js.nonempty (normEmail e2) = true →
  Js.includes "|" (Js.trim (String_ j1)) = false →
  Js.includes "|" (Js.trim (String_ j2)) = false →
  keyFor now j1 e1 = keyFor now j2 e2 →
  Js.trim (String_ j1) = Js.trim (String_ j2) ∧ normEmail e1 = normEmail e2.
Proof.
  intros N1 N2 P1 P2. rewrite !keyFor_composite by done. by apply key_inj.
Qed.

(** X4. Canonising a status twice.  When the trimmed status is empty or
    begins with an ASCII character, canonising its canonical form again
    changes nothing.  Whatever the status, its canonical form depends only
    on the trimmed, lower-cased text, and the canonical form is open for
    Active exactly when the status is. *)
Theorem _canonReqStatus__normal_form v :
  (beginsAscii (Js.trim (String_ v)) = true →
   _canonReqStatus_ (VStr (_canonReqStatus_ v)) = _canonReqStatus_ v)
  ∧ _canonReqStatus_ (VStr (Js.toLowerCase (Js.trim (String_ v)))) = _canonReqStatus_ v
  ∧ _isOpenForActive_ (VStr (_canonReqStatus_ v)) = _isOpenForActive_ v.
Proof.
  split_and!; [apply _canonReqStatus__idem| |apply _isOpenForActive__canon].
  unfold _canonReqStatus_, _normStr_. simpl String_.
  by rewrite lower_trim_idem.
Qed.

End Normalisation_more.

Lemma keyFor_injective_witness :
  (Js.trim "2025-0001 " = Js.trim " 2025-0001"
   ∧ normEmail (VStr "A.B@gmail.com") = normEmail (VStr "ab+x@googlemail.com"))
  ∧ keyFor 5 (VStr "a|b") (VStr "c@x.com") = keyFor 5 (VStr "a") (VStr "b|c@x.com").
Proof.
  split; [|by vm_compute].
  apply (keyFor_injective 5 (VStr "2025-0001 ") (VStr "A.B@gmail.com")
           (VStr " 2025-0001") (VStr "ab+x@googlemail.com")); by vm_compute.
Defined.

(** ** Comparing and diffing values ([CandidatesSync.gs]) *)

Section Diff_more.
Context `{DateRender} `{UpperFirst}.

Lemma _valsEqual__refl a : _valsEqual_ a a = true.
Proof.
  unfold _valsEqual_. destruct a as [s|t]; [|apply Z.eqb_refl].
  destruct (numberOf (VStr s)) as [n|]; [apply Z.eqb_refl|apply String.eqb_refl].
Qed.

Lemma _valsEqual__sym a b : _valsEqual_ a b = _valsEqual_ b a.
Proof.
  unfold _valsEqual_.
  assert (match numberOf a, numberOf b with
          | Some na, Some nb => numeralEq na nb
          | _, _ => String.eqb (Js.trim (String_ a)) (Js.trim (String_ b))
          end
          = match numberOf b, numberOf a with
            | Some nb, Some na => numeralEq nb na
            | _, _ => String.eqb (Js.trim (String_ b)) (Js.trim (String_ a))
            end) as Q.
  { destruct (numberOf a), (numberOf b); try apply String.eqb_sym.
    unfold numeralEq. apply Z.eqb_sym. }
  destruct a, b; try exact Q. apply Z.eqb_sym.
Qed.

(** X5. [_valsEqual_] is reflexive and symmetric; numerals are compared as
    numbers and other texts trimmed, so a job id typed 007 equals 7 and a
    padded text equals the bare one. *)
Theorem _valsEqual__reflexive_symmetric :
  (∀ a, _valsEqual_ a a = true)
  ∧ (∀ a b, _valsEqual_ a b = _valsEqual_ b a)
  ∧ _valsEqual_ (VStr "007") (VStr "7") = true
  ∧ _valsEqual_ (VStr "1.50") (VStr "1.5") = true
  ∧ _valsEqual_ (VStr " Open ") (VStr "Open") = true
  ∧ _valsEqual_ (VStr "open") (VStr "Open") = false.
Proof.
  split_and!; [apply _valsEqual__refl|apply _valsEqual__sym|by vm_compute..].
Qed.

Lemma lookup_diffFields_fold (src tgt : gmap string jsval) fields
    (acc : gmap string jsval) h :
  foldl (λ out f, if _valsEqual_ (fld src f) (fld tgt f)
                  then out else <[f := fld src f]> out) acc fields !! h
  = if decide (h ∈ fields ∧ _valsEqual_ (fld src h) (fld tgt h) = false)
    then Some (fld src h) else acc !! h.
Proof.
  revert acc. induction fields as [|f fields IH]; intros acc.
  { rewrite decide_False; [done|]. intros [I _]. by apply elem_of_nil in I. }
  rewrite foldl_step, IH.
  destruct (decide (h ∈ fields ∧ _)) as [D|D].
  { rewrite decide_True; [done|]. destruct D. split; [by right|done]. }
  destruct (decide (h = f)) as [->|N].
  - destruct (_valsEqual_ (fld src f) (fld tgt f)) eqn:V.
    + rewrite decide_False; [done|]. intros [_ Q]. congruence.
    + rewrite decide_True by (split; [by left|done]). by rewrite lookup_insert_eq.
  - rewrite decide_False.
    2:{ intros [[Q|I]%elem_of_cons V]; [done|]. by apply D. }
    destruct (_valsEqual_ (fld src f) (fld tgt f)); [done|].
    by rewrite lookup_insert_ne.
Qed.

Lemma lookup_diffFields (src tgt : gmap string jsval) fields h :
  _diffFields_ src tgt fields !! h
  = if decide (h ∈ fields ∧ _valsEqual_ (fld src h) (fld tgt h) = false)
    then Some (fld src h) else None.
Proof. unfold _diffFields_. by rewrite lookup_diffFields_fold, lookup_empty. Qed.

(** X6. [_diffFields_] lists exactly the fields, among those asked for, on
    which source and target differ, each with the value of the source; an
    object has no difference with itself, and once the difference is written
    over the target nothing is left to write. *)
Theorem _diffFields__exact_and_converges (src tgt : gmap string jsval) fields :
  (∀ h, _diffFields_ src tgt fields !! h
        = if decide (h ∈ fields ∧ _valsEqual_ (fld src h) (fld tgt h) = false)
          then Some (fld src h) else None)
  ∧ _diffFields_ src src fields = ∅
  ∧ _diffFields_ src (_diffFields_ src tgt fields ∪ tgt) fields = ∅.
Proof.
  split; [apply lookup_diffFields|]. split.
  - apply map_eq. intros h. rewrite lookup_diffFields, lookup_empty.
    rewrite decide_False; [done|]. intros [_ V]. by rewrite _valsEqual__refl in V.
  - apply map_eq. intros h. rewrite lookup_diffFields, lookup_empty.
    rewrite decide_False; [done|]. intros [I V].
    unfold fld at 2 in V. rewrite lookup_union, lookup_diffFields in V.
    destruct (decide (h ∈ fields ∧ _valsEqual_ (fld src h) (fld tgt h) = false))
      as [D|D].
    + rewrite union_Some_l in V. simpl in V. by rewrite _valsEqual__refl in V.
    + rewrite (left_id_L None _) in V. fold (fld tgt h) in V. apply D. done.
Qed.

End Diff_more.

(** ** Reading and writing rows ([Util.js]) *)

Section Rows_more.
Context `{DateRender} `{UpperFirst}.

(** X7. Writing a data row by headers and reading it back: a mapped header
    reads as the value written, or as before when the updates do not name it;
    updates of headers the sheet does not have are dropped; the other data
    rows and the header map stay as they are. *)
Theorem setRowValuesByHeaders_read_back sh row (up : gmap string jsval) :
  dataStartRow sh ≤ row →
  let sh' := setRowValuesByHeaders sh row up in
  hm sh' = hm sh ∧ headerRow sh' = headerRow sh
  ∧ (∀ h, h ∈ hm sh →
          fld (getRowObjectByHeaders sh' row) h
          = default (fld (getRowObjectByHeaders sh row) h) (up !! h))
  ∧ (∀ h, h ∉ hm sh → fld (getRowObjectByHeaders sh' row) h = VStr "")
  ∧ (∀ row', row' ≠ row → dataStartRow sh ≤ row' →
             getRowObjectByHeaders sh' row' = getRowObjectByHeaders sh row').
Proof.
  intros L sh'. split_and!.
  - apply hm_setRowValuesByHeaders.
  - apply headerRow_setRowValuesByHeaders.
  - intros h I. unfold sh'. rewrite fld_get_set by done. by rewrite decide_True.
  - intros h I. unfold sh'. rewrite fld_get_set by done. by rewrite decide_False.
  - intros row' N L'. by apply get_set_other.
Qed.

Lemma indexFold_snoc kf m (l : list (nat * gmap string jsval)) e :
  indexFold kf m (l ++ [e]) =
  match kf e.2 with Some k => <[k := e.1]> (indexFold kf m l) | None => indexFold kf m l end.
Proof. unfold indexFold. by rewrite foldl_app. Qed.

(** The entry an index built by [Map.set] gives for a key is the last one
    with that key. *)
Lemma indexFold_last kf entries k r :
  indexFold kf ∅ entries !! k = Some r →
  ∃ j obj, entries !! j = Some (r, obj) ∧ kf obj = Some k
           ∧ ∀ j' e', j < j' → entries !! j' = Some e' → kf e'.2 ≠ Some k.
Proof.
  induction entries as [|[r0 o0] entries IH] using rev_ind.
  { unfold indexFold. simpl. by rewrite lookup_empty. }
  rewrite indexFold_snoc. cbn [fst snd].
  destruct (kf o0) as [k0|] eqn:K0.
  - destruct (decide (k0 = k)) as [->|N].
    + rewrite lookup_insert_eq. intros [= ->].
      exists (length entries), o0. split_and!; [by apply list_lookup_middle|done|].
      intros j' e' L E. apply lookup_lt_Some in E. rewrite length_app in E.
      simpl in E. lia.
    + rewrite lookup_insert_ne by done. intros (j & obj & E & K & Last)%IH.
      exists j, obj. split_and!; [by apply lookup_app_l_Some|done|].
      intros j' e' L E'. apply lookup_app_Some in E' as [E'|[L' E']]; [by eapply Last|].
      destruct (j' - length entries) as [|n]; [|done].
      injection E' as <-. simpl. rewrite K0. congruence.
  - intros (j & obj & E & K & Last)%IH.
    exists j, obj. split_and!; [by apply lookup_app_l_Some|done|].
    intros j' e' L E'. apply lookup_app_Some in E' as [E'|[L' E']]; [by eapply Last|].
    destruct (j' - length entries) as [|n]; [|done].
    injection E' as <-. simpl. rewrite K0. congruence.
Qed.

Lemma dataObjects_row (sh : sheet) j r obj :
  dataObjects sh !! j = Some (r, obj) →
  r = dataStartRow sh + j ∧ r ≤ getLastRow sh ∧ obj = getRowObjectByHeaders sh r.
Proof.
  intros (L & -> & c & E & ->)%dataObjects_lookup. split; [done|].
  split; [unfold getLastRow, dataStartRow; lia|].
  rewrite getRowObjectByHeaders_cells by lia.
  replace (dataStartRow sh + j - dataStartRow sh) with j by lia. by rewrite E.
Qed.

Lemma dataObjects_of_row (sh : sheet) r :
  dataStartRow sh ≤ r → r ≤ getLastRow sh →
  dataObjects sh !! (r - dataStartRow sh) = Some (r, getRowObjectByHeaders sh r).
Proof.
  intros L1 L2. apply dataObjects_lookup.
  assert (r - dataStartRow sh < dataCount (body sh)) as L
    by (unfold getLastRow, dataStartRow in *; lia).
  split; [done|]. split; [lia|].
  destruct (lookup_lt_is_Some_2 (body sh) (r - dataStartRow sh)) as [c E].
  { pose proof (dataCount_le (body sh)). lia. }
  exists c. split; [done|]. rewrite getRowObjectByHeaders_cells by done. by rewrite E.
Qed.

Lemma candKey_keyFor now obj k :
  candKey obj = Some k ↔
  Js.nonempty (Js.trim (String_ (fld obj H_ALL.JobID)))
    || Js.nonempty (normEmail (fld obj H_ALL.Email)) = true
  ∧ keyFor now (VStr (Js.trim (String_ (fld obj H_ALL.JobID))))
           (VStr (normEmail (fld obj H_ALL.Email))) = k.
Proof.
  unfold candKey, hasIdentity, objKey, objJobId, objEmail.
  destruct (_ || _) eqn:E.
  - rewrite keyFor_composite; simpl String_; rewrite trim_idem.
    + split; [by intros [= <-]|by intros [_ <-]].
    + apply orb_true_iff in E as [E|E]; [by rewrite E|].
      apply orb_true_iff. right. apply nonempty_true, normEmail_nonempty_twice.
      by apply nonempty_true.
  - split; [done|]. by intros [? _].
Qed.

(** X8. The index of candidates: the row it gives for a key is a data row that
    carries the key, and it is the last such row; every data row with a job
    id or an address has its key in the index; rows with neither are not
    indexed. *)
Theorem buildCandidateIndex_last_row_wins now (sh : sheet) :
  let ident obj :=
    Js.nonempty (Js.trim (String_ (fld obj H_ALL.JobID)))
    || Js.nonempty (normEmail (fld obj H_ALL.Email)) in
  let key obj :=
    keyFor now (VStr (Js.trim (String_ (fld obj H_ALL.JobID))))
           (VStr (normEmail (fld obj H_ALL.Email))) in
  let idx := (buildCandidateIndex now sh).1 in
  (∀ k r, idx !! k = Some r →
     dataStartRow sh ≤ r ∧ r ≤ getLastRow sh
     ∧ ident (getRowObjectByHeaders sh r) = true
     ∧ key (getRowObjectByHeaders sh r) = k
     ∧ ∀ r', r < r' → r' ≤ getLastRow sh →
             ident (getRowObjectByHeaders sh r') = true →
             key (getRowObjectByHeaders sh r') ≠ k)
  ∧ (∀ r, dataStartRow sh ≤ r → r ≤ getLastRow sh →
          ident (getRowObjectByHeaders sh r) = true →
          is_Some (idx !! key (getRowObjectByHeaders sh r))).
Proof.
  intros ident key idx. subst idx. rewrite buildCandidateIndex_fold. cbn [fst]. split.
  - intros k r (j & obj & E & K & Last)%indexFold_last.
    apply dataObjects_row in E as E'. destruct E' as (-> & L & ->).
    apply (candKey_keyFor now) in K as [I K].
    split_and!; try done; [lia|].
    intros r' L1 L2 I' K'.
    apply (Last (r' - dataStartRow sh) (r', getRowObjectByHeaders sh r')); [lia| |].
    + apply dataObjects_of_row; [lia|done].
    + by apply (candKey_keyFor now).
  - intros r L1 L2 I.
    apply (indexFold_is_Some _ _ _ _ r (getRowObjectByHeaders sh r)).
    + eapply list_elem_of_lookup_2. by apply dataObjects_of_row.
    + by apply (candKey_keyFor now).
Qed.


(** X9. The index of requisitions: the row it gives for a job id is the last
    data row whose trimmed job id is that text; no row is indexed under the
    empty text; every data row with a job id is found. *)
Theorem buildReqIndex_last_row_wins (sh : sheet) :
  let jobOf r := Js.trim (String_ (fld (getRowObjectByHeaders sh r) H_REQ.JobID)) in
  let idx := (buildReqIndex sh).1 in
  idx !! "" = None
  ∧ (∀ k r, idx !! k = Some r →
       dataStartRow sh ≤ r ∧ r ≤ getLastRow sh ∧ jobOf r = k
       ∧ ∀ r', r < r' → r' ≤ getLastRow sh → jobOf r' ≠ k)
  ∧ (∀ r, dataStartRow sh ≤ r → r ≤ getLastRow sh → jobOf r ≠ "" →
          is_Some (idx !! jobOf r)).
Proof.
  intros jobOf idx. subst idx. rewrite buildReqIndex_fold.
  assert (∀ obj k, reqKey obj = Some k ↔
                   Js.trim (String_ (fld obj H_REQ.JobID)) = k ∧ k ≠ "") as RK.
  { intros obj k. unfold reqKey. destruct (Js.nonempty _) eqn:N.
    - apply nonempty_true in N. split; [by intros [= <-]|by intros [-> _]].
    - apply nonempty_false in N. split; [done|]. intros [Q N']. congruence. }
  split_and!.
  - destruct (indexFold reqKey ∅ (dataObjects sh) !! "") as [r|] eqn:E; [|done].
    apply indexFold_last in E as (j & obj & _ & K & _). by apply RK in K as [_ K].
  - intros k r (j & obj & E & K & Last)%indexFold_last.
    apply dataObjects_row in E as E'. destruct E' as (-> & L & ->).
    apply RK in K as [K Nk].
    split_and!; try done; [lia|].
    intros r' L1 L2 K'.
    apply (Last (r' - dataStartRow sh) (r', getRowObjectByHeaders sh r')); [lia| |].
    + apply dataObjects_of_row; [lia|done].
    + by apply RK.
  - intros r L1 L2 N.
    apply (indexFold_is_Some _ _ _ _ r (getRowObjectByHeaders sh r)).
    + eapply list_elem_of_lookup_2. by apply dataObjects_of_row.
    + by apply RK.
Qed.

End Rows_more.

Lemma setRowValuesByHeaders_read_back_witness :
  let sh' := setRowValuesByHeaders c3_sheet 2 {[ H_REQ.JobTitle := VStr "Analyst" ]} in
  hm sh' = hm c3_sheet ∧ headerRow sh' = headerRow c3_sheet
  ∧ (∀ h, h ∈ hm c3_sheet →
          fld (getRowObjectByHeaders sh' 2) h
          = default (fld (getRowObjectByHeaders c3_sheet 2) h)
                    (({[ H_REQ.JobTitle := VStr "Analyst" ]} : gmap string jsval) !! h))
  ∧ (∀ h, h ∉ hm c3_sheet → fld (getRowObjectByHeaders sh' 2) h = VStr "")
  ∧ (∀ row', row' ≠ 2 → dataStartRow c3_sheet ≤ row' →
             getRowObjectByHeaders sh' row' = getRowObjectByHeaders c3_sheet row').
Proof.
  apply (setRowValuesByHeaders_read_back c3_sheet 2). vm_compute. lia.
Defined.

(** ** Links ([Util.js]) *)

Section Links_more.
Context `{DateRender} `{UpperFirst}.

Lemma takeUntilQuote_plain u rest :
  Js.includes dq u = false →
  takeUntilQuote (u +:+ String dq rest) = Some (u, rest).
Proof.
  induction u as [|c u IH]; rewrite ?append_cons, ?append_nil_l.
  { intros _. reflexivity. }
  simpl. intros [N1 N2]%orb_false_iff. rewrite N1, IH by done. done.
Qed.

Lemma replaceAll_absent_any c r s : Js.includes c s = false → Js.replaceAll c r s = s.
Proof.
  induction s as [|d s IH]; simpl; [done|].
  intros [N1 N2]%orb_false_iff. by rewrite N1, IH.
Qed.

Lemma hyperlinkUrlSearch_formula u rest :
  Js.includes dq u = false → Js.nonempty u = true →
  hyperlinkUrlSearch ("=HYPERLINK(" +:+ String dq (u +:+ String dq rest)) = Some u.
Proof.
  intros Q N.
  assert (hyperlinkUrlAt ("=HYPERLINK(" +:+ String dq (u +:+ String dq rest)) = Some u)
    as A.
  { unfold hyperlinkUrlAt.
    change (expect "=hyperlink(" ("=HYPERLINK(" +:+ ?x)) with (Some x).
    cbn [mbind option_bind].
    change (Js.trimStart (String dq ?x)) with (String dq x).
    change (expect (String dq "") (String dq ?x)) with (Some x).
    cbn [mbind option_bind].
    rewrite takeUntilQuote_plain by done. cbn [mbind option_bind]. by rewrite N. }
  change ("=HYPERLINK(" +:+ ?x) with (String "=" ("HYPERLINK(" +:+ x)) in *.
  cbn [hyperlinkUrlSearch]. by rewrite A.
Qed.

(** X10. What [setHyperlink] writes, [extractUrl] reads back: for a data row
    and a url that passes the protocol test and holds no quote, the url
    extracted from the cell is the trimmed url, and the value of the cell is
    the label. *)
Theorem extractUrl_reads_setHyperlink sh row h (url label : jsval) :
  dataStartRow sh ≤ row →
  urlAllowed (Js.trim (String_ url)) = true →
  Js.includes dq (Js.trim (String_ url)) = false →
  let sh' := setHyperlink sh row h url label in
  extractUrl sh' row h = Js.trim (String_ url)
  ∧ cellValue (cellAt sh' row h) = VStr (String_ label).
Proof.
  intros L A Q sh'. set (u := Js.trim (String_ url)) in *.
  assert (Js.nonempty u = true) as N.
  { destruct u; [|done]. by rewrite urlAllowed_empty in A. }
  assert (cellAt sh' row h = CFormula (hyperlinkFormula u label)) as C.
  { unfold sh', setHyperlink, hyperlinkFor. fold u. rewrite N, A. simpl negb. cbv iota.
    unfold cellAt, setFormula.
    destruct (Nat.ltb_spec row (dataStartRow sh)) as [?|_]; [lia|].
    cbn [body withBody]. change (dataStartRow (withBody sh ?b)) with (dataStartRow sh).
    destruct (Nat.ltb_spec row (dataStartRow sh)) as [?|_]; [lia|].
    rewrite onRow_lookup_eq. simpl. by rewrite lookup_insert_eq. }
  unfold extractUrl. rewrite C. split; [|apply cellValue_hyperlink].
  unfold extractUrl_cell. rewrite hyperlinkFormula_unfold.
  unfold _escapeForFormula_. simpl String_. rewrite (replaceAll_absent_any dq _ u) by done.
  change (Js.startsWith_ci "=hyperlink(" ("=HYPERLINK(" +:+ ?x)) with true. cbv iota.
  by rewrite hyperlinkUrlSearch_formula.
Qed.

End Links_more.

Lemma extractUrl_reads_setHyperlink_witness :
  let sh' := setHyperlink c3_sheet 2 H_REQ.JobTitle
               (VStr " https://example.com/cv.pdf ") (VStr "Resume") in
  extractUrl sh' 2 H_REQ.JobTitle = "https://example.com/cv.pdf"
  ∧ cellValue (cellAt sh' 2 H_REQ.JobTitle) = VStr "Resume".
Proof.
  apply (extractUrl_reads_setHyperlink c3_sheet 2 H_REQ.JobTitle
           (VStr " https://example.com/cv.pdf ") (VStr "Resume"));
    [vm_compute; lia|by vm_compute|by vm_compute].
Defined.

(** ** The status engine, once more ([Requisitions.js]) *)

Section Engine_more.
Context `{DateRender} `{UpperFirst}.

Ltac decide_headers' :=
  repeat match goal with
    | |- context [bool_decide (?a = ?b)] =>
        let v := eval vm_compute in (bool_decide (a = b)) in
        change (bool_decide (a = b)) with v
    end.

Ltac decide_statuses :=
  repeat match goal with
    | |- context [String.eqb ?a ?b] =>
        let v := eval vm_compute in (String.eqb a b) in
        lazymatch v with
        | true => change (String.eqb a b) with true
        | false => change (String.eqb a b) with false
        end
    end.

(** The updates of the engine on one header, in closed form. *)
Ltac updates_at :=
  unfold reqStatusUpdates;
  repeat match goal with
    | E : _normStr_ _ = _ |- _ => rewrite E
    | E : String.eqb _ _ = _ |- _ => rewrite E
    end;
  decide_statuses;
  cbv beta iota; rewrite ?lookup_putIf; decide_headers';
  rewrite ?andb_false_r, ?andb_true_r; cbv beta iota; rewrite ?lookup_empty;
  cbn [negb andb].

Lemma fld_engine sh now row h :
  dataStartRow sh ≤ row →
  fld (getRowObjectByHeaders (reqTransitionRow now sh row) row) h =
  if bool_decide (h ∈ hm sh)
  then default (fld (getRowObjectByHeaders sh row) h)
               (reqStatusUpdates (hm sh) now (getRowObjectByHeaders sh row) !! h)
  else VStr "".
Proof.
  intros L. case_bool_decide as I; [by apply fld_reqTransitionRow|].
  apply fld_unmapped. by rewrite hm_reqTransitionRow.
Qed.

(** A date stamped when unset is set afterwards; a field cleared when set
    is empty afterwards. *)
Lemma unset_settles sh now row h v :
  dataStartRow sh ≤ row → truthy v = true →
  reqStatusUpdates (hm sh) now (getRowObjectByHeaders sh row) !! h
  = (if bool_decide (h ∈ hm sh) && negb (truthy (fld (getRowObjectByHeaders sh row) h))
     then Some v else None) →
  bool_decide (h ∈ hm sh)
  && negb (truthy (fld (getRowObjectByHeaders (reqTransitionRow now sh row) row) h))
  = false.
Proof.
  intros L V U. rewrite fld_engine, U by done.
  destruct (bool_decide (h ∈ hm sh)); [|done]. simpl.
  destruct (truthy (fld (getRowObjectByHeaders sh row) h)) eqn:T; simpl; by rewrite ?T, ?V.
Qed.

Lemma set_settles sh now row h :
  dataStartRow sh ≤ row →
  reqStatusUpdates (hm sh) now (getRowObjectByHeaders sh row) !! h
  = (if bool_decide (h ∈ hm sh) && truthy (fld (getRowObjectByHeaders sh row) h)
     then Some (VStr "") else None) →
  bool_decide (h ∈ hm sh)
  && truthy (fld (getRowObjectByHeaders (reqTransitionRow now sh row) row) h)
  = false.
Proof.
  intros L U. rewrite fld_engine, U by done.
  destruct (bool_decide (h ∈ hm sh)); [|done]. simpl.
  destruct (truthy (fld (getRowObjectByHeaders sh row) h)) eqn:T; simpl; by rewrite ?T.
Qed.

Lemma status_engine sh now row :
  dataStartRow sh ≤ row →
  _normStr_ (fld (getRowObjectByHeaders (reqTransitionRow now sh row) row) H_REQ.JobStatus)
  = _normStr_ (fld (getRowObjectByHeaders sh row) H_REQ.JobStatus).
Proof.
  intros L. rewrite fld_engine by done. case_bool_decide as I.
  - assert (reqStatusUpdates (hm sh) now (getRowObjectByHeaders sh row) !! H_REQ.JobStatus
            = None) as ->; [|done].
    unfold reqStatusUpdates.
    repeat match goal with |- context [if ?b then _ else _] => destruct b end;
      rewrite ?lookup_putIf; decide_headers';
      rewrite ?andb_false_r; cbv beta iota; by rewrite ?lookup_empty.
  - by rewrite fld_unmapped.
Qed.

Lemma engine_settled sh now now' row :
  dataStartRow sh ≤ row →
  reqStatusUpdates (hm (reqTransitionRow now sh row)) now'
    (getRowObjectByHeaders (reqTransitionRow now sh row) row) = ∅.
Proof.
  intros L. rewrite hm_reqTransitionRow.
  unfold reqStatusUpdates at 1. rewrite status_engine by done.
  destruct (String.eqb (_normStr_ (fld (getRowObjectByHeaders sh row) H_REQ.JobStatus))
                       "Open") eqn:EO.
  { apply String.eqb_eq in EO. rewrite EO. decide_statuses. cbn [negb andb]. cbv iota.
    rewrite (set_settles sh now row H_REQ.HiredCandidateName) by (try done; by updates_at).
    rewrite (unset_settles sh now row H_REQ.Opened (VDate now))
      by (try done; by updates_at).
    rewrite (set_settles sh now row H_REQ.OnHoldDate) by (try done; by updates_at).
    rewrite (set_settles sh now row H_REQ.ClosedDate) by (try done; by updates_at).
    rewrite (set_settles sh now row H_REQ.PositionHiredDate) by (try done; by updates_at).
    done. }
  destruct (String.eqb (_normStr_ (fld (getRowObjectByHeaders sh row) H_REQ.JobStatus))
                       "On Hold") eqn:EN.
  { apply String.eqb_eq in EN. clear EO. rewrite EN. decide_statuses.
    cbn [negb andb]. cbv iota.
    rewrite (set_settles sh now row H_REQ.HiredCandidateName) by (try done; by updates_at).
    rewrite (unset_settles sh now row H_REQ.OnHoldDate (VDate now))
      by (try done; by updates_at).
    rewrite (set_settles sh now row H_REQ.ClosedDate) by (try done; by updates_at).
    rewrite (set_settles sh now row H_REQ.PositionHiredDate) by (try done; by updates_at).
    done. }
  destruct (String.eqb (_normStr_ (fld (getRowObjectByHeaders sh row) H_REQ.JobStatus))
                       "Closed") eqn:EC.
  { apply String.eqb_eq in EC. clear EO EN. rewrite EC. decide_statuses.
    cbn [negb andb]. cbv iota.
    rewrite (set_settles sh now row H_REQ.HiredCandidateName) by (try done; by updates_at).
    rewrite (unset_settles sh now row H_REQ.ClosedDate (VDate now))
      by (try done; by updates_at).
    done. }
  destruct (String.eqb (_normStr_ (fld (getRowObjectByHeaders sh row) H_REQ.JobStatus))
                       "Hired") eqn:EH.
  { apply String.eqb_eq in EH. clear EO EN EC. cbn [negb andb]. cbv iota.
    unfold putIf at 3. cbv iota.
    rewrite (unset_settles sh now row H_REQ.ClosedDate (VDate now))
      by (try done; by updates_at).
    rewrite (unset_settles sh now row H_REQ.PositionHiredDate (VDate now))
      by (try done; by updates_at).
    done. }
  cbn [negb andb]. cbv iota.
  rewrite (set_settles sh now row H_REQ.HiredCandidateName) by (try done; by updates_at).
  done.
Qed.

(** X11. The status engine is idempotent on a row: a second pass over the row,
    at any later time, finds nothing to write and leaves the sheet as the
    first pass left it. *)
Theorem applyReqStatusTransitions_idempotent now now' (sh : sheet) row :
  let sh1 := applyReqStatusTransitionsForRows_ now [row] sh in
  applyReqStatusTransitionsForRows_ now' [row] sh1 = sh1.
Proof.
  intros sh1. subst sh1. unfold applyReqStatusTransitionsForRows_, getHeaderInfo.
  destruct (decide (ANCHOR_HEADER_REQ ∈ hm sh)) as [A|A].
  - cbn [foldl]. rewrite hm_reqTransitionRow, decide_True by done. cbn [foldl].
    destruct (decide (dataStartRow sh ≤ row)) as [L|L].
    + unfold reqTransitionRow at 1. rewrite dataStartRow_reqTransitionRow.
      destruct (Nat.ltb_spec row (dataStartRow sh)); [lia|].
      by rewrite engine_settled.
    + unfold reqTransitionRow.
      destruct (Nat.ltb_spec row (dataStartRow sh)) as [?|?]; [|lia].
      by destruct (Nat.ltb_spec row (dataStartRow sh)); [|lia].
  - by rewrite decide_False.
Qed.

Ltac by_status obj :=
  destruct (String.eqb (_normStr_ (fld obj H_REQ.JobStatus)) "Open") eqn:EO;
    [apply String.eqb_eq in EO|
  destruct (String.eqb (_normStr_ (fld obj H_REQ.JobStatus)) "On Hold") eqn:EN;
    [apply String.eqb_eq in EN; clear EO|
  destruct (String.eqb (_normStr_ (fld obj H_REQ.JobStatus)) "Closed") eqn:EC;
    [apply String.eqb_eq in EC; clear EO EN|
  destruct (String.eqb (_normStr_ (fld obj H_REQ.JobStatus)) "Hired") eqn:EH;
    [apply String.eqb_eq in EH; clear EO EN EC|]]]].

Lemma applyReqStatusTransitions_one now (sh : sheet) row :
  ANCHOR_HEADER_REQ ∈ hm sh →
  applyReqStatusTransitionsForRows_ now [row] sh = reqTransitionRow now sh row.
Proof.
  intros A. unfold applyReqStatusTransitionsForRows_, getHeaderInfo.
  by rewrite decide_True.
Qed.

(** X12. What the engine never does to a data row: it never changes the
    status, and never touches an opened date that is set, whatever the
    status; after it, a row whose status is not Hired has no hired name, and
    a row whose status is Hired keeps the name it had. *)
Theorem engine_never_overwrites now (sh : sheet) row :
  ANCHOR_HEADER_REQ ∈ hm sh → dataStartRow sh ≤ row →
  let obj := getRowObjectByHeaders sh row in
  let obj' := getRowObjectByHeaders (applyReqStatusTransitionsForRows_ now [row] sh) row in
  _normStr_ (fld obj' H_REQ.JobStatus) = _normStr_ (fld obj H_REQ.JobStatus)
  ∧ (truthy (fld obj H_REQ.Opened) = true → fld obj' H_REQ.Opened = fld obj H_REQ.Opened)
  ∧ (_normStr_ (fld obj H_REQ.JobStatus) ≠ "Hired" →
     truthy (fld obj' H_REQ.HiredCandidateName) = false)
  ∧ (_normStr_ (fld obj H_REQ.JobStatus) = "Hired" →
     fld obj' H_REQ.HiredCandidateName = fld obj H_REQ.HiredCandidateName).
Proof.
  intros A L obj obj'. subst obj obj'. rewrite applyReqStatusTransitions_one by done.
  split_and!.
  - by apply status_engine.
  - intros T. rewrite fld_engine by done. case_bool_decide as I.
    + assert (reqStatusUpdates (hm sh) now (getRowObjectByHeaders sh row) !! H_REQ.Opened
              = None) as ->; [|done].
      by_status (getRowObjectByHeaders sh row); updates_at;
        rewrite ?T, ?andb_false_r; done.
    + symmetry. by apply fld_unmapped.
  - intros N. rewrite fld_engine by done. case_bool_decide as I; [|done].
    assert (reqStatusUpdates (hm sh) now (getRowObjectByHeaders sh row)
              !! H_REQ.HiredCandidateName
            = if truthy (fld (getRowObjectByHeaders sh row) H_REQ.HiredCandidateName)
              then Some (VStr "") else None)
      as ->.
    { by_status (getRowObjectByHeaders sh row); try done; updates_at;
        by rewrite (bool_decide_eq_true_2 _ I). }
    by destruct (truthy (fld (getRowObjectByHeaders sh row) H_REQ.HiredCandidateName))
      eqn:T.
  - intros E. rewrite fld_engine by done. case_bool_decide as I.
    + assert (reqStatusUpdates (hm sh) now (getRowObjectByHeaders sh row)
                !! H_REQ.HiredCandidateName = None)
        as ->; [|done].
      by updates_at.
    + symmetry. by apply fld_unmapped.
Qed.

Lemma settled_set sh now row h :
  bool_decide (h ∈ hm sh)
  && negb (truthy (fld (getRowObjectByHeaders (reqTransitionRow now sh row) row) h)) = false →
  h ∈ hm sh →
  truthy (fld (getRowObjectByHeaders (reqTransitionRow now sh row) row) h) = true.
Proof.
  intros S I. rewrite bool_decide_eq_true_2 in S by done.
  by destruct (truthy _).
Qed.

Lemma settled_empty sh now row h :
  bool_decide (h ∈ hm sh)
  && truthy (fld (getRowObjectByHeaders (reqTransitionRow now sh row) row) h) = false →
  truthy (fld (getRowObjectByHeaders (reqTransitionRow now sh row) row) h) = false.
Proof.
  intros S. case_bool_decide as I; [done|].
  rewrite fld_unmapped; [done|]. by rewrite hm_reqTransitionRow.
Qed.

(** X28. The dates of a requisition row after the status engine, by status.
    Open: the opened date is set and the on-hold, closed and hired dates are
    empty.  On Hold: the on-hold date is set, the closed and hired dates are
    empty, and the opened date is as it was (it is not stamped).  Closed:
    the closed date is set.  Hired: the hired and the closed dates are set.
    A date is set only if the sheet has its column. *)
Theorem engine_date_table now (sh : sheet) row :
  ANCHOR_HEADER_REQ ∈ hm sh → dataStartRow sh ≤ row →
  let obj := getRowObjectByHeaders sh row in
  let obj' := getRowObjectByHeaders (applyReqStatusTransitionsForRows_ now [row] sh) row in
  let status := _normStr_ (fld obj H_REQ.JobStatus) in
  let isSet h := h ∈ hm sh → truthy (fld obj' h) = true in
  let isEmpty h := truthy (fld obj' h) = false in
  (status = "Open" →
     isSet H_REQ.Opened ∧ isEmpty H_REQ.OnHoldDate ∧ isEmpty H_REQ.ClosedDate
     ∧ isEmpty H_REQ.PositionHiredDate)
  ∧ (status = "On Hold" →
     isSet H_REQ.OnHoldDate ∧ isEmpty H_REQ.ClosedDate ∧ isEmpty H_REQ.PositionHiredDate
     ∧ fld obj' H_REQ.Opened = fld obj H_REQ.Opened)
  ∧ (status = "Closed" → isSet H_REQ.ClosedDate)
  ∧ (status = "Hired" → isSet H_REQ.PositionHiredDate ∧ isSet H_REQ.ClosedDate).
Proof.
  intros A L obj obj' status isSet isEmpty.
  subst obj obj' status isSet isEmpty. cbv beta.
  rewrite applyReqStatusTransitions_one by done.
  split_and!; intros E.
  - split_and!.
    + apply settled_set, (unset_settles sh now row H_REQ.Opened (VDate now));
        try done; by updates_at.
    + apply settled_empty, set_settles; try done; by updates_at.
    + apply settled_empty, set_settles; try done; by updates_at.
    + apply settled_empty, set_settles; try done; by updates_at.
  - split_and!.
    + apply settled_set, (unset_settles sh now row H_REQ.OnHoldDate (VDate now));
        try done; by updates_at.
    + apply settled_empty, set_settles; try done; by updates_at.
    + apply settled_empty, set_settles; try done; by updates_at.
    + rewrite fld_engine by done. case_bool_decide as I.
      * assert (reqStatusUpdates (hm sh) now (getRowObjectByHeaders sh row) !! H_REQ.Opened
                = None) as ->; [|done].
        by updates_at.
      * symmetry. by apply fld_unmapped.
  - apply settled_set, (unset_settles sh now row H_REQ.ClosedDate (VDate now));
      try done; by updates_at.
  - split.
    + apply settled_set, (unset_settles sh now row H_REQ.PositionHiredDate (VDate now));
        try done; by updates_at.
    + apply settled_set, (unset_settles sh now row H_REQ.ClosedDate (VDate now));
        try done; by updates_at.
Qed.

End Engine_more.

Lemma engine_never_overwrites_witness :
  let sh := statusEdited 10 c3_sheet 2 "Open" in
  let obj := getRowObjectByHeaders sh 2 in
  let obj' := getRowObjectByHeaders (applyReqStatusTransitionsForRows_ 20 [2] sh) 2 in
  _normStr_ (fld obj' H_REQ.JobStatus) = _normStr_ (fld obj H_REQ.JobStatus)
  ∧ (truthy (fld obj H_REQ.Opened) = true → fld obj' H_REQ.Opened = fld obj H_REQ.Opened)
  ∧ (_normStr_ (fld obj H_REQ.JobStatus) ≠ "Hired" →
     truthy (fld obj' H_REQ.HiredCandidateName) = false)
  ∧ (_normStr_ (fld obj H_REQ.JobStatus) = "Hired" →
     fld obj' H_REQ.HiredCandidateName = fld obj H_REQ.HiredCandidateName).
Proof.
  apply (engine_never_overwrites 20 (statusEdited 10 c3_sheet 2 "Open") 2);
    [compute_done|vm_compute; lia].
Defined.

Lemma engine_date_table_witness :
  let sh := setRowValuesByHeaders c3_sheet 2 {[ H_REQ.JobStatus := VStr "Hired" ]} in
  ANCHOR_HEADER_REQ ∈ hm sh ∧ dataStartRow sh ≤ 2
  ∧ truthy (fld (getRowObjectByHeaders (applyReqStatusTransitionsForRows_ 20 [2] sh) 2)
                H_REQ.ClosedDate) = true.
Proof.
  intros sh.
  assert (ANCHOR_HEADER_REQ ∈ hm sh) as A by compute_done.
  assert (dataStartRow sh ≤ 2) as L by (vm_compute; lia).
  split; [exact A|]. split; [exact L|].
  destruct (engine_date_table 20 sh 2 A L) as (_ & _ & _ & Hd).
  apply Hd; [vm_compute; reflexivity|compute_done].
Defined.

(** ** What the synchronisation leaves alone ([CandidatesSync.gs]) *)

Section Frames.
Context `{DateRender} `{UpperFirst}.

Lemma reject_fold_length now jobId hiredEmail entries all :
  (∀ r o, (r, o) ∈ entries →
          dataStartRow all ≤ r ∧ r - dataStartRow all < length (body all)) →
  length (body (foldl (hiredFlowRejectStep now jobId hiredEmail) all entries))
  = length (body all).
Proof.
  revert all. induction entries as [|[r0 o0] entries IH]; intros all R; [done|].
  rewrite foldl_step, hiredFlowRejectStep_eq.
  destruct (isRival jobId hiredEmail o0).
  - destruct (R r0 o0) as [L1 L2]; [by left|].
    rewrite IH; rewrite ?dataStartRow_setRowValuesByHeaders,
      ?body_setRowValuesByHeaders_in_range, ?length_alter; try done.
    intros r o I. apply (R r o). by right.
  - apply IH. intros r o I. apply (R r o). by right.
Qed.

(** X13. The hired flow never touches Active nor the recent-edit guard, and
    leaves its re-entrancy flag as it found it: a call that finds the flag set
    changes nothing at all.  In the candidate sheet it writes only rows of
    the job that are neither the hired address, nor Hired, nor Rejected
    already; every other row is left as it was, and no row is added or
    removed.  A job id unknown to the requisitions leaves them untouched. *)
Theorem applyHiredFlow_frame now (jobId hiredFullName hiredEmail : string) (w : world) :
  let w' := applyHiredFlow_ now jobId hiredFullName hiredEmail w in
  w_act w' = w_act w ∧ w_mute w' = w_mute w
  ∧ w_processingHiredFlow w' = w_processingHiredFlow w
  ∧ (w_processingHiredFlow w = true → w' = w)
  ∧ length (body (w_all w')) = length (body (w_all w))
  ∧ ((buildReqIndex (w_req w)).1 !! jobId = None → w_req w' = w_req w)
  ∧ (∀ i c, body (w_all w) !! i = Some c →
       _normStr_ (fld (rowObject (w_all w) c) H_ALL.JobID) ≠ jobId
       ∨ normEmail (fld (rowObject (w_all w) c) H_ALL.Email) = hiredEmail
       ∨ _normStr_ (fld (rowObject (w_all w) c) H_ALL.Stage) = "Hired"
       ∨ _normStr_ (fld (rowObject (w_all w) c) H_ALL.Stage) = "Rejected" →
       body (w_all w') !! i = Some c).
Proof.
  intros w'. subst w'. unfold applyHiredFlow_.
  destruct (w_processingHiredFlow w) eqn:F; [by rewrite F|].
  cbn [w_req w_all w_act w_mute w_processingHiredFlow].
  split_and!; try done.
  - unfold hiredFlowRejectOthers. destruct (getHeaderInfo _ _); [|done].
    apply reject_fold_length.
    intros r o (j & c' & -> & L & _)%candidateRows_entry. lia.
  - intros N. unfold hiredFlowRequisition. rewrite N. by destruct (getHeaderInfo _ _).
  - intros i c E D. unfold hiredFlowRejectOthers.
    destruct (getHeaderInfo _ _); [|done]. rewrite <- E.
    apply reject_fold_untouched.
    intros r o (j & c' & -> & L & E' & ->)%candidateRows_entry Riv.
    split_and!; [lia|lia|]. intros Q.
    assert (j = i) as -> by lia. assert (c' = c) as -> by congruence.
    unfold isRival in Riv.
    apply andb_true_iff in Riv as [[[R1 R2]%andb_true_iff R3]%andb_true_iff R4].
    apply String.eqb_eq in R1. apply negb_true_iff, String.eqb_neq in R2, R3, R4.
    naive_solver.
Qed.

Lemma hm_setFormula sh row h f : hm (setFormula sh row h f) = hm sh.
Proof. unfold setFormula. by destruct (_ <? _). Qed.

Lemma headerRow_setFormula sh row h f : headerRow (setFormula sh row h f) = headerRow sh.
Proof. unfold setFormula. by destruct (_ <? _). Qed.

Lemma linkStep_schema s cond row h url label st :
  hm (linkStep s cond row h url label st).1 = hm st.1
  ∧ headerRow (linkStep s cond row h url label st).1 = headerRow st.1.
Proof.
  unfold linkStep. destruct cond; [|done]. destruct (hyperlinkFor _ _); [|done].
  cbn [fst]. by rewrite hm_setFormula, headerRow_setFormula.
Qed.

Lemma upsert_frame now w data row rUrl lUrl :
  let w' := (_upsertActiveRow_ now w data row rUrl lUrl).1 in
  w_req w' = w_req w ∧ w_all w' = w_all w ∧ w_mute w' = w_mute w
  ∧ w_processingHiredFlow w' = w_processingHiredFlow w
  ∧ hm (w_act w') = hm (w_act w) ∧ headerRow (w_act w') = headerRow (w_act w).
Proof.
  intros w'. subst w'. unfold _upsertActiveRow_, getHeaderInfo.
  destruct (decide _); [|done]. destruct (decide _); [|done].
  destruct (_ || _); [done|].
  match goal with
  | |- context [match ?i !! ?k with Some r => @?f r | None => ?g end] =>
      set (base := match i !! k with Some r => f r | None => g end)
  end.
  assert (hm base.1.2 = hm (w_act w) ∧ headerRow base.1.2 = headerRow (w_act w))
    as [M Hr].
  { subst base. destruct (_ !! _).
    - cbv beta. destruct (isEmptyObj _); cbn [fst snd]; [done|].
      by rewrite hm_setRowValuesByHeaders, headerRow_setRowValuesByHeaders.
    - cbn [fst snd]. by rewrite hm_setRowValuesByHeaders, headerRow_setRowValuesByHeaders. }
  clearbody base. destruct base as [[t act1] ev1]. cbn [fst snd] in M, Hr.
  cbv beta iota zeta. cbn [fst snd w_act w_req w_all w_mute w_processingHiredFlow withAct].
  split_and!; try done.
  - repeat (etrans; [apply linkStep_schema|]). done.
  - repeat (etrans; [apply linkStep_schema|]). done.
Qed.


Lemma reconcileRow_frame now jobIds reqIdx w0 w pk evs row data :
  keepsFrame w0 w →
  dataStartRow (w_all w0) ≤ row →
  row - dataStartRow (w_all w0) < length (body (w_all w0)) →
  keepsFrame w0 (reconcileRow now jobIds reqIdx (w, pk, evs) (row, data)).1.1.
Proof.
  intros Inv L1 L2. unfold reconcileRow.
  destruct (_ || _); [done|]. destruct (bool_decide _); [done|].
  destruct (reqIdx !! _) as [reqRow|]; [|done].
  match goal with
  | |- context [if isEmptyObj ?d then ?a else ?b] =>
      set (t := if isEmptyObj d then a else b)
  end.
  assert (keepsFrame w0 t.1.1) as Inv1.
  { subst t. destruct (isEmptyObj _); cbn [fst snd]; [done|].
    set (diff := <[H_ALL.Updated := VDate now]> _).
    assert (diff !! H_ACT.JobID = None) as D1.
    { unfold diff. rewrite lookup_insert_ne by headers_differ.
      apply diffFields_dom. rewrite !elem_of_cons, elem_of_nil.
      intros [Q|[Q|[]]]; compute in Q; discriminate Q. }
    assert (diff !! H_ACT.Email = None) as D2.
    { unfold diff. rewrite lookup_insert_ne by headers_differ.
      apply diffFields_dom. rewrite !elem_of_cons, elem_of_nil.
      intros [Q|[Q|[]]]; compute in Q; discriminate Q. }
    destruct Inv as (Rq & Mu & Fl & Hm & Hr & Ln & Ia & Ha & Hra).
    assert (dataStartRow (w_all w) = dataStartRow (w_all w0)) as Ds
      by (unfold dataStartRow; by rewrite Hr).
    destruct (lookup_lt_is_Some_2 (body (w_all w)) (row - dataStartRow (w_all w)))
      as [c' E']; [rewrite Ds, Ln; lia|].
    split_and!; cbn [w_req w_all w_act w_mute w_processingHiredFlow withAll]; try done.
    - by rewrite hm_setRowValuesByHeaders.
    - by rewrite headerRow_setRowValuesByHeaders.
    - rewrite body_setRowValuesByHeaders_in_range, ?length_alter; try done;
        [lia|by apply lookup_lt_Some in E'].
    - rewrite <- Ia.
      apply (idents_set_same _ _ _ c' (rowIdent (w_all w) c')); try done; [lia|].
      by apply rowIdent_written_other. }
  clearbody t. destruct t as [[w1 data1] ev1]. cbn [fst snd] in Inv1.
  cbv beta iota zeta.
  destruct (_isOpenForActive_ _); [|done]. destruct (isRecentlyEdited _ _); [done|].
  match goal with
  | |- context [_upsertActiveRow_ now w1 data1 ?r ?a ?b] =>
      pose proof (upsert_frame now w1 data1 r a b) as Up;
      set (u := _upsertActiveRow_ now w1 data1 r a b) in *
  end.
  clearbody u. destruct u as [w2 ev2]. cbn [fst snd] in *.
  destruct Up as (U1 & U2 & U3 & U4 & U5 & U6).
  destruct Inv1 as (Rq & Mu & Fl & Hm & Hr & Ln & Ia & Ha & Hra).
  split_and!; congruence.
Qed.

Lemma reconcile_fold_frame now jobIds reqIdx w0 entries w pk evs :
  keepsFrame w0 w →
  (∀ r o, (r, o) ∈ entries →
          dataStartRow (w_all w0) ≤ r
          ∧ r - dataStartRow (w_all w0) < length (body (w_all w0))) →
  keepsFrame w0 (foldl (reconcileRow now jobIds reqIdx) (w, pk, evs) entries).1.1.
Proof.
  revert w pk evs. induction entries as [|[r o] entries IH]; intros w pk evs Inv R;
    [done|].
  rewrite foldl_step. destruct (R r o) as [L1 L2]; [by left|].
  pose proof (reconcileRow_frame now jobIds reqIdx w0 w pk evs r o Inv L1 L2) as Inv1.
  destruct (reconcileRow _ _ _ _ _) as [[w1 pk1] evs1]. cbn [fst snd] in Inv1.
  apply IH; [done|]. intros r' o' I. apply (R r' o'). by right.
Qed.

Lemma foldl_deleteRow_schema (act : sheet) rows :
  hm (foldl deleteRow act rows) = hm act
  ∧ headerRow (foldl deleteRow act rows) = headerRow act.
Proof.
  revert act. induction rows as [|r rows IH]; intros act; [done|].
  rewrite foldl_step. destruct (IH (deleteRow act r)) as [-> ->].
  unfold deleteRow. by destruct (_ <? _).
Qed.

(** X14. Every reconciliation, full or for a list of job ids, leaves the
    requisitions, the recent-edit guard and the header maps as they are, and
    in the candidate sheet it neither adds nor removes a row nor changes the
    job id or the address of a row: only Active gains and loses rows. *)
Theorem reconcile_frame now jobIds (w : world) :
  let w' := (reconcileActiveMembership_ByJobIds_ now jobIds w).1 in
  w_req w' = w_req w ∧ w_mute w' = w_mute w
  ∧ w_processingHiredFlow w' = w_processingHiredFlow w
  ∧ hm (w_all w') = hm (w_all w) ∧ headerRow (w_all w') = headerRow (w_all w)
  ∧ length (body (w_all w')) = length (body (w_all w))
  ∧ idents (w_all w') = idents (w_all w)
  ∧ hm (w_act w') = hm (w_act w) ∧ headerRow (w_act w') = headerRow (w_act w).
Proof.
  intros w'. change (keepsFrame w w'). subst w'.
  unfold reconcileActiveMembership_ByJobIds_, getHeaderInfo.
  destruct (decide _); [|done]. destruct (decide _); [|done]. destruct (decide _); [|done].
  destruct (buildCandidateIndex now (w_all w)) as [idxAll allRows] eqn:BA.
  assert (allRows = (buildCandidateIndex now (w_all w)).2) as ER by (by rewrite BA).
  set (act1 := foldl deleteRow _ _).
  match goal with
  | |- context [foldl ?f (?a, ?b, ?c) ?l] =>
      pose proof (reconcile_fold_frame now jobIds (buildReqIndex (w_req w)).1 w l a b c)
        as Fr;
      destruct (foldl f (a, b, c) l) as [[w' pk'] evs']
  end.
  cbn [fst snd] in *. apply Fr.
  - destruct (foldl_deleteRow_schema (w_act w)
                (toDelete jobIds (buildCandidateIndex now (w_act w)).1 idxAll
                   (buildReqIndex (w_req w)).1 (w_req w))) as [M Hr].
    by split_and!.
  - intros r o I.
    assert ((r, o) ∈ allRows) as I'.
    { destruct (bool_decide (jobIds = [])); [done|].
      by apply list_elem_of_filter in I as [_ I]. }
    rewrite ER in I'. apply candidateRows_entry in I' as (j & c & -> & L & _). lia.
Qed.

End Frames.

(** ** The debounce queue ([DebounceQueue.gs]) *)

Section Debounce_more.

Lemma dedupFirst_acc (acc xs : list string) :
  NoDup acc →
  let res := foldl (λ acc x, if bool_decide (x ∈ acc) then acc else acc ++ [x]) acc xs in
  NoDup res ∧ (∀ x, x ∈ res ↔ x ∈ acc ∨ x ∈ xs) ∧ acc `prefix_of` res.
Proof.
  revert acc. induction xs as [|x xs IH]; intros acc N res.
  { subst res. simpl. split_and!; [done| |done]. intros x. rewrite elem_of_nil. tauto. }
  subst res. rewrite foldl_step. case_bool_decide as I.
  - destruct (IH acc N) as (N' & El & Pre). split_and!; [done| |done].
    intros y. rewrite El, elem_of_cons. split; [tauto|]. intros [?|[->|?]]; tauto.
  - assert (NoDup (acc ++ [x])) as N1.
    { apply NoDup_app. split_and!; [done| |apply NoDup_singleton].
      intros y Iy ->%list_elem_of_singleton. done. }
    destruct (IH (acc ++ [x]) N1) as (N' & El & Pre). split_and!; [done| |].
    + intros y. rewrite El, elem_of_app, list_elem_of_singleton, elem_of_cons. tauto.
    + etrans; [|exact Pre]. by apply prefix_app_r.
Qed.

Lemma schedule_keeps_queue st :
  prop_jobIds (_scheduleReconcileTrigger st) = prop_jobIds st
  ∧ scriptLockFree (_scheduleReconcileTrigger st) = scriptLockFree st
  ∧ mayCreate (_scheduleReconcileTrigger st) = mayCreate st.
Proof.
  unfold _scheduleReconcileTrigger.
  destruct (prop_scheduled (_cleanupOrphanedTriggers_ st)) as [e|].
  - destruct (bool_decide _); [by split_and!|].
    cbn [mayCreate _cleanupOrphanedTriggers_].
    destruct (mayCreate st) eqn:M; split_and!; try reflexivity; by rewrite ?M.
  - cbn [mayCreate _cleanupOrphanedTriggers_].
    destruct (mayCreate st) eqn:M; split_and!; try reflexivity; by rewrite ?M.
Qed.

Lemma dedupFirst_spec (before jobIds : list string) :
  NoDup (dedupFirst (before ++ jobIds))
  ∧ (∀ x, x ∈ dedupFirst (before ++ jobIds) ↔ x ∈ before ∨ x ∈ jobIds)
  ∧ (NoDup before → before `prefix_of` dedupFirst (before ++ jobIds)).
Proof.
  destruct (dedupFirst_acc [] (before ++ jobIds)) as (ND & El & _); [constructor|].
  fold (dedupFirst (before ++ jobIds)) in ND, El.
  split_and!; [done| |].
  - intros x. rewrite El, elem_of_nil, elem_of_app. tauto.
  - intros NB. unfold dedupFirst. rewrite foldl_app.
    assert (foldl (λ acc x, if bool_decide (x ∈ acc) then acc else acc ++ [x]) []
                  before = before) as ->.
    { enough (∀ acc, NoDup (acc ++ before) →
                foldl (λ acc x, if bool_decide (x ∈ acc) then acc else acc ++ [x])
                      acc before = acc ++ before) as G by (by apply (G [])).
      clear. induction before as [|b before IH]; intros acc N.
      { by rewrite app_nil_r. }
      rewrite foldl_step. rewrite bool_decide_eq_false_2.
      - rewrite IH; by rewrite <- app_assoc.
      - apply NoDup_app in N as (_ & D & _). intros I. apply (D b I). by left. }
    by destruct (dedupFirst_acc before jobIds NB) as (_ & _ & P).
Qed.

(** X15. What [enqueueAndSchedule_Reconcile] leaves in the queue.  When the
    queue lock is busy nothing changes.  Otherwise a queued full resync
    stays; else the queue becomes a list without repetition that holds
    exactly the ids queued before (none when the stored text was not a list)
    and the new ones, the old ones first and in their order when they were
    distinct. *)
Theorem enqueue_queue_contents (jobIds : list string) (st : scheduler) :
  let st' := enqueueAndSchedule_Reconcile jobIds st in
  let before := match prop_jobIds st with Some (QJson ids) => ids | _ => [] end in
  (scriptLockFree st = false → st' = st)
  ∧ (scriptLockFree st = true → prop_jobIds st = Some QAll → prop_jobIds st' = Some QAll)
  ∧ (scriptLockFree st = true → prop_jobIds st ≠ Some QAll →
     ∃ ids, prop_jobIds st' = Some (QJson ids) ∧ NoDup ids
            ∧ (∀ x, x ∈ ids ↔ x ∈ before ∨ x ∈ jobIds)
            ∧ (NoDup before → before `prefix_of` ids)).
Proof.
  intros st' before. subst st'. unfold enqueueAndSchedule_Reconcile. split_and!.
  - by intros ->.
  - intros L Q. rewrite L, Q. cbn [negb].
    destruct (schedule_keeps_queue st) as [-> _]. done.
  - intros L N. rewrite L. cbn [negb]. exists (dedupFirst (before ++ jobIds)).
    split; [|apply dedupFirst_spec].
    subst before.
    destruct (prop_jobIds st) as [[|ids0|]|] eqn:E; [done|..];
      match goal with
      | |- prop_jobIds (_scheduleReconcileTrigger ?s) = _ =>
          by destruct (schedule_keeps_queue s) as [-> _]
      end.
Qed.

(** X16. The worker under [withLock].  With the document lock busy it
    changes nothing and runs nothing.  With the lock held and the recursion
    guard found set, it runs nothing and cleans nothing up: the queue, the
    scheduled id and the triggers stay, and only the guard is deleted.  With
    the lock held and no guard set, it ends with an empty queue and no
    scheduled id, and it deletes no trigger: its clean-up forgets the
    scheduled id before [_deleteReconcileTrigger] looks for it; it then runs
    nothing exactly for an empty, unreadable or empty-list queue. *)
Theorem worker_cleans_up_when_it_runs (d : document) (st : scheduler) :
  let res := Debounced_Reconcile_ d st in
  (documentLockFree d = false → res = (d, st, None))
  ∧ (documentLockFree d = true → prop_recGuard d = true →
     res = (Document true false, st, None))
  ∧ (documentLockFree d = true → prop_recGuard d = false →
     res.1.1 = Document true false
     ∧ prop_jobIds res.1.2 = None ∧ prop_scheduled res.1.2 = None
     ∧ triggers res.1.2 = triggers st ∧ nextId res.1.2 = nextId st
     ∧ (∃ run, res.2 = Some run
               ∧ (run = RunNothing ↔
                  prop_jobIds st = None ∨ prop_jobIds st = Some QCorrupt
                  ∨ prop_jobIds st = Some (QJson [])))).
Proof.
  intros res. subst res. unfold Debounced_Reconcile_, withLock.
  destruct d as [l g]. cbn [documentLockFree prop_recGuard].
  split_and!.
  - by intros ->.
  - by intros -> ->.
  - intros -> ->. cbn [negb]. cbv iota.
    unfold Debounced_Reconcile_fn, _deleteReconcileTrigger.
    cbn [fst snd prop_jobIds prop_scheduled triggers nextId].
    split_and!; try done.
    eexists. split; [done|].
    destruct (prop_jobIds st) as [[|[|j ids]|]|]; naive_solver.
Qed.

Lemma schedule_cases (st : scheduler) :
  let st0 := _cleanupOrphanedTriggers_ st in
  let st' := _scheduleReconcileTrigger st in
  let tracked :=
    ∃ i, prop_scheduled st = Some i ∧ Exists (λ t, trg_id t = i) (triggers st) in
  prop_jobIds st' = prop_jobIds st
  ∧ (tracked → prop_scheduled st' = prop_scheduled st ∧ triggers st' = triggers st0)
  ∧ (¬ tracked → mayCreate st = true →
     prop_scheduled st' = Some (nextId st)
     ∧ triggers st' = triggers st0 ++ [Trigger (nextId st) Debounced_Reconcile_name false]
     ∧ nextId st' = S (nextId st))
  ∧ (¬ tracked → mayCreate st = false →
     prop_scheduled st' = None ∧ triggers st' = triggers st0).
Proof.
  intros st0 st' tracked.
  assert (∀ i, prop_scheduled st = Some i →
               (Exists (λ t, trg_id t = i) (triggers st0)
                ↔ Exists (λ t, trg_id t = i) (triggers st))) as Keep.
  { intros i S. unfold st0, _cleanupOrphanedTriggers_. simpl.
    rewrite !Exists_exists. split.
    - intros (t & [_ I]%list_elem_of_filter & T). eauto.
    - intros (t & I & T). exists t. split; [|done].
      apply list_elem_of_filter. split; [|done].
      intros (_ & Tr & _). rewrite S, T in Tr. by rewrite bool_decide_eq_true_2 in Tr. }
  split; [apply schedule_keeps_queue|].
  subst st'. unfold _scheduleReconcileTrigger. fold st0.
  change (prop_scheduled st0) with (prop_scheduled st).
  change (mayCreate st0) with (mayCreate st).
  change (nextId st0) with (nextId st).
  split_and!.
  - intros (i & S & E). rewrite S.
    rewrite bool_decide_eq_true_2 by (by apply Keep). done.
  - intros NT C. destruct (prop_scheduled st) as [e|] eqn:S.
    + rewrite bool_decide_eq_false_2.
      2:{ intros E. apply NT. exists e. split; [done|]. by apply Keep. }
      cbn [mayCreate]. rewrite C. done.
    + rewrite C. done.
  - intros NT C. destruct (prop_scheduled st) as [e|] eqn:S.
    + rewrite bool_decide_eq_false_2.
      2:{ intros E. apply NT. exists e. split; [done|]. by apply Keep. }
      cbn [mayCreate]. rewrite C. done.
    + rewrite C. done.
Qed.

(** X17. Scheduling the worker.  A tracked trigger that still exists is kept
    and no trigger is created.  Otherwise, with the right to create
    triggers, one new trigger for the worker is created and tracked; without
    that right nothing is tracked and nothing created.  In every case the
    queue is left as it is. *)
Theorem schedule_tracks_one_trigger (st : scheduler) :
  let st0 := _cleanupOrphanedTriggers_ st in
  let st' := _scheduleReconcileTrigger st in
  let tracked :=
    ∃ i, prop_scheduled st = Some i ∧ Exists (λ t, trg_id t = i) (triggers st) in
  prop_jobIds st' = prop_jobIds st
  ∧ (tracked → prop_scheduled st' = prop_scheduled st ∧ triggers st' = triggers st0)
  ∧ (¬ tracked → mayCreate st = true →
     prop_scheduled st' = Some (nextId st)
     ∧ triggers st' = triggers st0 ++ [Trigger (nextId st) Debounced_Reconcile_name false]
     ∧ nextId st' = S (nextId st))
  ∧ (¬ tracked → mayCreate st = false →
     prop_scheduled st' = None ∧ triggers st' = triggers st0).
Proof. exact (schedule_cases st). Qed.

End Debounce_more.

(** ** Two requests before the worker fires *)

Section Debounce_pair.

Lemma dedupFirst_NoDup (l : list string) : NoDup l → dedupFirst l = l.
Proof.
  intros N.
  pose proof (dedupFirst_spec l []) as (ND & El & Pre).
  rewrite app_nil_r in *. specialize (Pre N).
  destruct Pre as [k E].
  assert (length (dedupFirst l) ≤ length l) as Le.
  { apply submseteq_length, NoDup_submseteq; [done|]. intros x I. by apply El in I as [I|I%elem_of_nil]. }
  rewrite E, length_app in Le. destruct k; [by rewrite app_nil_r in E|simpl in Le; lia].
Qed.

Lemma filter_all {A} (P : A → Prop) `{∀ x, Decision (P x)} (l : list A) :
  Forall P l → filter P l = l.
Proof.
  induction 1 as [|x l Px _ IH]; [done|]. by rewrite filter_cons, decide_True, IH.
Qed.

Lemma dedupFirst_merge (xs ys : list string) :
  dedupFirst (dedupFirst xs ++ ys) = dedupFirst (xs ++ ys).
Proof.
  unfold dedupFirst at 1 3. rewrite !foldl_app. f_equal.
  apply dedupFirst_NoDup.
  pose proof (dedupFirst_spec xs []) as (ND & _). by rewrite app_nil_r in ND.
Qed.


Lemma trackedTrigger_spec st :
  trackedTrigger st = true
  ↔ ∃ i, prop_scheduled st = Some i ∧ Exists (λ t, trg_id t = i) (triggers st).
Proof.
  unfold trackedTrigger. destruct (prop_scheduled st) as [i|].
  - rewrite bool_decide_eq_true. split; [eauto|]. by intros (? & [= <-] & ?).
  - split; [done|]. by intros (? & ? & _).
Qed.

(** One call of [_scheduleReconcileTrigger] by a script that may create
    triggers: afterwards a trigger is tracked, and a second call changes
    nothing. *)
Lemma schedule_then_tracked st :
  mayCreate st = true →
  let st' := _scheduleReconcileTrigger st in
  trackedTrigger st' = true
  ∧ triggers (_cleanupOrphanedTriggers_ st') = triggers st'
  ∧ triggers st' = triggers (_cleanupOrphanedTriggers_ st)
                   ++ (if trackedTrigger st then []
                       else [Trigger (nextId st) Debounced_Reconcile_name false]).
Proof.
  intros C st'.
  destruct (schedule_cases st) as (_ & T & N & _). fold st' in T, N.
  destruct (trackedTrigger st) eqn:TT.
  - apply trackedTrigger_spec in TT. destruct (T TT) as [S E].
    pose proof TT as (i & Si & Ex).
    rewrite app_nil_r. split_and!; [| |done].
    + apply trackedTrigger_spec. exists i. rewrite S. split; [done|].
      rewrite E. unfold _cleanupOrphanedTriggers_. cbn [triggers].
      apply Exists_exists in Ex as (t & I & Id). apply Exists_exists.
      exists t. split; [|done]. apply list_elem_of_filter. split; [|done].
      intros (_ & Tr & _). rewrite Si, Id in Tr. by rewrite bool_decide_eq_true_2 in Tr.
    + unfold _cleanupOrphanedTriggers_ at 1. cbn [triggers]. rewrite S, E.
      apply filter_all, Forall_forall. intros t I.
      unfold _cleanupOrphanedTriggers_ in I. cbn [triggers] in I.
      by apply list_elem_of_filter in I as [P _].
  - assert (¬ ∃ i, prop_scheduled st = Some i
                   ∧ Exists (λ t, trg_id t = i) (triggers st)) as NT.
    { intros X%trackedTrigger_spec. by rewrite TT in X. }
    destruct (N NT C) as (S & E & _).
    split_and!; [| |done].
    + apply trackedTrigger_spec. exists (nextId st). split; [done|].
      rewrite E. apply Exists_app. right. by constructor.
    + unfold _cleanupOrphanedTriggers_ at 1. cbn [triggers]. rewrite S, E.
      apply filter_all, Forall_app. split; [|by repeat constructor; intros (_ & _ & ?)].
      apply Forall_forall. intros t I (Hh & _ & St).
      unfold _cleanupOrphanedTriggers_ in I. cbn [triggers] in I.
      apply list_elem_of_filter in I as [P I]. apply P. split_and!; [done| |done].
      apply bool_decide_eq_false_2. intros Si. apply NT. exists (trg_id t).
      split; [done|]. apply Exists_exists. by exists t.
Qed.

Lemma schedule_from (q st : scheduler) :
  prop_scheduled q = prop_scheduled st → triggers q = triggers st →
  nextId q = nextId st → scriptLockFree q = true → mayCreate q = true →
  let st' := _scheduleReconcileTrigger q in
  scriptLockFree st' = true ∧ mayCreate st' = true
  ∧ trackedTrigger st' = true
  ∧ triggers (_cleanupOrphanedTriggers_ st') = triggers st'
  ∧ triggers st' = triggers (_cleanupOrphanedTriggers_ st)
                   ++ (if trackedTrigger st then []
                       else [Trigger (nextId st) Debounced_Reconcile_name false])
  ∧ (trackedTrigger st = true → prop_scheduled st' = prop_scheduled st)
  ∧ prop_jobIds st' = prop_jobIds q.
Proof.
  intros Qs Qt Qn Ql Qc st'.
  assert (trackedTrigger q = trackedTrigger st) as Tq
    by (unfold trackedTrigger; by rewrite Qs, Qt).
  assert (triggers (_cleanupOrphanedTriggers_ q) = triggers (_cleanupOrphanedTriggers_ st))
    as Cq by (unfold _cleanupOrphanedTriggers_; cbn [triggers]; by rewrite Qs, Qt).
  destruct (schedule_keeps_queue q) as (K1 & K2 & K3).
  destruct (schedule_then_tracked q Qc) as (T1 & T2 & T3).
  fold st' in K1, K2, K3, T1, T2, T3.
  rewrite Tq, Cq, Qn in T3.
  split_and!; try done; try congruence.
  intros TT. rewrite <- Tq in TT. apply trackedTrigger_spec in TT.
  destruct (schedule_cases q) as (_ & T & _). destruct (T TT) as [E _].
  fold st' in E. congruence.
Qed.

(** What one request does, with the queue lock free and the right to create
    triggers. *)
Lemma enqueue_once (jobIds : list string) (st : scheduler) :
  scriptLockFree st = true → mayCreate st = true →
  let before := match prop_jobIds st with Some (QJson ids) => ids | _ => [] end in
  let st' := enqueueAndSchedule_Reconcile jobIds st in
  scriptLockFree st' = true ∧ mayCreate st' = true
  ∧ trackedTrigger st' = true
  ∧ triggers (_cleanupOrphanedTriggers_ st') = triggers st'
  ∧ triggers st' = triggers (_cleanupOrphanedTriggers_ st)
                   ++ (if trackedTrigger st then []
                       else [Trigger (nextId st) Debounced_Reconcile_name false])
  ∧ (trackedTrigger st = true → prop_scheduled st' = prop_scheduled st)
  ∧ prop_jobIds st' = match prop_jobIds st with
                      | Some QAll => Some QAll
                      | _ => Some (QJson (dedupFirst (before ++ jobIds)))
                      end.
Proof.
  intros L C before st'. subst st' before. unfold enqueueAndSchedule_Reconcile.
  rewrite L. cbn [negb].
  destruct (prop_jobIds st) as [[| |]|] eqn:E;
    match goal with
    | |- context [_scheduleReconcileTrigger ?q] =>
        destruct (schedule_from q st) as (? & ? & ? & ? & ? & ? & Q); try done
    end.
  rewrite Q. by split_and!.
Qed.

(** C9. With the queue lock free and the right to create triggers, whatever
    the queue, the scheduled id and the project triggers were before:
    [enqueue] of J1 and then of J2, with no run of the worker in between,
    leave one tracked trigger that exists; the second request creates no
    trigger and deletes none, and the two requests together create one
    trigger, or none when a tracked trigger existed already.  Unless a full
    resync was queued, the queue afterwards is a list without repetition
    that holds exactly the ids queued before, J1 and J2: from an empty queue
    it is J1, J2, or J1 alone when J2 is the same id.  The next run of the
    worker (document lock held, no recursion guard set) reconciles that
    whole list in one run and empties the queue. *)
Theorem enqueue_twice_coalesces (st : scheduler) (J1 J2 : string) :
  scriptLockFree st = true → mayCreate st = true →
  let before := match prop_jobIds st with Some (QJson ids) => ids | _ => [] end in
  let st1 := enqueueAndSchedule_Reconcile [J1] st in
  let st2 := enqueueAndSchedule_Reconcile [J2] st1 in
  let run := Debounced_Reconcile_ (Document true false) st2 in
  (∃ i, prop_scheduled st1 = Some i ∧ prop_scheduled st2 = Some i
        ∧ Exists (λ t, trg_id t = i) (triggers st2))
  ∧ triggers st2 = triggers st1
  ∧ triggers st1 = triggers (_cleanupOrphanedTriggers_ st)
                   ++ (if trackedTrigger st then []
                       else [Trigger (nextId st) Debounced_Reconcile_name false])
  ∧ (prop_jobIds st = Some QAll →
     prop_jobIds st2 = Some QAll ∧ run.2 = Some RunAll)
  ∧ (prop_jobIds st ≠ Some QAll →
     ∃ ids, prop_jobIds st2 = Some (QJson ids) ∧ NoDup ids
            ∧ (∀ x, x ∈ ids ↔ x ∈ before ∨ x = J1 ∨ x = J2)
            ∧ (before = [] → ids = if decide (J1 = J2) then [J1] else [J1; J2])
            ∧ run.2 = Some (RunIds ids))
  ∧ prop_jobIds run.1.2 = None ∧ prop_scheduled run.1.2 = None.
Proof.
  intros L C before st1 st2 run.
  destruct (enqueue_once [J1] st L C) as (L1 & C1 & T1 & I1 & E1 & _ & Q1).
  fold st1 in L1, C1, T1, I1, E1, Q1. fold before in Q1.
  destruct (enqueue_once [J2] st1 L1 C1) as (_ & _ & T2 & _ & E2 & S2 & Q2).
  fold st2 in T2, E2, S2, Q2. rewrite T1, app_nil_r, I1 in E2. specialize (S2 T1).
  assert (∀ ids, prop_jobIds st2 = Some (QJson ids) → ids ≠ [] →
                 run.2 = Some (RunIds ids)) as R.
  { intros ids E N. subst run.
    unfold Debounced_Reconcile_, withLock, Debounced_Reconcile_fn.
    cbn [documentLockFree prop_recGuard negb snd]. rewrite E. by destruct ids. }
  split_and!.
  - apply trackedTrigger_spec in T2 as (i & Si & Ex). exists i.
    by rewrite <- S2.
  - done.
  - done.
  - intros Q. rewrite Q in Q1. rewrite Q1 in Q2. split; [done|].
    subst run. unfold Debounced_Reconcile_, withLock, Debounced_Reconcile_fn.
    cbn [documentLockFree prop_recGuard negb snd]. by rewrite Q2.
  - intros NQ.
    assert (prop_jobIds st1 = Some (QJson (dedupFirst (before ++ [J1])))) as Q1'.
    { rewrite Q1. by destruct (prop_jobIds st) as [[| |]|]. }
    rewrite Q1', dedupFirst_merge, <- app_assoc in Q2. cbn [app] in Q2.
    destruct (dedupFirst_spec before [J1; J2]) as (ND & El & _).
    exists (dedupFirst (before ++ [J1; J2])). split_and!; [done|done| | |].
    + intros x. rewrite El, !elem_of_cons, elem_of_nil. tauto.
    + intros ->. cbn [app]. unfold dedupFirst. cbn [foldl].
      rewrite (bool_decide_eq_false_2 (J1 ∈ [])) by apply not_elem_of_nil.
      cbn [app]. destruct (decide (J1 = J2)) as [->|N].
      * rewrite bool_decide_eq_true_2; [done|]. by apply list_elem_of_singleton.
      * rewrite bool_decide_eq_false_2; [done|].
        by intros ->%list_elem_of_singleton.
    + apply R; [done|]. intros E. assert (J2 ∈ dedupFirst (before ++ [J1; J2])) as I.
      { apply El. right. apply elem_of_cons. right. by apply list_elem_of_singleton. }
      rewrite E in I. by apply elem_of_nil in I.
  - subst run. unfold Debounced_Reconcile_, withLock, Debounced_Reconcile_fn.
    cbn [documentLockFree prop_recGuard negb fst snd]. done.
  - subst run. unfold Debounced_Reconcile_, withLock, Debounced_Reconcile_fn.
    cbn [documentLockFree prop_recGuard negb fst snd]. done.
Qed.

End Debounce_pair.

Lemma enqueue_twice_coalesces_witness :
  let st := Scheduler (Some (QJson ["J0"; "J1"])) (Some 5)
              [Trigger 7 "onEdit_Installable" false;
               Trigger 6 Debounced_Reconcile_name false] 8 true true in
  let st2 := enqueueAndSchedule_Reconcile ["J2"]
               (enqueueAndSchedule_Reconcile ["J1"] st) in
  triggers st2 = triggers st ++ [Trigger 8 Debounced_Reconcile_name false]
  ∧ prop_scheduled st2 = Some 8
  ∧ prop_jobIds st2 = Some (QJson ["J0"; "J1"; "J2"])
  ∧ (Debounced_Reconcile_ (Document true false) st2).2 = Some (RunIds ["J0"; "J1"; "J2"]).
Proof.
  intros st st2.
  destruct (enqueue_twice_coalesces st "J1" "J2" eq_refl eq_refl)
    as (_ & _ & _ & _ & Q & _).
  destruct (Q ltac:(done)) as (ids & E & _ & _ & _ & R).
  fold st2 in E, R. split_and!; [by vm_compute|by vm_compute|by vm_compute|].
  rewrite R. f_equal. f_equal. injection E as <-. by vm_compute.
Defined.

(** ** Business days, once more ([businessDaysBetween]) *)

Section BusinessDays_more.
Local Open Scope Z_scope.
Variable tz : Z.

Lemma setHours0_diff a b :
  setHours0 tz b - setHours0 tz a = (localDay tz b - localDay tz a) * msPerDay.
Proof. unfold setHours0. lia. Qed.

Lemma dayByDayLoop_bounds e fuel : ∀ d n k,
  0 ≤ k → e - d ≤ k * msPerDay →
  n ≤ dayByDayLoop tz fuel d e n ≤ n + k.
Proof.
  induction fuel as [|fuel IH]; intros d n k K D; simpl; [lia|].
  destruct (Z.ltb_spec d e) as [L|L]; [|lia].
  set (n' := if isWeekday tz d && negb (bool_decide (formatDate tz d ∈ US_HOLIDAYS))
             then n + 1 else n).
  assert (n ≤ n' ≤ n + 1) as N by (subst n'; destruct (_ && _); lia).
  assert (0 ≤ k - 1 ∧ e - addDays d 1 ≤ (k - 1) * msPerDay) as [K1 D1].
  { unfold addDays. change msPerDay with 86400000 in *. lia. }
  specialize (IH (addDays d 1) n' (k - 1) K1 D1). lia.
Qed.

Lemma remaining_fold_bounds (f : nat → bool) l : ∀ n,
  n ≤ foldl (λ n (i : nat), if f i then n + 1 else n) n l ≤ n + Z.of_nat (length l).
Proof.
  induction l as [|i l IH]; intros n; simpl; [lia|].
  specialize (IH (if f i then n + 1 else n)). destruct (f i); lia.
Qed.

(** The holiday loop subtracts at most one per holiday of the range. *)
Lemma holiday_fold_bounds s e l : ∀ n,
  n - Z.of_nat (length (filter (λ h, s ≤ h < e) (omap dateOfIso l)))
  ≤ foldl (λ n holiday,
             match dateOfIso holiday with
             | Some hDate =>
                 if (s <=? hDate) && (hDate <? e) && isWeekday tz hDate then n - 1 else n
             | None => n
             end) n l
  ≤ n.
Proof.
  induction l as [|x l IH]; intros n; simpl; [lia|].
  change (list_omap string Z dateOfIso l) with (omap dateOfIso l).
  destruct (dateOfIso x) as [h|]; [|apply IH].
  rewrite filter_cons.
  destruct (Z.leb_spec s h), (Z.ltb_spec h e); simpl.
  - rewrite decide_True by lia. simpl length.
    destruct (IH (if isWeekday tz h then n - 1 else n)) as [I1 I2].
    split; [etrans; [|exact I1]|etrans; [exact I2|]]; destruct (isWeekday tz h); lia.
  - rewrite decide_False by lia. apply IH.
  - rewrite decide_False by lia. apply IH.
  - rewrite decide_False by lia. apply IH.
Qed.

Lemma filter_none {A} (P : A → Prop) `{∀ x, Decision (P x)} (l : list A) :
  Forall (λ x, ¬ P x) l → filter P l = [].
Proof.
  induction 1 as [|x l N _ IH]; [done|].
  rewrite filter_cons, decide_False by done. exact IH.
Qed.

Lemma StronglySorted_drop {A} (R : A → A → Prop) (l : list A) n :
  StronglySorted R l → StronglySorted R (drop n l).
Proof.
  intros Srt. revert n. induction Srt as [|x l Srt IH Hd]; intros [|n]; simpl;
    try constructor; done.
Qed.

(** In a sorted list whose [n]-th successor of every entry is at least a
    window away, a window holds at most [n] entries. *)
Lemma window_count (hs : list Z) (s e : Z) (n : nat) :
  StronglySorted Z.le hs →
  (∀ i a b, hs !! i = Some a → hs !! (i + n)%nat = Some b → e - s ≤ b - a) →
  (length (filter (λ h, (s ≤ h < e)%Z) hs) ≤ n)%nat.
Proof.
  induction hs as [|h hs IH]; intros Srt W; [simpl; lia|].
  apply StronglySorted_inv in Srt as [Srt Hd].
  rewrite filter_cons. destruct (decide (s ≤ h < e)) as [P|P].
  - destruct n as [|n].
    { specialize (W 0%nat h h eq_refl eq_refl). lia. }
    simpl length. apply le_n_S.
    rewrite <- (take_drop n hs) at 1. rewrite filter_app.
    assert (filter (λ h, s ≤ h < e) (drop n hs) = []) as ->.
    { destruct (drop n hs) as [|b tl] eqn:Dr; [done|].
      assert (hs !! n = Some b) as B.
      { rewrite <- (Nat.add_0_r n), <- lookup_drop, Dr. done. }
      specialize (W 0%nat h b eq_refl B).
      assert (StronglySorted Z.le (b :: tl)) as Srt'
        by (rewrite <- Dr; by apply StronglySorted_drop).
      apply StronglySorted_inv in Srt' as [_ Fb].
      apply filter_none. constructor; [lia|].
      eapply Forall_impl; [exact Fb|]. intros x X. simpl in X. lia. }
    rewrite app_nil_r.
    etrans; [apply length_filter|]. rewrite length_take. lia.
  - apply IH; [done|]. intros i a b A B. apply (W (S i) a b); done.
Qed.

Lemma holidays_sorted : StronglySorted Z.le (omap dateOfIso US_HOLIDAYS).
Proof. apply (bool_decide_unpack _). by vm_compute. Qed.

(** The same holiday of the next year is at least forty-one days away. *)
Lemma holidays_window i a b :
  omap dateOfIso US_HOLIDAYS !! i = Some a →
  omap dateOfIso US_HOLIDAYS !! (i + 10)%nat = Some b →
  41 * msPerDay ≤ b - a.
Proof.
  intros A B.
  assert (Forall (λ p, 41 * msPerDay ≤ p.2 - p.1)
            (zip (omap dateOfIso US_HOLIDAYS) (drop 10 (omap dateOfIso US_HOLIDAYS))))
    as F by (apply (bool_decide_unpack _); by vm_compute).
  apply (Forall_lookup_1 _ _ i (a, b)) in F; [done|].
  apply lookup_zip_with_Some. exists a, b. split; [done|]. split; [done|].
  rewrite lookup_drop. by rewrite Nat.add_comm.
Qed.

(** X18. [businessDaysBetween] is never negative and never more than the
    number of calendar days from the local day of the start to the local day
    of the end; so it is 0 when the end is not on a later day. *)
Theorem businessDaysBetween_bounds (a b : Z) :
  0 ≤ businessDaysBetween tz a b ≤ Z.max 0 (localDay tz b - localDay tz a).
Proof.
  unfold businessDaysBetween.
  pose proof (setHours0_diff a b) as D.
  set (s := setHours0 tz a) in *. set (e := setHours0 tz b) in *.
  set (days := localDay tz b - localDay tz a) in *.
  assert (0 < msPerDay) as M by done.
  destruct (Z.leb_spec e s) as [L|L]; [lia|].
  assert (0 < days) as P by nia.
  assert ((e - s) / msPerDay = days) as T by (rewrite D; apply Z.div_mul; lia).
  cbv zeta. rewrite T.
  destruct (Z.ltb_spec 14 days) as [G|G].
  - unfold fullWeekCount. cbv zeta. rewrite T.
    set (fw := days / 7). set (rem := days mod 7).
    assert (days = 7 * fw + rem ∧ 0 ≤ rem < 7) as [Q R].
    { split; [apply Z.div_mod; lia|apply Z.mod_pos_bound; lia]. }
    pose proof (remaining_fold_bounds
                  (λ i : nat, isWeekday tz (addDays (addDays s (fw * 7)) (Z.of_nat i)))
                  (seq 0 (Z.to_nat rem)) (fw * 5)) as B1.
    cbv beta in B1.
    set (base := foldl _ (fw * 5) (seq 0 (Z.to_nat rem))) in *.
    pose proof (holiday_fold_bounds s e US_HOLIDAYS base) as B2.
    rewrite length_seq, Z2Nat.id in B1 by lia.
    cbv beta in B1, B2.
    split; [|lia].
    etrans; [|apply B2].
    set (cnt := length _) in *.
    destruct (Z.le_gt_cases 6 fw) as [F|F].
    + assert (cnt ≤ 30)%nat; [|lia].
      subst cnt. etrans; [apply length_filter|]. by vm_compute.
    + assert (cnt ≤ 10)%nat; [|lia].
      subst cnt. apply window_count; [apply holidays_sorted|].
      intros i x y X Y. pose proof (holidays_window i x y X Y) as W.
      change msPerDay with 86400000 in *. lia.
  - unfold dayByDay.
    pose proof (dayByDayLoop_bounds e (Z.to_nat ((e - s) / msPerDay + 1)) s 0 days) as B.
    lia.
Qed.

End BusinessDays_more.

(** ** Unique e-mail addresses, once more ([enforceUniqueEmail_]) *)

Section UniqueEmail_more.
Context `{DateRender} `{UpperFirst}.

(** The rows collected by the scan: the edited rows with an address that a
    row above them has too. *)
Lemma rowsToClear_spec (sh : sheet) rows r :
  r ∈ rowsToClear sh rows ↔
  ∃ j c, r = dataStartRow sh + j ∧ body sh !! j = Some c ∧ rowEmail sh c ≠ ""
         ∧ r ∈ rows
         ∧ ∃ i c', i < j ∧ body sh !! i = Some c' ∧ rowEmail sh c' = rowEmail sh c.
Proof.
  unfold rowsToClear.
  destruct (scan_spec rows (dataObjects sh) ∅ []) as [_ S]. rewrite S. clear S.
  assert (∀ k ck, body sh !! k = Some ck → rowEmail sh ck ≠ "" →
            dataObjects sh !! k = Some (dataStartRow sh + k, rowObject sh ck)) as DO.
  { intros k ck Ek Nk. apply (dataObjects_of_content sh k ck H_ALL.Email Ek).
    intros F. apply Nk. unfold rowEmail. by rewrite F. }
  split.
  - intros [I|(j & o & Ej & N & R & [I|(i & r' & o' & L & Ei & Q)])].
    + by apply elem_of_nil in I.
    + rewrite lookup_empty in I. by destruct I.
    + apply dataObjects_lookup in Ej as (_ & -> & c & Ec & ->).
      apply dataObjects_lookup in Ei as (_ & -> & c' & Ec' & ->).
      exists j, c. split_and!; try done. exists i, c'. done.
  - intros (j & c & -> & Ec & N & R & i & c' & L & Ec' & Q).
    right. exists j, (rowObject sh c). split_and!; [by apply DO|done|done|].
    right. exists i, (dataStartRow sh + i), (rowObject sh c').
    split_and!; [done| |done]. apply DO; [done|]. by rewrite Q.
Qed.

(** The cells of a cleared row. *)
Lemma clearEmails_cells cl : ∀ sh,
  H_ALL.Email ∈ hm sh →
  (∀ r, r ∈ cl → dataStartRow sh ≤ r ∧ r - dataStartRow sh < length (body sh)) →
  length (body (clearEmails sh cl)) = length (body sh)
  ∧ (∀ i, dataStartRow sh + i ∉ cl → body (clearEmails sh cl) !! i = body sh !! i)
  ∧ ∀ i c, body sh !! i = Some c → dataStartRow sh + i ∈ cl →
      ∃ c', body (clearEmails sh cl) !! i = Some c'
            ∧ c' !! H_ALL.Email = Some (CVal (VStr ""))
            ∧ ∀ h, h ≠ H_ALL.Email → c' !! h = c !! h.
Proof.
  induction cl as [|r cl IH]; intros sh E R.
  { split; [done|]. split; [done|]. intros i c _ I. by apply elem_of_nil in I. }
  destruct (R r) as [L1 L2]; [by left|].
  set (sh1 := setRowValuesByHeaders sh r {[ H_ALL.Email := VStr "" ]}).
  assert (hm sh1 = hm sh) as M1 by apply hm_setRowValuesByHeaders.
  assert (dataStartRow sh1 = dataStartRow sh) as D1
    by apply dataStartRow_setRowValuesByHeaders.
  assert (body sh1 = alter (λ cells, (CVal <$> filter (λ p, p.1 ∈ hm sh)
                                        {[ H_ALL.Email := VStr "" ]}) ∪ cells)
                           (r - dataStartRow sh) (body sh)) as B1
    by (by apply body_setRowValuesByHeaders_in_range).
  assert (∀ c0 : gmap string cell,
            ((CVal <$> filter (λ p, p.1 ∈ hm sh) {[ H_ALL.Email := VStr "" ]}) ∪ c0)
              !! H_ALL.Email = Some (CVal (VStr ""))
            ∧ ∀ h, h ≠ H_ALL.Email →
                ((CVal <$> filter (λ p : string * jsval, p.1 ∈ hm sh)
                             {[ H_ALL.Email := VStr "" ]}) ∪ c0) !! h = c0 !! h) as W.
  { intros c0. rewrite map_filter_singleton_True by done. rewrite map_fmap_singleton.
    split.
    - apply lookup_union_Some_l, lookup_singleton_eq.
    - intros h N. rewrite lookup_union_r; [done|]. by apply lookup_singleton_ne. }
  assert (∀ r', r' ∈ cl →
            dataStartRow sh1 ≤ r' ∧ r' - dataStartRow sh1 < length (body sh1)) as R1.
  { intros r' I. rewrite D1, B1, length_alter. apply R. by right. }
  destruct (IH sh1 ltac:(by rewrite M1) R1) as (Len & Keep & Cells).
  change (clearEmails sh (r :: cl)) with (clearEmails sh1 cl).
  split; [by rewrite Len, B1, length_alter|]. split.
  { intros i N. apply not_elem_of_cons in N as [N1 N2].
    rewrite Keep by (by rewrite D1). rewrite B1.
    apply list_lookup_alter_ne. lia. }
  intros i c Ei I.
  assert (∃ c1, body sh1 !! i = Some c1
                ∧ (i = r - dataStartRow sh → c1 !! H_ALL.Email = Some (CVal (VStr "")))
                ∧ ∀ h, h ≠ H_ALL.Email → c1 !! h = c !! h) as (c1 & E1 & Q1 & O1).
  { rewrite B1. destruct (decide (i = r - dataStartRow sh)) as [->|Ne].
    - rewrite list_lookup_alter_eq, Ei. simpl. eexists. split; [done|].
      destruct (W c) as [W1 W2]. split; [done|exact W2].
    - rewrite list_lookup_alter_ne by done. exists c. split; [done|]. split; done. }
  destruct (decide (dataStartRow sh1 + i ∈ cl)) as [J|J].
  - destruct (Cells i c1 E1 J) as (c' & E' & Q' & O'). exists c'.
    split; [done|]. split; [done|]. intros h N. by rewrite O', O1.
  - exists c1. rewrite (Keep i J). split; [done|]. split; [|done].
    apply Q1. rewrite D1 in J. apply elem_of_cons in I as [I|I]; [lia|done].
Qed.

(** X19. What [enforceUniqueEmail_] clears, exactly.  A row loses its
    address when it is an edited row with an address that a row above it
    carries too (after normalisation); it then keeps every other cell.  Every
    other row, and so the first row of every address, is left as it is; no
    row is added or removed. *)
Theorem enforceUniqueEmail_clears_only_repeats (sh : sheet) (rows : list nat) :
  ANCHOR_HEADER_ALL ∈ hm sh → H_ALL.Email ∈ hm sh →
  let sh' := enforceUniqueEmail_ sh rows in
  let repeats i c :=
    rowEmail sh c ≠ "" ∧ dataStartRow sh + i ∈ rows
    ∧ ∃ j c0, j < i ∧ body sh !! j = Some c0 ∧ rowEmail sh c0 = rowEmail sh c in
  hm sh' = hm sh ∧ headerRow sh' = headerRow sh
  ∧ length (body sh') = length (body sh)
  ∧ (∀ i c, body sh !! i = Some c → ¬ repeats i c → body sh' !! i = Some c)
  ∧ (∀ i c, body sh !! i = Some c → repeats i c →
       ∃ c', body sh' !! i = Some c' ∧ rowEmail sh' c' = ""
             ∧ ∀ h, h ≠ H_ALL.Email → c' !! h = c !! h).
Proof.
  intros A E sh' repeats.
  assert (∀ i c, body sh !! i = Some c →
            (dataStartRow sh + i ∈ rowsToClear sh rows ↔ repeats i c)) as C.
  { intros i c Ei. rewrite rowsToClear_spec. unfold repeats. split.
    - intros (j & c1 & Q & Ej & N & R & D).
      assert (j = i) as -> by lia. assert (c1 = c) as -> by congruence. done.
    - intros (N & R & D). exists i, c. done. }
  assert (∀ r, r ∈ rowsToClear sh rows →
               dataStartRow sh ≤ r ∧ r - dataStartRow sh < length (body sh)) as R.
  { intros r (j & c & -> & Ej & _)%rowsToClear_spec.
    split; [lia|]. apply lookup_lt_Some in Ej. lia. }
  destruct (clearEmails_spec (rowsToClear sh rows) sh E R) as (M & Hr & _).
  destruct (clearEmails_cells (rowsToClear sh rows) sh E R) as (Len & Keep & Cells).
  subst sh'. unfold enforceUniqueEmail_, getHeaderInfo. rewrite decide_True by done.
  unfold has. rewrite bool_decide_eq_true_2 by done. cbn [negb].
  destruct (getLastRow sh <? dataStartRow sh) eqn:Last.
  - split_and!; try done. intros i c Ei (N & _). destruct N.
    apply Nat.ltb_lt in Last. unfold getLastRow, dataStartRow in Last.
    unfold rowEmail. rewrite fld_blank; [done|].
    apply (blank_beyond (body sh) i); [done|lia].
  - fold (clearEmails sh (rowsToClear sh rows)). split_and!; try done.
    + intros i c Ei N. rewrite Keep; [done|]. intros I. by apply N, (C i c Ei).
    + intros i c Ei Rp. apply (C i c Ei) in Rp.
      destruct (Cells i c Ei Rp) as (c' & E' & Q' & O'). exists c'.
      split; [done|]. split; [|done].
      unfold rowEmail, fld. rewrite lookup_rowObject, M.
      rewrite decide_True by done. rewrite Q'. reflexivity.
Qed.

End UniqueEmail_more.

Lemma enforceUniqueEmail_clears_only_repeats_witness :
  ANCHOR_HEADER_ALL ∈ hm c5_sheet_edited_last
  ∧ H_ALL.Email ∈ hm c5_sheet_edited_last
  ∧ body (enforceUniqueEmail_ c5_sheet_edited_last [4]) !! 0
    = Some (candidate "Ann" "2025-0001" "a@x.com" "Applied").
Proof.
  assert (ANCHOR_HEADER_ALL ∈ hm c5_sheet_edited_last) as A by (vm_compute; reflexivity).
  assert (H_ALL.Email ∈ hm c5_sheet_edited_last) as E by (vm_compute; reflexivity).
  split; [exact A|]. split; [exact E|].
  destruct (enforceUniqueEmail_clears_only_repeats c5_sheet_edited_last [4] A E)
    as (_ & _ & _ & K & _).
  apply K; [reflexivity|]. intros (_ & _ & j & c0 & L & _). lia.
Defined.


(** ** Job title and status of the candidates *)

Section Autopopulate_facts.
Context `{DateRender} `{UpperFirst}.


Lemma diffFields_empty (src tgt : gmap string jsval) fields :
  _diffFields_ src tgt fields = ∅ ↔
  ∀ f, f ∈ fields → _valsEqual_ (fld src f) (fld tgt f) = true.
Proof.
  split.
  - intros E f I. pose proof (lookup_diffFields src tgt fields f) as L.
    rewrite E, lookup_empty in L.
    destruct (decide _) as [D|D]; [done|].
    destruct (_valsEqual_ _ _); [done|]. destruct D. done.
  - intros A. apply map_eq. intros h. rewrite lookup_diffFields, lookup_empty.
    rewrite decide_False; [done|]. intros [I F]. by rewrite (A h I) in F.
Qed.

Lemma fld_want_title req reqRow :
  fld (wantFromReq req reqRow) H_ALL.JobTitle
  = orEmpty (fld (getRowObjectByHeaders req reqRow) H_REQ.JobTitle).
Proof. done. Qed.

Lemma fld_want_status req reqRow :
  fld (wantFromReq req reqRow) H_ALL.JobStatus
  = VStr (_canonReqStatus_ (orEmpty (fld (getRowObjectByHeaders req reqRow) H_REQ.JobStatus))).
Proof. done. Qed.

Lemma mirrors_diff req cur :
  mirrorsRequisition req cur ↔
  ∀ reqRow, (buildReqIndex req).1 !! _normStr_ (fld cur H_ALL.JobID) = Some reqRow →
            _diffFields_ (wantFromReq req reqRow) cur [H_ALL.JobTitle; H_ALL.JobStatus] = ∅.
Proof.
  unfold mirrorsRequisition. split; intros M reqRow I; specialize (M reqRow I).
  - apply diffFields_empty. intros f [->|[->|F]%elem_of_cons]%elem_of_cons.
    + rewrite fld_want_title. apply M.
    + rewrite fld_want_status. apply M.
    + by apply elem_of_nil in F.
  - cbv zeta. rewrite <- fld_want_title, <- fld_want_status.
    split; apply (proj1 (diffFields_empty _ _ _) M); repeat constructor.
Qed.

(** A row that agrees is not written. *)
Lemma autopopulateStep_quiet now req all row cur :
  mirrorsRequisition req cur →
  autopopulateStep now req (buildReqIndex req).1 all row cur = all.
Proof.
  intros M. unfold autopopulateStep. destruct (negb _); [done|].
  destruct (_ !! _) as [reqRow|] eqn:I; [|done].
  cbv zeta. rewrite (proj1 (mirrors_diff req cur) M reqRow I). done.
Qed.

Lemma autopopulateStep_schema now req idx all row cur :
  hm (autopopulateStep now req idx all row cur) = hm all
  ∧ headerRow (autopopulateStep now req idx all row cur) = headerRow all.
Proof.
  unfold autopopulateStep. destruct (negb _); [done|].
  destruct (_ !! _); [|done]. cbv zeta. destruct (isEmptyObj _); [done|].
  split; [apply hm_setRowValuesByHeaders|apply headerRow_setRowValuesByHeaders].
Qed.

Lemma autopopulateStep_other now req idx all row cur row' :
  row' ≠ row →
  getRowObjectByHeaders (autopopulateStep now req idx all row cur) row'
  = getRowObjectByHeaders all row'.
Proof.
  intros N. unfold autopopulateStep. destruct (negb _); [done|].
  destruct (_ !! _); [|done]. cbv zeta. destruct (isEmptyObj _); [done|].
  destruct (decide (dataStartRow all ≤ row')) as [L|L].
  - by apply get_set_other.
  - unfold getRowObjectByHeaders. rewrite dataStartRow_setRowValuesByHeaders.
    by destruct (Nat.ltb_spec row' (dataStartRow all)); [|lia].
Qed.

(** The fields a step can change. *)
Lemma autopopulateStep_fields now req idx all row h :
  h ∉ [H_ALL.JobTitle; H_ALL.JobStatus; H_ALL.Updated] →
  fld (getRowObjectByHeaders
         (autopopulateStep now req idx all row (getRowObjectByHeaders all row)) row) h
  = fld (getRowObjectByHeaders all row) h.
Proof.
  intros N. unfold autopopulateStep. destruct (negb _); [done|].
  destruct (_ !! _) as [reqRow|]; [|done]. cbv zeta. destruct (isEmptyObj _); [done|].
  destruct (decide (dataStartRow all ≤ row)) as [L|L].
  - rewrite fld_get_set by done. destruct (decide (h ∈ hm all)) as [I|I].
    + rewrite lookup_insert_ne by (intros <-; apply N; repeat constructor).
      rewrite lookup_diffFields, decide_False; [done|].
      intros [F _]. apply N.
      apply elem_of_cons in F as [->|F]; [repeat constructor|].
      apply elem_of_cons in F as [->|F]; [repeat constructor|]. by apply elem_of_nil in F.
    + by rewrite fld_unmapped.
  - unfold setRowValuesByHeaders.
    by destruct (Nat.ltb_spec row (dataStartRow all)); [|lia].
Qed.

(** After its step a row agrees. *)
Lemma autopopulateStep_mirrors now req all row :
  H_ALL.JobTitle ∈ hm all → H_ALL.JobStatus ∈ hm all →
  mirrorsRequisition req
    (getRowObjectByHeaders
       (autopopulateStep now req (buildReqIndex req).1 all row
          (getRowObjectByHeaders all row)) row).
Proof.
  intros T S.
  set (cur := getRowObjectByHeaders all row).
  assert (H_ALL.JobID ∉ [H_ALL.JobTitle; H_ALL.JobStatus; H_ALL.Updated]) as NJ.
  { intros I. repeat (apply elem_of_cons in I as [I|I]; [discriminate I|]).
    by apply elem_of_nil in I. }
  pose proof (autopopulateStep_fields now req (buildReqIndex req).1 all row H_ALL.JobID NJ)
    as J.
  fold cur in J. unfold autopopulateStep in *.
  destruct (Js.nonempty (_normStr_ (fld cur H_ALL.JobID))) eqn:NE; cbn [negb] in *.
  2:{ intros reqRow I. apply reqIndex_row in I as [_ I]. apply nonempty_false in NE.
      fold cur in I. done. }
  destruct (_ !! _) as [reqRow|] eqn:I.
  2:{ intros reqRow I'. fold cur in I'. congruence. }
  cbv zeta in *.
  destruct (isEmptyObj _) eqn:Em.
  { apply mirrors_diff. intros reqRow' I'. fold cur in I'.
    assert (reqRow' = reqRow) as -> by congruence.
    by apply bool_decide_eq_true in Em. }
  destruct (decide (dataStartRow all ≤ row)) as [L|L].
  2:{ (* a row above the data is empty and has no job id *)
      subst cur. unfold getRowObjectByHeaders in NE.
      destruct (Nat.ltb_spec row (dataStartRow all)); [|lia]. done. }
  intros reqRow' I'. rewrite J in I'.
  fold cur in I'. assert (reqRow' = reqRow) as -> by congruence.
  cbv zeta. rewrite !fld_get_set by done. rewrite !decide_True by done.
  rewrite !lookup_insert_ne by done.
  rewrite !lookup_diffFields. rewrite fld_want_title, fld_want_status.
  split.
  - destruct (decide _) as [D|D]; cbn [default from_option id].
    + apply _valsEqual__refl.
    + destruct (_valsEqual_ _ _) eqn:V; [done|]. destruct D. split; [repeat constructor|done].
  - destruct (decide _) as [D|D]; cbn [default from_option id].
    + apply _valsEqual__refl.
    + destruct (_valsEqual_ _ _) eqn:V; [done|]. destruct D. split; [repeat constructor|done].
Qed.

Lemma autopopulate_loop_step now req idx all row :
  (if (row <? dataStartRow all)%nat then all
   else autopopulateStep now req idx all row (getRowObjectByHeaders all row))
  = autopopulateStep now req idx all row (getRowObjectByHeaders all row).
Proof.
  destruct (Nat.ltb_spec row (dataStartRow all)) as [L|L]; [|done].
  unfold autopopulateStep, getRowObjectByHeaders.
  by destruct (Nat.ltb_spec row (dataStartRow all)); [|lia].
Qed.

Lemma autopopulate_loop now req rows : ∀ all,
  H_ALL.JobTitle ∈ hm all → H_ALL.JobStatus ∈ hm all →
  let all' :=
    foldl (λ all row,
             if (row <? dataStartRow all)%nat then all
             else autopopulateStep now req (buildReqIndex req).1 all row
                    (getRowObjectByHeaders all row)) all rows in
  hm all' = hm all ∧ headerRow all' = headerRow all
  ∧ (∀ row, row ∈ rows → mirrorsRequisition req (getRowObjectByHeaders all' row))
  ∧ (∀ row, row ∉ rows → getRowObjectByHeaders all' row = getRowObjectByHeaders all row)
  ∧ (∀ row h, h ∉ [H_ALL.JobTitle; H_ALL.JobStatus; H_ALL.Updated] →
       fld (getRowObjectByHeaders all' row) h = fld (getRowObjectByHeaders all row) h).
Proof.
  induction rows as [|r rows IH]; intros all T S all'.
  { subst all'. simpl. split_and!; try done. intros row I. by apply elem_of_nil in I. }
  subst all'. rewrite foldl_step, autopopulate_loop_step.
  set (all1 := autopopulateStep now req (buildReqIndex req).1 all r
                 (getRowObjectByHeaders all r)).
  destruct (autopopulateStep_schema now req (buildReqIndex req).1 all r
              (getRowObjectByHeaders all r)) as [M1 H1].
  fold all1 in M1, H1.
  destruct (IH all1 ltac:(by rewrite M1) ltac:(by rewrite M1)) as (M & Hr & Mi & Ot & Fl).
  split_and!.
  - by rewrite M.
  - by rewrite Hr.
  - intros row I. destruct (decide (row ∈ rows)) as [J|J]; [by apply Mi|].
    apply elem_of_cons in I as [->|I]; [|done].
    rewrite (Ot r J). by apply autopopulateStep_mirrors.
  - intros row [N1 N2]%not_elem_of_cons. rewrite (Ot row N2).
    by apply autopopulateStep_other.
  - intros row h N. rewrite (Fl row h N).
    destruct (decide (row = r)) as [->|Ne].
    + by apply autopopulateStep_fields.
    + unfold all1. by rewrite autopopulateStep_other.
Qed.

Lemma autopopulate_loop_quiet now req rows all :
  (∀ row, row ∈ rows → mirrorsRequisition req (getRowObjectByHeaders all row)) →
  foldl (λ all row,
           if (row <? dataStartRow all)%nat then all
           else autopopulateStep now req (buildReqIndex req).1 all row
                  (getRowObjectByHeaders all row)) all rows = all.
Proof.
  induction rows as [|r rows IH]; intros Q; [done|].
  rewrite foldl_step, autopopulate_loop_step.
  rewrite autopopulateStep_quiet by (apply Q; by left).
  apply IH. intros row I. apply Q. by right.
Qed.

(** X20. [autopopulateAllFromJobId_] makes every listed candidate row whose
    job id is indexed in the requisitions agree with that requisition on the
    job title and the canonical job status.  It writes nothing else than the
    title, the status and the last-updated stamp of listed rows, leaves the
    requisitions and Active alone, and a second run, at any time, changes
    nothing. *)
Theorem autopopulate_mirrors_requisition now (rows : list nat) (w : world) :
  H_ALL.JobTitle ∈ hm (w_all w) → H_ALL.JobStatus ∈ hm (w_all w) →
  let w' := autopopulateAllFromJobId_ now rows w in
  w_req w' = w_req w ∧ w_act w' = w_act w ∧ hm (w_all w') = hm (w_all w)
  ∧ (ANCHOR_HEADER_ALL ∈ hm (w_all w) → ANCHOR_HEADER_REQ ∈ hm (w_req w) →
     ∀ row, row ∈ rows →
       mirrorsRequisition (w_req w) (getRowObjectByHeaders (w_all w') row))
  ∧ (∀ row, row ∉ rows →
       getRowObjectByHeaders (w_all w') row = getRowObjectByHeaders (w_all w) row)
  ∧ (∀ row h, h ∉ [H_ALL.JobTitle; H_ALL.JobStatus; H_ALL.Updated] →
       fld (getRowObjectByHeaders (w_all w') row) h
       = fld (getRowObjectByHeaders (w_all w) row) h)
  ∧ (∀ now', autopopulateAllFromJobId_ now' rows w' = w').
Proof.
  intros T S w'. subst w'. unfold autopopulateAllFromJobId_, getHeaderInfo.
  destruct (decide (ANCHOR_HEADER_ALL ∈ hm (w_all w))) as [A|A].
  2:{ split_and!; try done. intros now'. by rewrite decide_False. }
  destruct (decide (ANCHOR_HEADER_REQ ∈ hm (w_req w))) as [R|R].
  2:{ split_and!; try done. intros now'. by rewrite decide_True, decide_False. }
  cbv zeta.
  destruct (autopopulate_loop now (w_req w) rows (w_all w) T S) as (M & Hr & Mi & Ot & Fl).
  set (all' := foldl _ (w_all w) rows) in *.
  cbn [withAll w_req w_all w_act].
  split_and!; try done.
  intros now'. rewrite !decide_True by (by rewrite ?M).
  rewrite autopopulate_loop_quiet by exact Mi. by destruct w.
Qed.

Lemma NoDup_filter_fst {A B} (P : A * B → Prop) `{∀ x, Decision (P x)} (l : list (A * B)) :
  NoDup l.*1 → NoDup (filter P l).*1.
Proof.
  induction l as [|x l IH]; [done|]. rewrite fmap_cons, NoDup_cons. intros [N D].
  rewrite filter_cons. destruct (decide (P x)); [|by apply IH].
  rewrite fmap_cons. apply NoDup_cons. split; [|by apply IH].
  intros (y & Q & [_ I]%list_elem_of_filter)%list_elem_of_fmap. apply N.
  apply list_elem_of_fmap. by exists y.
Qed.

Lemma NoDup_dataObjects (sh : sheet) : NoDup (dataObjects sh).*1.
Proof.
  unfold dataObjects. rewrite fmap_imap.
  rewrite (imap_ext _ (λ i _, dataStartRow sh + i)) by done.
  rewrite imap_seq_0. apply NoDup_fmap_2; [|apply NoDup_seq].
  intros i j. lia.
Qed.

(** The loop of the sweep, on the objects read before it, is the loop of
    [autopopulateAllFromJobId_] on their rows. *)
Lemma sweep_loop now req idx (entries : list (nat * gmap string jsval)) : ∀ all,
  NoDup entries.*1 →
  (∀ r obj, (r, obj) ∈ entries → getRowObjectByHeaders all r = obj) →
  foldl (λ all e, autopopulateStep now req idx all e.1 e.2) all entries
  = foldl (λ all row,
             if (row <? dataStartRow all)%nat then all
             else autopopulateStep now req idx all row (getRowObjectByHeaders all row))
          all entries.*1.
Proof.
  induction entries as [|[r obj] entries IH]; intros all N G; [done|].
  rewrite fmap_cons, !foldl_step, autopopulate_loop_step. cbn [fst snd].
  rewrite (G r obj) by (by left).
  apply NoDup_cons in N as [N1 N2].
  apply IH; [done|]. intros r' obj' I.
  rewrite autopopulateStep_other; [apply G; by right|].
  intros ->. apply N1. apply list_elem_of_fmap. by exists (r, obj').
Qed.

(** X21. The sweep is [autopopulateAllFromJobId_] run on the rows of the
    candidate index, which are the data rows with a job id or an address. *)
Theorem sweep_is_autopopulate_of_all_rows now (w : world) :
  let rows := (buildCandidateIndex now (w_all w)).2.*1 in
  Sweep_Autopopulate_All_From_Reqs_ now w = autopopulateAllFromJobId_ now rows w
  ∧ ∀ r, r ∈ rows ↔
         dataStartRow (w_all w) ≤ r ∧ r ≤ getLastRow (w_all w)
         ∧ Js.nonempty (Js.trim (String_ (fld (getRowObjectByHeaders (w_all w) r) H_ALL.JobID)))
           || Js.nonempty (normEmail (fld (getRowObjectByHeaders (w_all w) r) H_ALL.Email))
           = true.
Proof.
  intros rows. subst rows. rewrite buildCandidateIndex_fold. cbn [snd]. split.
  - unfold Sweep_Autopopulate_All_From_Reqs_, autopopulateAllFromJobId_.
    destruct (getHeaderInfo (w_all w) _); [|done].
    destruct (getHeaderInfo (w_req w) _); [|done].
    cbv zeta. rewrite buildCandidateIndex_fold. cbn [snd]. f_equal.
    apply sweep_loop.
    + apply NoDup_filter_fst, NoDup_dataObjects.
    + intros r obj [_ I]%list_elem_of_filter.
      apply list_elem_of_lookup in I as [j I].
      by apply dataObjects_row in I as (_ & _ & ->).
  - intros r. rewrite list_elem_of_fmap. split.
    + intros ([r' obj] & -> & [K I]%list_elem_of_filter). cbn [fst snd] in *.
      apply list_elem_of_lookup in I as [j I].
      apply dataObjects_row in I as (-> & L & ->).
      split; [lia|]. split; [done|].
      destruct K as [k K]. by apply (candKey_keyFor now) in K as [K _].
    + intros (L1 & L2 & K).
      exists (r, getRowObjectByHeaders (w_all w) r). split; [done|].
      apply list_elem_of_filter. split.
      * cbn [snd]. eexists. apply (candKey_keyFor now). split; [exact K|done].
      * apply list_elem_of_lookup. eexists. by apply dataObjects_of_row.
Qed.

End Autopopulate_facts.

Lemma autopopulate_mirrors_requisition_witness :
  H_ALL.JobTitle ∈ hm (w_all c2_world) ∧ H_ALL.JobStatus ∈ hm (w_all c2_world)
  ∧ fld (getRowObjectByHeaders (w_all (autopopulateAllFromJobId_ 100 [2] c2_world)) 2)
        H_ALL.FullName
    = VStr "Ann Lee"
  ∧ autopopulateAllFromJobId_ 200 [2] (autopopulateAllFromJobId_ 100 [2] c2_world)
    = autopopulateAllFromJobId_ 100 [2] c2_world.
Proof.
  assert (H_ALL.JobTitle ∈ hm (w_all c2_world)) as T by (vm_compute; reflexivity).
  assert (H_ALL.JobStatus ∈ hm (w_all c2_world)) as S by (vm_compute; reflexivity).
  split; [exact T|]. split; [exact S|].
  destruct (autopopulate_mirrors_requisition 100 [2] c2_world T S)
    as (_ & _ & _ & _ & _ & Fl & Idem).
  split; [|apply Idem].
  rewrite Fl; [reflexivity|].
  intros I. repeat (apply elem_of_cons in I as [I|I]; [discriminate I|]).
  by apply elem_of_nil in I.
Defined.


(** ** Job ids *)

Section JobIds_facts.
Context `{DateRender} `{UpperFirst}.
Local Open Scope Z_scope.


Lemma allBelow_spec P fuel : ∀ i k,
  allBelow P fuel i = true → i ≤ k < i + Z.of_nat fuel → P k = true.
Proof.
  induction fuel as [|fuel IH]; intros i k A R; [lia|].
  simpl in A. apply andb_true_iff in A as [A1 A2].
  destruct (decide (k = i)) as [->|N]; [done|].
  apply (IH (i + 1)); [done|lia].
Qed.

Lemma pad4_all : allBelow (fourDigits (pad 4)) (Z.to_nat 10000) 0 = true.
Proof. by vm_compute. Qed.

Lemma year_all : allBelow (fourDigits decimal) (Z.to_nat 9000) 1000 = true.
Proof. by vm_compute. Qed.

Lemma digitsValue_digits s : ∀ acc v,
  digitsValue acc s = Some v → allChars Js.is_digit s = true.
Proof.
  induction s as [|c s IH]; intros acc v; simpl; [done|].
  destruct (Js.is_digit c); [|done]. apply IH.
Qed.

Lemma digit_not_ws c : Js.is_digit c = true → Js.is_ws c = false.
Proof. by destruct c as [[] [] [] [] [] [] [] []]. Qed.

Lemma trimEnd_no_ws s : allChars (λ c, negb (Js.is_ws c)) s = true → Js.trimEnd s = s.
Proof.
  induction s as [|c s IH]; simpl; [done|].
  intros [C A]%andb_true_iff. rewrite (IH A).
  destruct s; [|done]. by destruct (Js.is_ws c).
Qed.

Lemma trim_no_ws s : allChars (λ c, negb (Js.is_ws c)) s = true → Js.trim s = s.
Proof.
  intros A. unfold Js.trim.
  assert (Js.trimStart s = s) as ->; [|by apply trimEnd_no_ws].
  destruct s as [|c s]; [done|]. simpl in *.
  apply andb_true_iff in A as [C _]. by destruct (Js.is_ws c).
Qed.

(** The shape of an id made of a year of four digits and a sequence number
    up to 9999. *)
Lemma jobIdText_shape y n :
  1000 ≤ y ≤ 9999 → 0 ≤ n ≤ 9999 →
  matchJobId (jobIdText y n) = Some (y, n)
  ∧ Js.trim (jobIdText y n) = jobIdText y n
  ∧ jobIdText y n ≠ "".
Proof.
  intros Y N.
  pose proof (allBelow_spec _ _ _ n pad4_all ltac:(lia)) as P.
  pose proof (allBelow_spec _ _ _ y year_all ltac:(lia)) as Q.
  unfold fourDigits in P, Q. unfold jobIdText.
  destruct (pad 4 n) as [|e [|f [|g [|h [|? ?]]]]]; try discriminate P.
  destruct (decimal y) as [|a [|b [|c [|d [|? ?]]]]]; try discriminate Q.
  apply bool_decide_eq_true in P. apply bool_decide_eq_true in Q.
  pose proof (digitsValue_digits _ _ _ P) as DP.
  pose proof (digitsValue_digits _ _ _ Q) as DQ.
  split_and!.
  - change (matchJobId _) with
      (y' ← digitsValue 0 (String a (String b (String c (String d ""))));
       n' ← digitsValue 0 (String e (String f (String g (String h ""))));
       Some (y', n')).
    by rewrite P, Q.
  - apply trim_no_ws. cbn [allChars] in DP, DQ.
    repeat match goal with
           | X : _ && _ = true |- _ => apply andb_true_iff in X as [? X]
           end.
    rewrite ?append_cons, ?append_nil_l. cbn [allChars].
    rewrite (digit_not_ws a), (digit_not_ws b), (digit_not_ws c), (digit_not_ws d),
      (digit_not_ws e), (digit_not_ws f), (digit_not_ws g), (digit_not_ws h) by done.
    reflexivity.
  - done.
Qed.

Lemma orEmpty_id v : orEmpty v = v.
Proof.
  unfold orEmpty. destruct v as [s|t]; [|done]. simpl.
  destruct (Js.nonempty s) eqn:N; [done|]. apply nonempty_false in N. by subst.
Qed.

(** The loop of [_allocateNextJobIds_] in closed form. *)
Lemma allocate_closed yyyy count st :
  _allocateNextJobIds_ yyyy count st =
  ((λ i : nat, jobIdText yyyy (getJobIdSequence st yyyy + 1 + Z.of_nat i)) <$> seq 0 count,
   <[yyyy := getJobIdSequence st yyyy + Z.of_nat count]> st).
Proof.
  unfold _allocateNextJobIds_, setJobIdSequence.
  enough (∀ count s last out,
            foldl (λ (acc : Z * list string) (_ : nat),
                     (acc.1 + 1, acc.2 ++ [jobIdText yyyy (acc.1 + 1)]))
                  (last, out) (seq s count)
            = (last + Z.of_nat count,
               out ++ ((λ i : nat, jobIdText yyyy (last + 1 + Z.of_nat i)) <$> seq 0 count)))
    as G.
  { cbv zeta. rewrite G. done. }
  clear count. induction count as [|count IH]; intros s last out.
  { simpl. by rewrite Z.add_0_r, app_nil_r. }
  cbn [seq]. rewrite foldl_step. cbn [fst snd]. rewrite IH.
  f_equal; [lia|]. rewrite <- app_assoc. f_equal.
  rewrite fmap_cons, Z.add_0_r. cbn [app]. f_equal.
  rewrite <- fmap_S_seq, <- list_fmap_compose.
  apply list_fmap_ext. intros _ i _. simpl. f_equal. lia.
Qed.

Lemma allocate_elem yyyy count st id :
  id ∈ (_allocateNextJobIds_ yyyy count st).1 ↔
  ∃ n, getJobIdSequence st yyyy < n ≤ getJobIdSequence st yyyy + Z.of_nat count
       ∧ id = jobIdText yyyy n.
Proof.
  rewrite allocate_closed. cbn [fst]. rewrite list_elem_of_fmap. split.
  - intros (i & -> & I%elem_of_seq). eexists. split; [|done]. lia.
  - intros (n & R & ->).
    exists (Z.to_nat (n - getJobIdSequence st yyyy - 1)). split; [f_equal; lia|].
    apply elem_of_seq. lia.
Qed.

(** X22. [_allocateNextJobIds_] hands out the next [count] numbers of the
    year: as long as the sequence stays within four digits the ids are
    pairwise distinct, each reads back (by the pattern of
    [_initJobSeqIfNeeded_]) as the year and a number above the stored
    sequence, the stored sequence moves up by [count], the other years are
    left alone, and a later allocation shares no id with this one. *)
Theorem allocate_ids_distinct yyyy (count : nat) (st : gmap Z Z) :
  1000 ≤ yyyy ≤ 9999 →
  0 ≤ getJobIdSequence st yyyy →
  getJobIdSequence st yyyy + Z.of_nat count ≤ 9999 →
  let last := getJobIdSequence st yyyy in
  let res := _allocateNextJobIds_ yyyy count st in
  length res.1 = count ∧ NoDup res.1
  ∧ getJobIdSequence res.2 yyyy = last + Z.of_nat count
  ∧ (∀ y, y ≠ yyyy → res.2 !! y = st !! y)
  ∧ (∀ id, id ∈ res.1 →
       ∃ n, last < n ≤ last + Z.of_nat count ∧ matchJobId id = Some (yyyy, n)
            ∧ Js.trim id = id ∧ id ≠ "")
  ∧ (∀ (count' : nat) id,
       last + Z.of_nat count + Z.of_nat count' ≤ 9999 →
       id ∈ res.1 → id ∉ (_allocateNextJobIds_ yyyy count' res.2).1).
Proof.
  intros Y L B last res.
  assert (getJobIdSequence res.2 yyyy = last + Z.of_nat count) as Q.
  { subst res. rewrite allocate_closed. cbn [snd]. unfold getJobIdSequence at 1.
    by rewrite lookup_insert_eq. }
  assert (∀ id, id ∈ res.1 →
            ∃ n, last < n ≤ last + Z.of_nat count ∧ matchJobId id = Some (yyyy, n)
                 ∧ Js.trim id = id ∧ id ≠ "") as Sh.
  { intros id (n & R & ->)%allocate_elem. exists n. split; [done|].
    apply jobIdText_shape; [done|]. subst last. lia. }
  split_and!.
  - subst res. rewrite allocate_closed. cbn [fst]. by rewrite length_fmap, length_seq.
  - subst res. rewrite allocate_closed. cbn [fst]. apply NoDup_fmap_2_strong; [|apply NoDup_seq].
    intros i j I%elem_of_seq J%elem_of_seq E.
    destruct (jobIdText_shape yyyy (last + 1 + Z.of_nat i)) as [Mi _]; [done|subst last; lia|].
    destruct (jobIdText_shape yyyy (last + 1 + Z.of_nat j)) as [Mj _]; [done|subst last; lia|].
    fold last in E. rewrite E in Mi. rewrite Mi in Mj. injection Mj. lia.
  - done.
  - intros y N. subst res. rewrite allocate_closed. cbn [snd]. by apply lookup_insert_ne.
  - done.
  - intros count' id B' I I'.
    destruct (Sh id I) as (n & R & M & _).
    apply allocate_elem in I' as (n' & R' & ->). rewrite Q in R'.
    destruct (jobIdText_shape yyyy n') as [M' _]; [done|subst last; lia|].
    rewrite M in M'. injection M'. lia.
Qed.

(** The scan of [_initJobSeqIfNeeded_]. *)
Lemma maxSeq_spec yyyy (entries : list (nat * gmap string jsval)) : ∀ m0,
  let m :=
    foldl (λ maxSeq (e : nat * gmap string jsval),
             let v := Js.trim (String_ (orEmpty (fld e.2 H_REQ.JobID))) in
             match matchJobId v with
             | Some (y, n) => if y =? yyyy then Z.max maxSeq n else maxSeq
             | None => maxSeq
             end) m0 entries in
  m0 ≤ m
  ∧ (∀ e n, e ∈ entries → matchJobId (_normStr_ (fld e.2 H_REQ.JobID)) = Some (yyyy, n) →
            n ≤ m)
  ∧ (m = m0 ∨ ∃ e, e ∈ entries
                   ∧ matchJobId (_normStr_ (fld e.2 H_REQ.JobID)) = Some (yyyy, m)).
Proof.
  match goal with |- context [foldl ?f] => set (F := f) end.
  induction entries as [|e entries IH]; intros m0 m.
  { subst m. simpl. split_and!; [lia| |by left]. intros e n I. by apply elem_of_nil in I. }
  subst m. rewrite foldl_step.
  destruct (IH (F m0 e)) as (L & U & A).
  set (m := foldl F (F m0 e) entries) in *.
  assert (m0 ≤ F m0 e
          ∧ (∀ n, matchJobId (_normStr_ (fld e.2 H_REQ.JobID)) = Some (yyyy, n) → n ≤ F m0 e)
          ∧ (F m0 e = m0 ∨ matchJobId (_normStr_ (fld e.2 H_REQ.JobID)) = Some (yyyy, F m0 e)))
    as (L1 & U1 & A1).
  { unfold F. cbv zeta. rewrite orEmpty_id. fold (_normStr_ (fld e.2 H_REQ.JobID)).
    destruct (matchJobId _) as [[y n]|]; [|split_and!; [lia|done|by left]].
    destruct (Z.eqb_spec y yyyy) as [->|Ne].
    - split_and!; [lia|intros n' [= ->]; lia|].
      destruct (Z.max_spec m0 n) as [[_ ->]|[_ ->]]; [by right|by left].
    - split_and!; [lia| |by left]. intros n' [= ? ?]. done. }
  split_and!.
  - lia.
  - intros e' n [->|I]%elem_of_cons M; [|by apply (U e' n)].
    specialize (U1 n M). lia.
  - destruct A as [A|(e' & I & M)].
    + rewrite A. destruct A1 as [->|M]; [by left|]. right. exists e. split; [by left|done].
    + right. exists e'. split; [by right|done].
Qed.

(** What the first use of the sequencer in a year stores. *)
Lemma init_top yyyy (sh : sheet) (st : gmap Z Z) :
  ANCHOR_HEADER_REQ ∈ hm sh → st !! yyyy = None →
  let st1 := _initJobSeqIfNeeded_ yyyy sh st in
  let jobOf r := _normStr_ (fld (getRowObjectByHeaders sh r) H_REQ.JobID) in
  let top := getJobIdSequence st1 yyyy in
  st1 = <[yyyy := top]> st ∧ 0 ≤ top
  ∧ (∀ r n, (dataStartRow sh ≤ r)%nat → (r ≤ getLastRow sh)%nat →
            matchJobId (jobOf r) = Some (yyyy, n) → n ≤ top)
  ∧ (top = 0 ∨ ∃ r, (dataStartRow sh ≤ r)%nat ∧ (r ≤ getLastRow sh)%nat
                    ∧ matchJobId (jobOf r) = Some (yyyy, top)).
Proof.
  intros A N st1 jobOf top.
  assert (st1 = <[yyyy := foldl (λ maxSeq (e : nat * gmap string jsval),
             let v := Js.trim (String_ (orEmpty (fld e.2 H_REQ.JobID))) in
             match matchJobId v with
             | Some (y, n) => if y =? yyyy then Z.max maxSeq n else maxSeq
             | None => maxSeq
             end) 0 (dataObjects sh)]> st) as E.
  { subst st1. unfold _initJobSeqIfNeeded_, isJobIdSequenceInitialized, getHeaderInfo.
    rewrite N. rewrite bool_decide_eq_false_2 by (by intros [? ?]).
    rewrite decide_True by done. cbv zeta. unfold has.
    rewrite bool_decide_eq_true_2 by exact A. done. }
  destruct (maxSeq_spec yyyy (dataObjects sh) 0) as (L & U & At).
  set (m := foldl _ 0 (dataObjects sh)) in *.
  assert (top = m) as T.
  { subst top. rewrite E. unfold getJobIdSequence. by rewrite lookup_insert_eq. }
  split_and!.
  - by rewrite T.
  - lia.
  - intros r n L1 L2 M. rewrite T.
    apply (U (r, getRowObjectByHeaders sh r) n); [|done].
    apply list_elem_of_lookup. eexists. by apply dataObjects_of_row.
  - rewrite T. destruct At as [->|([r obj] & I & M)]; [by left|]. right.
    apply list_elem_of_lookup in I as [j I].
    apply dataObjects_row in I as (-> & L2 & ->).
    exists (dataStartRow sh + j)%nat. split; [lia|]. split; [done|]. done.
Qed.

(** X23. The first use of the sequencer in a year scans the sheet: the
    stored sequence is the largest number among the job ids of the year in
    the data rows (0 when there is none), later calls never scan again, and
    the ids allocated next, while within four digits, are the job id of no
    data row. *)
Theorem init_sequence_covers_sheet yyyy (sh : sheet) (st : gmap Z Z) :
  ANCHOR_HEADER_REQ ∈ hm sh → st !! yyyy = None →
  let st1 := _initJobSeqIfNeeded_ yyyy sh st in
  let jobOf r := _normStr_ (fld (getRowObjectByHeaders sh r) H_REQ.JobID) in
  let top := getJobIdSequence st1 yyyy in
  0 ≤ top
  ∧ (∀ r n, (dataStartRow sh ≤ r)%nat → (r ≤ getLastRow sh)%nat →
            matchJobId (jobOf r) = Some (yyyy, n) → n ≤ top)
  ∧ (top = 0 ∨ ∃ r, (dataStartRow sh ≤ r)%nat ∧ (r ≤ getLastRow sh)%nat
                    ∧ matchJobId (jobOf r) = Some (yyyy, top))
  ∧ (∀ sh', _initJobSeqIfNeeded_ yyyy sh' st1 = st1)
  ∧ (∀ (count : nat) id r,
       1000 ≤ yyyy ≤ 9999 → top + Z.of_nat count ≤ 9999 →
       id ∈ (_allocateNextJobIds_ yyyy count st1).1 →
       (dataStartRow sh ≤ r)%nat → (r ≤ getLastRow sh)%nat → jobOf r ≠ id).
Proof.
  intros A N st1 jobOf top.
  destruct (init_top yyyy sh st A N) as (E & L & Up & At).
  fold st1 in E. fold top in E, L, Up, At. fold jobOf in Up, At.
  split_and!; try done.
  - intros sh'. unfold _initJobSeqIfNeeded_, isJobIdSequenceInitialized.
    rewrite bool_decide_eq_true_2; [done|]. rewrite E, lookup_insert_eq. by eexists.
  - intros count id r Y B I L1 L2 Q.
    apply allocate_elem in I as (n & R & ->).
    change (getJobIdSequence st1 yyyy) with top in R.
    change (0 ≤ top) in L.
    destruct (jobIdText_shape yyyy n) as [M _]; [done|lia|].
    rewrite <- Q in M. specialize (Up r n L1 L2 M). change (n ≤ top) in Up. lia.
Qed.


Lemma get_set_other_any sh row up row' :
  row' ≠ row →
  getRowObjectByHeaders (setRowValuesByHeaders sh row up) row' =
  getRowObjectByHeaders sh row'.
Proof.
  intros N. destruct (decide (dataStartRow sh ≤ row')%nat) as [L|L].
  - by apply get_set_other.
  - unfold getRowObjectByHeaders. rewrite dataStartRow_setRowValuesByHeaders.
    by destruct (Nat.ltb_spec row' (dataStartRow sh)); [|lia].
Qed.

(** A row that reads a non-empty field has content, so it is a data row. *)
Lemma content_in_range (sh : sheet) r h :
  fld (getRowObjectByHeaders sh r) h ≠ VStr "" →
  (dataStartRow sh ≤ r)%nat ∧ (r ≤ getLastRow sh)%nat.
Proof.
  intros F. unfold getRowObjectByHeaders in F.
  destruct (Nat.ltb_spec r (dataStartRow sh)) as [L|L]; [done|]. split; [done|].
  destruct (body sh !! (r - dataStartRow sh)%nat) as [c|] eqn:E; [|done].
  destruct (decide (r - dataStartRow sh < dataCount (body sh))%nat) as [D|D].
  { unfold getLastRow, dataStartRow in *. lia. }
  destruct F. apply fld_blank. apply (blank_beyond (body sh) _ c E). lia.
Qed.

Lemma needsJobId_in_range (sh : sheet) r :
  needsJobId (getRowObjectByHeaders sh r) = true →
  (dataStartRow sh ≤ r)%nat ∧ (r ≤ getLastRow sh)%nat.
Proof.
  intros Nd. unfold needsJobId in Nd. apply andb_true_iff in Nd as [Nd _].
  apply orb_true_iff in Nd as [Nd|Nd];
    [apply (content_in_range sh r H_REQ.JobTitle)
    |apply (content_in_range sh r H_REQ.JobStatus)];
    intros E; by rewrite E in Nd.
Qed.

Lemma need_count (entries : list (nat * gmap string jsval)) : ∀ k : nat,
  foldl (λ (need : nat) (e : nat * gmap string jsval),
           let jobId := Js.trim (String_ (orEmpty (fld e.2 H_REQ.JobID))) in
           let title := Js.trim (String_ (orEmpty (fld e.2 H_REQ.JobTitle))) in
           let status := Js.trim (String_ (orEmpty (fld e.2 H_REQ.JobStatus))) in
           if (Js.nonempty title || Js.nonempty status) && negb (Js.nonempty jobId)
           then S need else need) k entries
  = (k + length (filter (λ e, needsJobId e.2 = true) entries))%nat.
Proof.
  induction entries as [|e entries IH]; intros k; [simpl; lia|].
  rewrite foldl_step, IH. cbv zeta. rewrite !orEmpty_id. rewrite filter_cons.
  change (if _ && _ then S k else k) with (if needsJobId e.2 then S k else k).
  destruct (needsJobId e.2);
    [rewrite decide_True by done|rewrite decide_False by done]; simpl length; lia.
Qed.

(** Ids counted before a later row include the id of an earlier row that
    needs one. *)
Lemma count_take_lt (entries : list (nat * gmap string jsval)) j j' e :
  (j < j')%nat → entries !! j = Some e → needsJobId e.2 = true →
  (length (filter (λ e, needsJobId e.2 = true) (take j entries))
   < length (filter (λ e, needsJobId e.2 = true) (take j' entries)))%nat.
Proof.
  intros L E Nd.
  rewrite <- (take_drop_middle entries j e E) at 2.
  assert (length (take j entries) = j) as Lj.
  { rewrite length_take. apply lookup_lt_Some in E. lia. }
  rewrite take_app_ge by lia. rewrite Lj.
  replace (j' - j)%nat with (S (j' - j - 1)) by lia.
  rewrite firstn_cons, filter_app, filter_cons, decide_True by done.
  rewrite length_app. simpl length. lia.
Qed.

Lemma count_take_le (entries : list (nat * gmap string jsval)) j :
  (length (filter (λ e, needsJobId e.2 = true) (take j entries))
   ≤ length (filter (λ e, needsJobId e.2 = true) entries))%nat.
Proof.
  rewrite <- (take_drop j entries) at 2. rewrite filter_app, length_app. lia.
Qed.

(** The writing loop of [ensureJobIds_]. *)
Lemma ensure_loop now (sh0 : sheet) (newIds : list string)
    (entries : list (nat * gmap string jsval)) : ∀ acc ptr,
  NoDup entries.*1 →
  (∀ e, e ∈ entries → (dataStartRow sh0 ≤ e.1)%nat) →
  hm acc = hm sh0 → headerRow acc = headerRow sh0 →
  (ptr + length (filter (λ e, needsJobId e.2 = true) entries) ≤ length newIds)%nat →
  let res :=
    foldl (λ (acc : sheet * nat) (e : nat * gmap string jsval),
             let rowObj := e.2 in
             let title := _normStr_ (fld rowObj H_REQ.JobTitle) in
             let status := _normStr_ (fld rowObj H_REQ.JobStatus) in
             if (Js.nonempty title || Js.nonempty status)
                && negb (Js.nonempty (_normStr_ (fld rowObj H_REQ.JobID)))
             then
               match newIds !! acc.2 with
               | Some id =>
                   let updates :=
                     putIf (has (hm sh0) H_REQ.Created
                            && negb (truthy (fld rowObj H_REQ.Created)))
                           H_REQ.Created (VDate now)
                           {[ H_REQ.JobID := VStr id ]} in
                   (setRowValuesByHeaders acc.1 e.1 updates, S acc.2)
               | None => acc
               end
             else acc) (acc, ptr) entries in
  hm res.1 = hm sh0 ∧ headerRow res.1 = headerRow sh0
  ∧ (∀ r, (∀ obj, (r, obj) ∈ entries → needsJobId obj = false) →
          getRowObjectByHeaders res.1 r = getRowObjectByHeaders acc r)
  ∧ (∀ j r obj, entries !! j = Some (r, obj) → needsJobId obj = true →
       ∃ id, newIds !! (ptr + length (filter (λ e, needsJobId e.2 = true)
                                        (take j entries)))%nat = Some id
             ∧ ∀ h, fld (getRowObjectByHeaders res.1 r) h
                    = if decide (h ∈ hm sh0)
                      then default (fld (getRowObjectByHeaders acc r) h)
                             (putIf (has (hm sh0) H_REQ.Created
                                     && negb (truthy (fld obj H_REQ.Created)))
                                    H_REQ.Created (VDate now)
                                    {[ H_REQ.JobID := VStr id ]} !! h)
                      else VStr "").
Proof.
  match goal with |- context [foldl ?f] => set (F := f) end.
  induction entries as [|[r0 obj0] entries IH]; intros acc ptr ND Rg M Hr Len res.
  { subst res. simpl. split_and!; try done. }
  subst res. rewrite foldl_step.
  rewrite fmap_cons in ND. apply NoDup_cons in ND as [N0 ND].
  assert (∀ e, e ∈ entries → (dataStartRow sh0 ≤ e.1)%nat) as Rg'
    by (intros e I; apply Rg; by right).
  assert (dataStartRow acc = dataStartRow sh0) as Ds by (unfold dataStartRow; by rewrite Hr).
  assert (∀ obj, (r0, obj) ∉ entries) as Fresh.
  { intros obj I. apply N0. apply list_elem_of_fmap. by exists (r0, obj). }
  rewrite filter_cons in Len.
  destruct (needsJobId obj0) eqn:Nd.
  - (* the row gets the next id *)
    rewrite decide_True in Len by done. simpl length in Len.
    destruct (lookup_lt_is_Some_2 newIds ptr) as [id Id]; [lia|].
    set (up := putIf (has (hm sh0) H_REQ.Created && negb (truthy (fld obj0 H_REQ.Created)))
                     H_REQ.Created (VDate now) {[ H_REQ.JobID := VStr id ]}).
    assert (F (acc, ptr) (r0, obj0) = (setRowValuesByHeaders acc r0 up, S ptr)) as ->.
    { unfold F. cbv zeta. cbn [fst snd]. unfold needsJobId in Nd. rewrite Nd, Id. done. }
    destruct (IH (setRowValuesByHeaders acc r0 up) (S ptr) ND Rg')
      as (M' & Hr' & Ot & As).
    { by rewrite hm_setRowValuesByHeaders. }
    { by rewrite headerRow_setRowValuesByHeaders. }
    { lia. }
    split_and!; [done|done| |].
    + intros r Q. rewrite Ot by (intros obj I; apply Q; by right).
      apply get_set_other_any. intros ->. specialize (Q obj0 ltac:(by left)). congruence.
    + intros j r obj E Nd'. destruct j as [|j].
      * injection E as <- <-. exists id. split.
        { cbn [take filter]. by rewrite Nat.add_0_r. }
        intros h. rewrite Ot by (intros obj I; by destruct (Fresh obj)).
        rewrite fld_get_set by (rewrite Ds; apply (Rg (r0, obj0)); by left).
        by rewrite M.
      * cbn [lookup list_lookup] in E. destruct (As j r obj E Nd') as (id' & Id' & Fl).
        exists id'. split.
        { cbn [take]. rewrite filter_cons, decide_True by done. simpl length.
          rewrite <- Id'. f_equal. lia. }
        intros h. rewrite Fl. rewrite get_set_other_any; [done|].
        intros ->. apply (Fresh obj). by apply list_elem_of_lookup_2 in E.
  - rewrite decide_False in Len by (cbn [snd]; congruence).
    assert (F (acc, ptr) (r0, obj0) = (acc, ptr)) as ->.
    { unfold F. cbv zeta. cbn [fst snd]. unfold needsJobId in Nd. by rewrite Nd. }
    destruct (IH acc ptr ND Rg' M Hr Len) as (M' & Hr' & Ot & As).
    split_and!; [done|done| |].
    + intros r Q. apply Ot. intros obj I. apply Q. by right.
    + intros j r obj E Nd'. destruct j as [|j].
      * injection E as <- <-. congruence.
      * cbn [lookup list_lookup] in E. destruct (As j r obj E Nd') as (id' & Id' & Fl).
        exists id'. split; [|done].
        cbn [take]. rewrite filter_cons, decide_False by (cbn [snd]; congruence). done.
Qed.

(** The ids at hand in [ensureJobIds_]. *)
Lemma ensure_alloc yyyy (need : nat) (st1 : gmap Z Z) :
  let alloc :=
    if (0 <? need)%nat then _allocateNextJobIds_ yyyy need st1 else ([], st1) in
  length alloc.1 = need
  ∧ (∀ k, (k < need)%nat →
          alloc.1 !! k = Some (jobIdText yyyy (getJobIdSequence st1 yyyy + 1 + Z.of_nat k)))
  ∧ getJobIdSequence alloc.2 yyyy = getJobIdSequence st1 yyyy + Z.of_nat need.
Proof.
  destruct need as [|need]; cbv zeta.
  { simpl. split_and!; [done|lia|lia]. }
  change (0 <? S need)%nat with true. cbn iota. rewrite allocate_closed. cbn [fst snd].
  split_and!.
  - by rewrite length_fmap, length_seq.
  - intros k L. rewrite list_lookup_fmap, lookup_seq_lt by done. done.
  - unfold getJobIdSequence at 1. by rewrite lookup_insert_eq.
Qed.

Lemma ensureJobIds_early now yyyy (sh : sheet) (st : gmap Z Z) :
  (getLastRow sh < dataStartRow sh)%nat → ensureJobIds_ now yyyy sh st = (sh, st).
Proof.
  intros L. unfold ensureJobIds_. destruct (getHeaderInfo _ _); [|done].
  by destruct (Nat.ltb_spec (getLastRow sh) (dataStartRow sh)); [|lia].
Qed.

Lemma ensureJobIds_eq now yyyy (sh : sheet) (st : gmap Z Z) :
  ANCHOR_HEADER_REQ ∈ hm sh → H_REQ.JobTitle ∈ hm sh → H_REQ.JobStatus ∈ hm sh →
  (dataStartRow sh ≤ getLastRow sh)%nat →
  ensureJobIds_ now yyyy sh st =
  let st1 := _initJobSeqIfNeeded_ yyyy sh st in
  let need := length (filter (λ e : nat * gmap string jsval, needsJobId e.2 = true)
                             (dataObjects sh)) in
  let alloc :=
    if (0 <? need)%nat then _allocateNextJobIds_ yyyy need st1 else ([], st1) in
  ((foldl (λ (acc : sheet * nat) (e : nat * gmap string jsval),
             let rowObj := e.2 in
             let title := _normStr_ (fld rowObj H_REQ.JobTitle) in
             let status := _normStr_ (fld rowObj H_REQ.JobStatus) in
             if (Js.nonempty title || Js.nonempty status)
                && negb (Js.nonempty (_normStr_ (fld rowObj H_REQ.JobID)))
             then
               match alloc.1 !! acc.2 with
               | Some id =>
                   let updates :=
                     putIf (has (hm sh) H_REQ.Created
                            && negb (truthy (fld rowObj H_REQ.Created)))
                           H_REQ.Created (VDate now)
                           {[ H_REQ.JobID := VStr id ]} in
                   (setRowValuesByHeaders acc.1 e.1 updates, S acc.2)
               | None => acc
               end
             else acc) (sh, 0%nat) (dataObjects sh)).1,
   alloc.2).
Proof.
  intros A HT HS L. unfold ensureJobIds_, getHeaderInfo. rewrite decide_True by done.
  destruct (Nat.ltb_spec (getLastRow sh) (dataStartRow sh)); [lia|].
  unfold has at 1 2 3. rewrite !bool_decide_eq_true_2 by done.
  cbn [andb negb]. cbv zeta. rewrite need_count. done.
Qed.

(** X24. [ensureJobIds_], at the first use of the sequencer in a year and
    while the sequence stays within four digits: every requisition row with
    a title or a status and no job id gets an id of the year; the new ids
    differ from each other and from every job id the sheet held; such a row
    keeps its other cells, but for a created date that was empty; and every
    other row is left as it was. *)
Theorem ensureJobIds_assigns_fresh_ids now yyyy (sh : sheet) (st : gmap Z Z) :
  ANCHOR_HEADER_REQ ∈ hm sh → H_REQ.JobTitle ∈ hm sh → H_REQ.JobStatus ∈ hm sh →
  st !! yyyy = None → 1000 ≤ yyyy ≤ 9999 →
  getJobIdSequence (ensureJobIds_ now yyyy sh st).2 yyyy ≤ 9999 →
  let sh' := (ensureJobIds_ now yyyy sh st).1 in
  let old r := getRowObjectByHeaders sh r in
  let new r := getRowObjectByHeaders sh' r in
  let jobOf (obj : gmap string jsval) := _normStr_ (fld obj H_REQ.JobID) in
  hm sh' = hm sh ∧ headerRow sh' = headerRow sh
  ∧ (∀ r, needsJobId (old r) = false → new r = old r)
  ∧ (∀ r, needsJobId (old r) = true →
       jobOf (new r) ≠ "" ∧ (∃ n, matchJobId (jobOf (new r)) = Some (yyyy, n))
       ∧ (∀ h, h ≠ H_REQ.JobID → h ≠ H_REQ.Created → fld (new r) h = fld (old r) h)
       ∧ (truthy (fld (old r) H_REQ.Created) = true →
          fld (new r) H_REQ.Created = fld (old r) H_REQ.Created)
       ∧ (H_REQ.Created ∈ hm sh → truthy (fld (old r) H_REQ.Created) = false →
          fld (new r) H_REQ.Created = VDate now)
       ∧ (∀ r', jobOf (old r') ≠ jobOf (new r))
       ∧ (∀ r', r' ≠ r → needsJobId (old r') = true → jobOf (new r') ≠ jobOf (new r))).
Proof.
  intros A HT HS N Y B.
  destruct (decide (getLastRow sh < dataStartRow sh)%nat) as [Last|Last].
  { rewrite ensureJobIds_early by done. cbv zeta. cbn [fst].
    split_and!; try done.
    intros r Nd. apply needsJobId_in_range in Nd. lia. }
  rewrite ensureJobIds_eq in B |- * by (done || lia).
  cbv zeta in B |- *. cbn [fst snd] in B |- *.
  set (st1 := _initJobSeqIfNeeded_ yyyy sh st) in *.
  set (need := length (filter (λ e : nat * gmap string jsval, needsJobId e.2 = true)
                              (dataObjects sh))) in *.
  destruct (init_top yyyy sh st A N) as (_ & Top0 & Up & _).
  change (_initJobSeqIfNeeded_ yyyy sh st) with st1 in Top0, Up.
  destruct (ensure_alloc yyyy need st1) as (LenIds & Ids & Seq).
  set (alloc := if (0 <? need)%nat then _ else _) in *.
  set (top := getJobIdSequence st1 yyyy) in *.
  rewrite Seq in B.
  destruct (ensure_loop now sh alloc.1 (dataObjects sh) sh 0%nat) as (M & Hr & Ot & As).
  { apply NoDup_dataObjects. }
  { intros [r obj] [j I]%list_elem_of_lookup. apply dataObjects_row in I as (-> & _).
    cbn [fst]. lia. }
  { done. } { done. } { fold need. lia. }
  set (sh' := (foldl _ (sh, 0%nat) (dataObjects sh)).1) in *.
  (* the id of a row that needs one *)
  assert (∀ r, needsJobId (getRowObjectByHeaders sh r) = true →
            ∃ c : nat, (c < need)%nat
              ∧ c = length (filter (λ e : nat * gmap string jsval, needsJobId e.2 = true)
                              (take (r - dataStartRow sh) (dataObjects sh)))
              ∧ ∀ h, fld (getRowObjectByHeaders sh' r) h
                     = if decide (h ∈ hm sh)
                       then default (fld (getRowObjectByHeaders sh r) h)
                              (putIf (has (hm sh) H_REQ.Created
                                      && negb (truthy (fld (getRowObjectByHeaders sh r) H_REQ.Created)))
                                     H_REQ.Created (VDate now)
                                     {[ H_REQ.JobID :=
                                          VStr (jobIdText yyyy (top + 1 + Z.of_nat c)) ]} !! h)
                       else VStr "") as Row.
  { intros r Nd. destruct (needsJobId_in_range sh r Nd) as [L1 L2].
    pose proof (dataObjects_of_row sh r L1 L2) as E.
    destruct (As _ r _ E Nd) as (id & Id & Fl). cbn [Nat.add] in Id.
    eexists. split; [|split; [reflexivity|]].
    - eapply Nat.lt_le_trans; [apply (count_take_lt (dataObjects sh) (r - dataStartRow sh)%nat
                                        (Datatypes.S (r - dataStartRow sh)%nat) _
                                        ltac:(lia) E Nd)|].
      apply count_take_le.
    - rewrite Ids in Id.
      2:{ eapply Nat.lt_le_trans; [apply (count_take_lt (dataObjects sh) (r - dataStartRow sh)%nat
                                        (Datatypes.S (r - dataStartRow sh)%nat) _
                                            ltac:(lia) E Nd)|].
          apply count_take_le. }
      injection Id as <-. exact Fl. }
  assert (∀ r, needsJobId (getRowObjectByHeaders sh r) = true →
            ∃ c : nat, (c < need)%nat
              ∧ c = length (filter (λ e : nat * gmap string jsval, needsJobId e.2 = true)
                              (take (r - dataStartRow sh) (dataObjects sh)))
              ∧ _normStr_ (fld (getRowObjectByHeaders sh' r) H_REQ.JobID) = jobIdText yyyy (top + 1 + Z.of_nat c)) as Job.
  { intros r Nd. destruct (Row r Nd) as (c & Lc & Ec & Fl). exists c.
    split; [done|]. split; [done|].
    rewrite Fl, decide_True by done. rewrite lookup_putIf.
    rewrite andb_false_r. rewrite lookup_singleton_eq. cbn [default from_option id].
    unfold _normStr_. change (String_ (VStr ?x)) with x.
    apply jobIdText_shape; [done|lia]. }
  split_and!; [done|done| |].
  - intros r Nd. apply Ot. intros obj [j I]%list_elem_of_lookup.
    apply dataObjects_row in I as (_ & _ & ->). exact Nd.
  - intros r Nd. destruct (Job r Nd) as (c & Lc & Ec & J).
    destruct (Row r Nd) as (c' & _ & Ec' & Fl).
    assert (c' = c) as -> by congruence.
    destruct (jobIdText_shape yyyy (top + 1 + Z.of_nat c)) as (Mt & _ & Ne); [done|lia|].
    split_and!.
    + by rewrite J.
    + rewrite J. eauto.
    + intros h N1 N2. rewrite Fl. destruct (decide (h ∈ hm sh)) as [I|I].
      * rewrite lookup_putIf.
        rewrite (bool_decide_eq_false_2 (H_REQ.Created = h)) by congruence.
        rewrite andb_false_r, lookup_singleton_ne by congruence. done.
      * by rewrite fld_unmapped.
    + intros Tr. rewrite Fl. destruct (decide (H_REQ.Created ∈ hm sh)) as [I|I].
      * rewrite lookup_putIf, Tr, andb_false_r. cbn [andb].
        by rewrite lookup_singleton_ne.
      * by rewrite fld_unmapped.
    + intros I Tr. rewrite Fl, decide_True by done.
      rewrite lookup_putIf, Tr. unfold has. rewrite bool_decide_eq_true_2 by done.
      by rewrite bool_decide_eq_true_2.
    + intros r' Q. rewrite J in Q.
      assert (fld (getRowObjectByHeaders sh r') H_REQ.JobID ≠ VStr "") as Ct.
      { intros F. rewrite F in Q. by apply Ne. }
      destruct (content_in_range sh r' _ Ct) as [L1 L2].
      rewrite <- Q in Mt.
      specialize (Up r' _ L1 L2 Mt). change (top + 1 + Z.of_nat c ≤ top) in Up. lia.
    + intros r' Ne' Nd' Q. destruct (Job r' Nd') as (c2 & Lc2 & Ec2 & J').
      rewrite J, J' in Q.
      destruct (jobIdText_shape yyyy (top + 1 + Z.of_nat c2)) as (Mt' & _); [done|lia|].
      rewrite Q, Mt in Mt'.
      assert (c = c2) as Qc by (injection Mt'; lia).
      destruct (needsJobId_in_range sh r Nd) as [L1 L2].
      destruct (needsJobId_in_range sh r' Nd') as [L1' L2'].
      pose proof (dataObjects_of_row sh r L1 L2) as E.
      pose proof (dataObjects_of_row sh r' L1' L2') as E'.
      destruct (Nat.lt_trichotomy (r - dataStartRow sh) (r' - dataStartRow sh))
        as [Lt|[Eq|Gt]]; [|lia|].
      * pose proof (count_take_lt _ _ _ _ Lt E Nd). lia.
      * pose proof (count_take_lt _ _ _ _ Gt E' Nd'). lia.
Qed.

End JobIds_facts.


Lemma allocate_ids_distinct_witness :
  (1000 ≤ 2025 ≤ 9999)%Z ∧ (0 ≤ getJobIdSequence ∅ 2025)%Z
  ∧ (getJobIdSequence ∅ 2025 + Z.of_nat 2 ≤ 9999)%Z
  ∧ NoDup (_allocateNextJobIds_ 2025 2 ∅).1.
Proof.
  assert (1000 ≤ 2025 ≤ 9999)%Z as Y by lia.
  assert (0 ≤ getJobIdSequence ∅ 2025)%Z as L by (by vm_compute).
  assert (getJobIdSequence ∅ 2025 + Z.of_nat 2 ≤ 9999)%Z as B by (by vm_compute).
  split; [exact Y|]. split; [exact L|]. split; [exact B|].
  apply (allocate_ids_distinct 2025 2 ∅ Y L B).
Defined.

Lemma init_sequence_covers_sheet_witness :
  ANCHOR_HEADER_REQ ∈ hm jobs_sheet ∧ (∅ : gmap Z Z) !! 2025%Z = None
  ∧ (0 ≤ getJobIdSequence (_initJobSeqIfNeeded_ 2025 jobs_sheet ∅) 2025)%Z.
Proof.
  assert (ANCHOR_HEADER_REQ ∈ hm jobs_sheet) as A by (vm_compute; reflexivity).
  split; [exact A|]. split; [apply lookup_empty|].
  apply (init_sequence_covers_sheet 2025 jobs_sheet ∅ A (lookup_empty _)).
Defined.

Lemma ensureJobIds_assigns_fresh_ids_witness :
  ANCHOR_HEADER_REQ ∈ hm jobs_sheet ∧ H_REQ.JobTitle ∈ hm jobs_sheet
  ∧ H_REQ.JobStatus ∈ hm jobs_sheet ∧ (∅ : gmap Z Z) !! 2025%Z = None
  ∧ (1000 ≤ 2025 ≤ 9999)%Z
  ∧ (getJobIdSequence (ensureJobIds_ 100 2025 jobs_sheet ∅).2 2025 ≤ 9999)%Z
  ∧ hm (ensureJobIds_ 100 2025 jobs_sheet ∅).1 = hm jobs_sheet.
Proof.
  assert (ANCHOR_HEADER_REQ ∈ hm jobs_sheet) as A by (vm_compute; reflexivity).
  assert (H_REQ.JobTitle ∈ hm jobs_sheet) as T by (vm_compute; reflexivity).
  assert (H_REQ.JobStatus ∈ hm jobs_sheet) as S by (vm_compute; reflexivity).
  assert (1000 ≤ 2025 ≤ 9999)%Z as Y by lia.
  assert (getJobIdSequence (ensureJobIds_ 100 2025 jobs_sheet ∅).2 2025 ≤ 9999)%Z
    as B by (by vm_compute).
  split; [exact A|]. split; [exact T|]. split; [exact S|]. split; [apply lookup_empty|].
  split; [exact Y|]. split; [exact B|].
  apply (ensureJobIds_assigns_fresh_ids 100 2025 jobs_sheet ∅ A T S (lookup_empty _) Y B).
Defined.

(** ** A reconciliation for job ids that no row carries *)

Section Reconcile_local.
Context `{DateRender} `{UpperFirst}.

Lemma split_hd_app (a b : string) :
  hd "" (Js.split "|" (a +:+ "|" +:+ b)) = hd "" (Js.split "|" a).
Proof.
  induction a as [|c a IH]; rewrite ?append_cons, ?append_nil_l; [done|].
  simpl in *. destruct (Ascii.eqb c "|"); [done|].
  destruct (Js.split "|" _), (Js.split "|" a); simpl in *; by subst.
Qed.

(** X25. A reconciliation for a list of job ids is local to them: when no
    row of the candidate sheet has one of the listed job ids, and no row of
    Active has a job id whose part before the first bar is listed, the run
    changes nothing and makes no call that writes. *)
Theorem reconcile_ByJobIds_without_rows now (jobIds : list string) (w : world) :
  jobIds ≠ [] →
  (∀ i c, body (w_all w) !! i = Some c →
          _normStr_ (fld (rowObject (w_all w) c) H_ALL.JobID) ∉ jobIds) →
  (∀ i c, body (w_act w) !! i = Some c →
          hd "" (Js.split "|" (_normStr_ (fld (rowObject (w_act w) c) H_ACT.JobID)))
          ∉ jobIds) →
  reconcileActiveMembership_ByJobIds_ now jobIds w = (w, []).
Proof.
  intros Ne All Act. unfold reconcileActiveMembership_ByJobIds_, getHeaderInfo.
  destruct (decide (_ ∈ hm (w_all w))); [|done].
  destruct (decide (_ ∈ hm (w_act w))); [|done].
  destruct (decide (_ ∈ hm (w_req w))); [|done].
  rewrite (buildCandidateIndex_fold now (w_all w)). cbv zeta.
  assert (toDelete jobIds (buildCandidateIndex now (w_act w)).1
            (indexFold candKey ∅ (dataObjects (w_all w))) (buildReqIndex (w_req w)).1
            (w_req w) = []) as ->.
  { apply elem_of_nil_inv. intros r (k & I & M)%toDelete_elem.
    apply index_row in I as (j & c & _ & E & K). apply candKey_Some in K.
    unfold mustDelete in M. apply andb_true_iff in M as [M _].
    unfold filterJob in M. rewrite bool_decide_eq_false_2 in M by done. cbn [orb] in M.
    apply bool_decide_eq_true in M. rewrite K, split_hd_app in M.
    by apply (Act j c E). }
  rewrite bool_decide_eq_false_2 by done.
  assert (filter (λ r : nat * gmap string jsval, _normStr_ (fld r.2 H_ALL.JobID) ∈ jobIds)
            (filter (λ e : nat * gmap string jsval, is_Some (candKey e.2))
               (dataObjects (w_all w))) = []) as ->.
  { apply elem_of_nil_inv. intros [r obj] [In [_ I]%list_elem_of_filter]%list_elem_of_filter.
    apply list_elem_of_lookup in I as [j I].
    apply dataObjects_lookup in I as (_ & _ & c & E & ->). by apply (All j c E). }
  simpl. by destruct w.
Qed.

End Reconcile_local.


Lemma reconcile_ByJobIds_without_rows_witness :
  reconcileActiveMembership_ByJobIds_ 100 ["all"] local_world = (local_world, [])
  ∧ reconcileActiveMembership_All_ 100 local_world ≠ (local_world, []).
Proof.
  split.
  - apply reconcile_ByJobIds_without_rows; [done| |].
    + intros [|[|i]] c E; try discriminate E; injection E as <-;
        vm_compute; intros I; repeat (apply elem_of_cons in I as [I|I]; [discriminate I|]);
        by apply elem_of_nil in I.
    + intros [|i] c E; try discriminate E; injection E as <-;
        vm_compute; intros I; repeat (apply elem_of_cons in I as [I|I]; [discriminate I|]);
        by apply elem_of_nil in I.
  - intros Q. apply (f_equal snd) in Q. vm_compute in Q. discriminate Q.
Defined.

(** ** The queued full resync *)

Section Queue_all.

Lemma enqueue_stores_list (jobIds : list string) (st : scheduler) :
  scriptLockFree st = true → prop_jobIds st ≠ Some QAll →
  prop_jobIds (enqueueAndSchedule_Reconcile jobIds st)
  = Some (QJson (dedupFirst
                   (match prop_jobIds st with Some (QJson ids) => ids | _ => [] end
                    ++ jobIds))).
Proof.
  intros L N. unfold enqueueAndSchedule_Reconcile. rewrite L. cbn [negb].
  destruct (prop_jobIds st) as [[|ids0|]|] eqn:E; [done|..];
    match goal with
    | |- prop_jobIds (_scheduleReconcileTrigger ?s) = _ =>
        by destruct (schedule_keeps_queue s) as [-> _]
    end.
Qed.

(** X26. [enqueueAndSchedule_Reconcile] never stores the mark of a full
    resync: the queue holds it afterwards only if it held it before.  So the
    request [enqueueAndSchedule_Reconcile(['all'])] of the change handler
    queues the text all as a job id, and the worker then reconciles by job
    ids, the list holding all, instead of running the full resync. *)
Theorem queued_all_runs_by_ids (jobIds : list string) (st : scheduler) :
  (prop_jobIds (enqueueAndSchedule_Reconcile jobIds st) = Some QAll
   ↔ prop_jobIds st = Some QAll)
  ∧ (scriptLockFree st = true → prop_jobIds st ≠ Some QAll → "all" ∈ jobIds →
     ∃ ids, (Debounced_Reconcile_ (Document true false)
               (enqueueAndSchedule_Reconcile jobIds st)).2 = Some (RunIds ids)
            ∧ "all" ∈ ids)
  ∧ (scriptLockFree st = true → prop_jobIds st = None →
     (Debounced_Reconcile_ (Document true false)
        (enqueueAndSchedule_Reconcile ["all"] st)).2 = Some (RunIds ["all"])).
Proof.
  split_and!.
  - destruct (scriptLockFree st) eqn:L.
    2:{ unfold enqueueAndSchedule_Reconcile. by rewrite L. }
    assert (prop_jobIds st = Some QAll ∨ prop_jobIds st ≠ Some QAll) as [Q|Q]
      by (destruct (prop_jobIds st) as [[| |]|]; (by left) || (by right)).
    + split; [done|]. intros _. unfold enqueueAndSchedule_Reconcile. rewrite L, Q.
      cbn [negb]. by destruct (schedule_keeps_queue st) as [-> _].
    + rewrite enqueue_stores_list by done. split; [done|]. intros E. by destruct Q.
  - intros L N I.
    pose proof (enqueue_stores_list jobIds st L N) as E.
    set (ids := dedupFirst _) in E.
    assert ("all" ∈ ids) as Ia.
    { unfold ids. apply dedupFirst_spec. by right. }
    exists ids. split; [|done].
    unfold Debounced_Reconcile_, withLock, Debounced_Reconcile_fn.
    cbn [documentLockFree prop_recGuard negb snd]. rewrite E.
    destruct ids; [by apply elem_of_nil in Ia|done].
  - intros L N.
    pose proof (enqueue_stores_list ["all"] st L ltac:(by rewrite N)) as E.
    rewrite N in E.
    unfold Debounced_Reconcile_, withLock, Debounced_Reconcile_fn.
    cbn [documentLockFree prop_recGuard negb snd]. rewrite E. done.
Qed.

End Queue_all.


(** ** Time stamps of the candidates *)

Section Stamps_facts.
Context `{DateRender} `{UpperFirst}.

Lemma isBlank_true v : isBlank v = true ↔ v = VStr "".
Proof. destruct v as [[|? ?]|?]; simpl; split; intros; congruence. Qed.

(** The hired flow leaves the sheets it does not write, and the row of the
    hired address. *)
Lemma applyHiredFlow_row now jobId hiredFullName hiredEmail (w : world) row :
  let w1 := applyHiredFlow_ now jobId hiredFullName hiredEmail w in
  normEmail (fld (getRowObjectByHeaders (w_all w) row) H_ALL.Email) = hiredEmail →
  w_act w1 = w_act w ∧ w_mute w1 = w_mute w
  ∧ hm (w_all w1) = hm (w_all w) ∧ dataStartRow (w_all w1) = dataStartRow (w_all w)
  ∧ getRowObjectByHeaders (w_all w1) row = getRowObjectByHeaders (w_all w) row.
Proof.
  intros w1 Em. subst w1. unfold applyHiredFlow_.
  destruct (w_processingHiredFlow w); [done|]. cbn [w_act w_mute w_all].
  unfold hiredFlowRejectOthers. destruct (getHeaderInfo _ _); [|done].
  destruct (reject_fold_shape now jobId hiredEmail (buildCandidateIndex now (w_all w)).2
              (w_all w)) as [M D].
  cbv zeta in M, D. split_and!; try done.
  destruct (decide (dataStartRow (w_all w) ≤ row)) as [L|L].
  2:{ unfold getRowObjectByHeaders. rewrite D.
      by destruct (Nat.ltb_spec row (dataStartRow (w_all w))); [|lia]. }
  rewrite !getRowObjectByHeaders_cells by (by rewrite ?D).
  rewrite D, (rowObject_hm _ (w_all w)) by done. f_equal. f_equal.
  apply reject_fold_untouched.
  intros r o (j & c' & -> & Lj & E' & ->)%candidateRows_entry Riv.
  split_and!; [lia|lia|]. intros Q.
  unfold isRival in Riv.
  apply andb_true_iff in Riv as [[[R1 R2]%andb_true_iff R3]%andb_true_iff R4].
  apply negb_true_iff, String.eqb_neq in R2. apply R2. rewrite <- Em.
  rewrite getRowObjectByHeaders_cells by done.
  replace (row - dataStartRow (w_all w)) with j by lia. by rewrite E'.
Qed.

Lemma withAll_fields (w : world) sh :
  w_req (withAll w sh) = w_req w ∧ w_act (withAll w sh) = w_act w
  ∧ w_mute (withAll w sh) = w_mute w ∧ w_all (withAll w sh) = sh.
Proof. done. Qed.

(** The row after the loop body, from the updates it collected. *)
Lemma stamp_write (w1 : world) (all : sheet) row (up : gmap string jsval) :
  hm (w_all w1) = hm all → dataStartRow (w_all w1) = dataStartRow all →
  dataStartRow all ≤ row →
  getRowObjectByHeaders (w_all w1) row = getRowObjectByHeaders all row →
  let w' := if isEmptyObj up then w1
            else withAll w1 (setRowValuesByHeaders (w_all w1) row up) in
  w_req w' = w_req w1 ∧ w_act w' = w_act w1 ∧ w_mute w' = w_mute w1
  ∧ hm (w_all w') = hm all
  ∧ ∀ h, fld (getRowObjectByHeaders (w_all w') row) h
         = if decide (h ∈ hm all)
           then default (fld (getRowObjectByHeaders all row) h) (up !! h)
           else VStr "".
Proof.
  intros M D L G w'. subst w'. unfold isEmptyObj. case_bool_decide as Em.
  - split_and!; try done. intros h. rewrite Em, lookup_empty, G. cbn [default from_option id].
    destruct (decide (h ∈ hm all)); [done|]. by apply fld_unmapped.
  - cbn [withAll w_req w_act w_mute w_all]. split_and!; try done.
    + by rewrite hm_setRowValuesByHeaders.
    + intros h. rewrite fld_get_set by (by rewrite D). rewrite M, G. done.
Qed.

(** X27. What [stampCreatedAndUpdated_All_] does to one data row of the
    candidate sheet.  It writes at most the created, last-updated and hired
    dates of the row; a created date that is set is never overwritten, a row
    with content gets one, and its last-updated date becomes the time of the
    run; the hired date is kept or set when the stage or the mirrored job
    status is Hired, and emptied otherwise.  The hired flow is run for the
    candidate of the row whenever the row counts as hired, that is also when
    only its job status reads Hired.  For such a row, when the status of the
    requisition is spelled Hired exactly (or is not Hired yet), the
    requisition then carries the name of this candidate as the hired one;
    when the status of the requisition is Hired under another spelling and
    the stored name is another one, the name of the requisition is empty
    afterwards. *)
Theorem stamp_row_effect now (flowNow : nat → Z) (w : world) (row : nat) :
  ANCHOR_HEADER_ALL ∈ hm (w_all w) → dataStartRow (w_all w) ≤ row →
  let all := w_all w in
  let obj := getRowObjectByHeaders all row in
  let w' := stampCreatedAndUpdated_All_ now flowNow [row] w in
  let obj' := getRowObjectByHeaders (w_all w') row in
  let hired := _normStr_ (fld obj H_ALL.Stage) = "Hired"
               ∨ _normStr_ (fld obj H_ALL.JobStatus) = "Hired" in
  let jobId := _normStr_ (fld obj H_ALL.JobID) in
  let fullName := _normStr_ (fld obj H_ALL.FullName) in
  let email := normEmail (fld obj H_ALL.Email) in
  w_act w' = w_act w ∧ w_mute w' = w_mute w ∧ hm (w_all w') = hm all
  ∧ (∀ h, h ∉ [H_ALL.Created; H_ALL.Updated; H_ALL.HiredDate] → fld obj' h = fld obj h)
  ∧ (isBlank (fld obj H_ALL.Created) = false →
     fld obj' H_ALL.Created = fld obj H_ALL.Created)
  ∧ (meaningful obj = true → H_ALL.Created ∈ hm all →
     isBlank (fld obj' H_ALL.Created) = false)
  ∧ (meaningful obj = true → H_ALL.Updated ∈ hm all →
     fld obj' H_ALL.Updated = VDate now)
  ∧ (hired → H_ALL.HiredDate ∈ hm all → isBlank (fld obj' H_ALL.HiredDate) = false)
  ∧ (¬ hired → fld obj' H_ALL.HiredDate = VStr "")
  ∧ (¬ hired → w_req w' = w_req w)
  ∧ (hired → jobId ≠ "" → fullName ≠ "" → email ≠ "" →
     w_req w' = w_req (applyHiredFlow_ (flowNow row) jobId fullName email w))
  ∧ (∀ reqRow,
       _normStr_ (fld obj H_ALL.JobStatus) = "Hired" →
       fullName ≠ "" → email ≠ "" →
       w_processingHiredFlow w = false →
       ANCHOR_HEADER_REQ ∈ hm (w_req w) → H_REQ.JobStatus ∈ hm (w_req w) →
       H_REQ.HiredCandidateName ∈ hm (w_req w) →
       (buildReqIndex (w_req w)).1 !! jobId = Some reqRow →
       let reqObj := getRowObjectByHeaders (w_req w) reqRow in
       let reqObj' := getRowObjectByHeaders (w_req w') reqRow in
       ((_canonReqStatus_ (fld reqObj H_REQ.JobStatus) = "Hired" →
         _normStr_ (fld reqObj H_REQ.JobStatus) = "Hired") →
        _normStr_ (fld reqObj' H_REQ.HiredCandidateName) = fullName)
       ∧ (_canonReqStatus_ (fld reqObj H_REQ.JobStatus) = "Hired" →
          _normStr_ (fld reqObj H_REQ.JobStatus) ≠ "Hired" →
          _normStr_ (fld reqObj H_REQ.HiredCandidateName) ≠ fullName →
          fld reqObj' H_REQ.HiredCandidateName = VStr "")).
Proof.
  intros A L all obj w' obj' hired jobId fullName email.
  change (ANCHOR_HEADER_ALL ∈ hm all) in A. change (dataStartRow all ≤ row) in L.
  assert (w' = stampRow now (flowNow row) w row) as Ew.
  { unfold w', stampCreatedAndUpdated_All_, getHeaderInfo. by rewrite decide_True. }
  unfold stampRow in Ew. fold all in Ew.
  destruct (Nat.ltb_spec row (dataStartRow all)) as [?|_]; [lia|].
  cbv zeta in Ew. fold obj in Ew. fold jobId fullName email in Ew.
  set (up0 := putIf (meaningful obj && has (hm all) H_ALL.Updated) H_ALL.Updated (VDate now)
                (putIf (meaningful obj && has (hm all) H_ALL.Created
                        && isBlank (fld obj H_ALL.Created))
                       H_ALL.Created (VDate now) ∅)) in Ew.
  assert (up0 !! H_ALL.Created
          = if meaningful obj && has (hm all) H_ALL.Created && isBlank (fld obj H_ALL.Created)
            then Some (VDate now) else None) as UC.
  { unfold up0. rewrite !lookup_putIf.
    rewrite (bool_decide_eq_false_2 (H_ALL.Updated = H_ALL.Created)) by done.
    rewrite bool_decide_eq_true_2 by done. rewrite andb_false_r, andb_true_r.
    by rewrite lookup_empty. }
  assert (up0 !! H_ALL.Updated
          = if meaningful obj && has (hm all) H_ALL.Updated
            then Some (VDate now) else None) as UU.
  { unfold up0. rewrite !lookup_putIf.
    rewrite bool_decide_eq_true_2 by done. rewrite andb_true_r.
    destruct (_ && has (hm all) H_ALL.Updated); [done|].
    rewrite (bool_decide_eq_false_2 (H_ALL.Created = H_ALL.Updated)) by done.
    by rewrite andb_false_r, lookup_empty. }
  assert (up0 !! H_ALL.HiredDate = None) as UH.
  { unfold up0. rewrite !lookup_putIf.
    rewrite (bool_decide_eq_false_2 (H_ALL.Updated = H_ALL.HiredDate)) by done.
    rewrite (bool_decide_eq_false_2 (H_ALL.Created = H_ALL.HiredDate)) by done.
    by rewrite !andb_false_r, lookup_empty. }
  assert (∀ h, h ∉ [H_ALL.Created; H_ALL.Updated; H_ALL.HiredDate] → up0 !! h = None) as UO.
  { intros h N. unfold up0. rewrite !lookup_putIf.
    rewrite (bool_decide_eq_false_2 (H_ALL.Updated = h))
      by (intros <-; apply N; repeat constructor).
    rewrite (bool_decide_eq_false_2 (H_ALL.Created = h))
      by (intros <-; apply N; repeat constructor).
    by rewrite !andb_false_r, lookup_empty. }
  assert (∀ c v, putIf c H_ALL.HiredDate v up0 !! H_ALL.HiredDate
                 = if c then Some v else None) as PHe.
  { intros c v. rewrite lookup_putIf, bool_decide_eq_true_2 by done.
    rewrite andb_true_r, UH. done. }
  assert (∀ c v h, h ≠ H_ALL.HiredDate →
                   putIf c H_ALL.HiredDate v up0 !! h = up0 !! h) as PHn.
  { intros c v h N. rewrite lookup_putIf, bool_decide_eq_false_2 by done.
    by rewrite andb_false_r. }
  assert (String.eqb (_normStr_ (fld obj H_ALL.Stage)) "Hired"
          || String.eqb (_normStr_ (fld obj H_ALL.JobStatus)) "Hired" = true ↔ hired) as Hi.
  { unfold hired. rewrite orb_true_iff, !String.eqb_eq. done. }
  destruct (String.eqb (_normStr_ (fld obj H_ALL.Stage)) "Hired"
            || String.eqb (_normStr_ (fld obj H_ALL.JobStatus)) "Hired") eqn:IsH.
  - (* the row counts as hired *)
    assert (hired) as Hd by (by apply Hi).
    cbn [fst snd] in Ew.
    set (w1 := if Js.nonempty jobId && Js.nonempty fullName && Js.nonempty email
               then applyHiredFlow_ (flowNow row) jobId fullName email w else w) in Ew.
    assert (w_act w1 = w_act w ∧ w_mute w1 = w_mute w ∧ hm (w_all w1) = hm all
            ∧ dataStartRow (w_all w1) = dataStartRow all
            ∧ getRowObjectByHeaders (w_all w1) row = obj) as (F1 & F2 & F3 & F4 & F5).
    { unfold w1.
      destruct (Js.nonempty jobId && Js.nonempty fullName && Js.nonempty email); [|done].
      by apply (applyHiredFlow_row (flowNow row) jobId fullName email w row). }
    destruct (stamp_write w1 all row
                (putIf (has (hm all) H_ALL.HiredDate && isBlank (fld obj H_ALL.HiredDate))
                       H_ALL.HiredDate (VDate now) up0) F3 F4 L F5)
      as (G1 & G2 & G3 & G4 & Fl).
    cbv zeta in G1, G2, G3, G4, Fl. rewrite <- Ew in G1, G2, G3, G4, Fl.
    fold obj obj' in Fl.
    assert (w_req w' = w_req w1) as Rq by exact G1.
    split_and!.
    + by rewrite G2.
    + by rewrite G3.
    + done.
    + intros h N. rewrite Fl, PHn by (intros ->; apply N; repeat constructor).
      rewrite (UO h N). cbn [default from_option id].
      destruct (decide (h ∈ hm all)); [done|]. symmetry. by apply fld_unmapped.
    + intros B. rewrite Fl, PHn, UC, B, andb_false_r by done.
      cbn [default from_option id].
      destruct (decide (_ ∈ hm all)); [done|]. symmetry. by apply fld_unmapped.
    + intros Mf I. rewrite Fl, decide_True, PHn, UC, Mf by done.
      unfold has. rewrite bool_decide_eq_true_2 by done. cbn [andb].
      destruct (isBlank (fld obj H_ALL.Created)) eqn:B; [done|]. done.
    + intros Mf I. rewrite Fl, decide_True, PHn, UU, Mf by done.
      unfold has. by rewrite bool_decide_eq_true_2.
    + intros _ I. rewrite Fl, decide_True, PHe by done.
      unfold has. rewrite bool_decide_eq_true_2 by done. cbn [andb].
      destruct (isBlank (fld obj H_ALL.HiredDate)) eqn:B; [done|]. done.
    + intros Nh. by destruct Nh.
    + intros Nh. by destruct Nh.
    + intros _ Nj Nf Ne. rewrite Rq. unfold w1.
      apply nonempty_true in Nj, Nf, Ne. by rewrite Nj, Nf, Ne.
    + intros reqRow St Nf Ne Fg Ar Sr Nr Ix reqObj reqObj'.
      destruct (reqIndex_row _ _ _ Ix) as [_ Nj].
      subst reqObj reqObj'. rewrite Rq. unfold w1.
      apply nonempty_true in Nj. pose proof Nf as Nf'. pose proof Ne as Ne'.
      apply nonempty_true in Nf', Ne'. rewrite Nj, Nf', Ne'. cbn [andb].
      unfold applyHiredFlow_. rewrite Fg. cbn [w_req].
      assert (Js.trim fullName = fullName) as Tf by apply trim_idem.
      split.
      * intros Canon.
        destruct (hiredFlowRequisition_spec (flowNow row) jobId fullName (w_req w) reqRow
                    Ar Sr Nr Ix Nf Canon) as [_ Nm].
        cbv zeta in Nm. by rewrite Nm.
      * intros Canon Raw Other.
        by destruct (hiredFlowRequisition_other_spelling (flowNow row) jobId fullName
                       (w_req w) reqRow Ar Sr Nr Ix Nf Canon Raw
                       ltac:(by rewrite Tf)) as [_ Nm].
  - (* the row does not count as hired *)
    assert (¬ hired) as Nh by (intros Hd; apply Hi in Hd; congruence).
    cbn [fst snd] in Ew.
    destruct (stamp_write w all row
                (putIf (has (hm all) H_ALL.HiredDate
                        && negb (isBlank (fld obj H_ALL.HiredDate)))
                       H_ALL.HiredDate (VStr "") up0) eq_refl eq_refl L eq_refl)
      as (G1 & G2 & G3 & G4 & Fl).
    cbv zeta in G1, G2, G3, G4, Fl. rewrite <- Ew in G1, G2, G3, G4, Fl.
    fold obj obj' in Fl.
    split_and!; try done.
    + intros h N. rewrite Fl, PHn by (intros ->; apply N; repeat constructor).
      rewrite (UO h N). cbn [default from_option id].
      destruct (decide (h ∈ hm all)); [done|]. symmetry. by apply fld_unmapped.
    + intros B. rewrite Fl, PHn, UC, B, andb_false_r by done.
      cbn [default from_option id].
      destruct (decide (_ ∈ hm all)); [done|]. symmetry. by apply fld_unmapped.
    + intros Mf I. rewrite Fl, decide_True, PHn, UC, Mf by done.
      unfold has. rewrite bool_decide_eq_true_2 by done. cbn [andb].
      destruct (isBlank (fld obj H_ALL.Created)) eqn:B; [done|]. done.
    + intros Mf I. rewrite Fl, decide_True, PHn, UU, Mf by done.
      unfold has. by rewrite bool_decide_eq_true_2.
    + intros _. rewrite Fl, PHe.
      destruct (decide (H_ALL.HiredDate ∈ hm all)) as [I|I]; [|done].
      unfold has. rewrite bool_decide_eq_true_2 by done. cbn [andb].
      destruct (isBlank (fld obj H_ALL.HiredDate)) eqn:B; [|done].
      apply isBlank_true in B. by rewrite B.
    + intros reqRow St. destruct Nh. by right.
Qed.

End Stamps_facts.


Lemma stamp_row_effect_witness :
  (ANCHOR_HEADER_ALL ∈ hm (w_all stamp_world) ∧ dataStartRow (w_all stamp_world) ≤ 3)
  ∧ _normStr_ (fld (getRowObjectByHeaders (w_req stamp_world) 2) H_REQ.HiredCandidateName)
    = "Ann Lee"
  ∧ _normStr_ (fld (getRowObjectByHeaders
                      (w_req (stampCreatedAndUpdated_All_ 100 (λ _, 200%Z) [3] stamp_world))
                      2) H_REQ.HiredCandidateName)
    = "Bob Ray"
  ∧ fld (getRowObjectByHeaders
           (w_req (stampCreatedAndUpdated_All_ 100 (λ _, 200%Z) [3]
                     stamp_world_respelled))
           2) H_REQ.HiredCandidateName
    = VStr "".
Proof.
  assert (ANCHOR_HEADER_ALL ∈ hm (w_all stamp_world)) as A by (vm_compute; reflexivity).
  assert (dataStartRow (w_all stamp_world) ≤ 3) as L by (vm_compute; lia).
  split; [by split|]. split; [reflexivity|].
  destruct (stamp_row_effect 100 (λ _, 200%Z) stamp_world 3 A L)
    as (_ & _ & _ & _ & _ & _ & _ & _ & _ & _ & _ & Name).
  destruct (stamp_row_effect 100 (λ _, 200%Z) stamp_world_respelled 3 A L)
    as (_ & _ & _ & _ & _ & _ & _ & _ & _ & _ & _ & Name').
  split.
  - destruct (Name 2) as [Exact _]; [by vm_compute..|].
    apply Exact. intros _. vm_compute. reflexivity.
  - destruct (Name' 2) as [_ Other]; [by vm_compute..|].
    apply Other; vm_compute; congruence.
Defined.
